(** * file-search-app: the indexing and search core, embedded in Rocq

    A shallow embedding of the search engine of [file_search_app.py] and of
    its modular re-statement under [modules/search] and [modules/utils]:

    - [PyStr]:  Python [str] values as sequences of Unicode code points;
    - [Rank]:   [_deduplicate_and_rank_optimized] (query planner);
    - [Router]: [_get_db_index_for_file] / [get_db_index_for_file] with MD5;
    - [Text]:   [normalize_search_text_ultra] and [enhanced_search_match];
    - [Cache]:  the immediate and hot tiers, indexing, promotion, shutdown;
    - [Store]:  the durable upsert ([_add_to_complete_layer],
                [add_document_to_db]) and its retry protocol;
    - [Planner]: the guard of [ultra_fast_search];
    - [TextMore], [PlannerMore], [CacheMore], [StoreMore]: further facts
      about the truncation, the pattern set and its cache, the unified
      search, the tiers and the durable upsert;
    - [Pipeline]: the promotion from the hot tier into the routed shard;
    - [TierSearch], [ResultCache]: [_search_immediate_layer],
      [_search_hot_layer] and [_cache_search_results];
    - [Lifecycle]: size classes of indexing and the two shutdowns;
    - [Extracted]: [normalize_extracted_text];
    - [StoredRows]: the rows that reach the shards through the tiers. *)

From Stdlib Require Import ZArith List Bool Lia String Ascii QArith.
From Stdlib Require Import Permutation Sorting.Sorted.
Import ListNotations.
Local Open Scope Z_scope.

(* ================================================================== *)
(** * Python strings *)
(* ================================================================== *)

Module PyStr.

(** A Python [str] is a finite sequence of code points; [len] counts code
    points. *)
Definition pystr := list Z.

(** String literals of the source (all of them ASCII). *)
Definition lit (s : string) : pystr :=
  map (fun a => Z.of_N (N_of_ascii a)) (list_ascii_of_string s).

Fixpoint eqb (a b : pystr) : bool :=
  match a, b with
  | [], [] => true
  | x :: a', y :: b' => (x =? y) && eqb a' b'
  | _, _ => false
  end.

(** [x in xs] for a list (or set) of strings. *)
Definition mem (x : pystr) (xs : list pystr) : bool := existsb (eqb x) xs.

(** [len(s)] *)
Definition len (s : pystr) : Z := Z.of_nat (List.length s).

(** [s[:n]] for [n >= 0]. *)
Definition slice_to (n : Z) (s : pystr) : pystr := firstn (Z.to_nat n) s.

Fixpoint starts_with (p s : pystr) : bool :=
  match p, s with
  | [], _ => true
  | x :: p', y :: s' => (x =? y) && starts_with p' s'
  | _ :: _, [] => false
  end.

(** [p in s] for strings: [p] occurs as a contiguous run of [s]. *)
Fixpoint contains (p s : pystr) : bool :=
  starts_with p s ||
  match s with
  | [] => false
  | _ :: s' => contains p s'
  end.

(** [s.replace(c, '')] for a one-character [c]. *)
Definition remove_char (c : Z) (s : pystr) : pystr :=
  filter (fun x => negb (x =? c)) s.

(** Characters for which [str.isspace] holds; [str.strip()] and
    [str.split()] treat exactly these as white space. *)
Definition is_space (c : Z) : bool :=
  ((9 <=? c) && (c <=? 13)) || ((28 <=? c) && (c <=? 32)) ||
  (c =? 133) || (c =? 160) || (c =? 5760) ||
  ((8192 <=? c) && (c <=? 8202)) || (c =? 8232) || (c =? 8233) ||
  (c =? 8239) || (c =? 8287) || (c =? 12288).

Fixpoint lstrip (s : pystr) : pystr :=
  match s with
  | c :: s' => if is_space c then lstrip s' else s
  | [] => []
  end.

(** [s.strip()] *)
Definition strip (s : pystr) : pystr := rev (lstrip (rev (lstrip s))).

(** Truthiness of a string: [not s] is [is_empty s]. *)
Definition is_empty (s : pystr) : bool :=
  match s with [] => true | _ => false end.

Lemma eqb_eq (a b : pystr) : eqb a b = true <-> a = b.
Proof.
  revert b; induction a as [|x a IH]; intros [|y b]; simpl; split;
    try congruence; try reflexivity.
  - intros H. apply andb_true_iff in H as [H1 H2].
    apply Z.eqb_eq in H1. apply IH in H2. now subst.
  - intros H. injection H as -> ->. rewrite Z.eqb_refl. simpl. now apply IH.
Qed.

Lemma eqb_refl (a : pystr) : eqb a a = true.
Proof. now apply eqb_eq. Qed.

Lemma eqb_neq (a b : pystr) : eqb a b = false <-> a <> b.
Proof.
  split.
  - intros H E. apply eqb_eq in E. congruence.
  - intros H. destruct (eqb a b) eqn:E; [|reflexivity].
    apply eqb_eq in E. contradiction.
Qed.

Lemma mem_In (x : pystr) (xs : list pystr) : mem x xs = true <-> In x xs.
Proof.
  unfold mem. rewrite existsb_exists. split.
  - intros [y [Hy E]]. apply eqb_eq in E. now subst.
  - intros H. exists x. split; [assumption | apply eqb_refl].
Qed.

Lemma mem_not_In (x : pystr) (xs : list pystr) : mem x xs = false <-> ~ In x xs.
Proof.
  rewrite <- mem_In. destruct (mem x xs); split; congruence.
Qed.

Lemma len_nonneg (s : pystr) : 0 <= len s.
Proof. unfold len. lia. Qed.

Lemma len_slice_to (n : Z) (s : pystr) : 0 <= n -> len (slice_to n s) <= n.
Proof.
  intros Hn. unfold len, slice_to.
  pose proof (firstn_le_length (Z.to_nat n) s). lia.
Qed.

Lemma len_remove_char (c : Z) (s : pystr) : len (remove_char c s) <= len s.
Proof.
  unfold len, remove_char. pose proof (filter_length_le (fun x => negb (x =? c)) s). lia.
Qed.

Lemma remove_char_absent (c : Z) (s : pystr) : ~ In c (remove_char c s).
Proof.
  unfold remove_char. intros H. apply filter_In in H as [_ H].
  rewrite Z.eqb_refl in H. discriminate.
Qed.

End PyStr.

Import PyStr.

(* ================================================================== *)
(** * [list.sort(key=..., reverse=True)] *)
(* ================================================================== *)

Module PySort.

Section Stable.

Context {A : Type}.

(** [ltb x y]: the key of [x] is less than the key of [y]. *)
Variable ltb : A -> A -> bool.

(** Python's sort is stable, also with [reverse=True]: the result is in
    descending key order and elements with equal keys keep their original
    order.  An element is therefore placed in front of the first element
    whose key is not greater than its own. *)
Fixpoint insert_desc (x : A) (l : list A) : list A :=
  match l with
  | [] => [x]
  | y :: l' => if ltb x y then y :: insert_desc x l' else x :: l
  end.

Definition sort_desc (l : list A) : list A := fold_right insert_desc [] l.

Lemma insert_desc_perm (x : A) (l : list A) :
  Permutation (insert_desc x l) (x :: l).
Proof.
  induction l as [|y l IH]; simpl; [reflexivity|].
  destruct (ltb x y); [|reflexivity].
  rewrite IH. apply perm_swap.
Qed.

Lemma sort_desc_perm (l : list A) : Permutation (sort_desc l) l.
Proof.
  induction l as [|x l IH]; simpl; [reflexivity|].
  rewrite insert_desc_perm. now constructor.
Qed.

Variable R : A -> A -> Prop.
Hypothesis ltb_false : forall a b, ltb a b = false -> R a b.
Hypothesis ltb_true : forall a b, ltb a b = true -> R b a.
Hypothesis R_trans : forall a b c, R a b -> R b c -> R a c.

Lemma insert_desc_sorted (x : A) (l : list A) :
  StronglySorted R l -> StronglySorted R (insert_desc x l).
Proof.
  induction l as [|y l IH]; simpl; intros Hs.
  - constructor; constructor.
  - destruct (ltb x y) eqn:E.
    + inversion Hs as [|? ? Hl Hy]; subst.
      constructor; [now apply IH|].
      apply Forall_forall. intros z Hz.
      apply (Permutation_in _ (insert_desc_perm x l)) in Hz.
      destruct Hz as [<- | Hz].
      * now apply ltb_true.
      * rewrite Forall_forall in Hy. now apply Hy.
    + constructor; [assumption|].
      pose proof (ltb_false _ _ E) as Hxy.
      inversion Hs as [|? ? Hl Hy]; subst.
      constructor; [assumption|].
      rewrite Forall_forall in *. intros z Hz.
      eapply R_trans; eauto.
Qed.

Lemma sort_desc_sorted (l : list A) : StronglySorted R (sort_desc l).
Proof.
  induction l as [|x l IH]; simpl; [constructor|].
  now apply insert_desc_sorted.
Qed.

(** Stability: the elements whose key equals that of [z] come out in the
    order in which they went in. *)
Definition same_key (z y : A) : bool := negb (ltb z y) && negb (ltb y z).

Hypothesis ltb_same_key :
  forall x y z, ltb x y = true -> same_key z x = true -> same_key z y = false.

Lemma insert_desc_stable (z x : A) (l : list A) :
  filter (same_key z) (insert_desc x l) = filter (same_key z) (x :: l).
Proof.
  induction l as [|y l IH]; [reflexivity|].
  cbn [insert_desc]. destruct (ltb x y) eqn:E; [|reflexivity].
  cbn [filter] in *. rewrite IH.
  destruct (same_key z x) eqn:Ex; [|reflexivity].
  now rewrite (ltb_same_key x y z E Ex).
Qed.

Lemma sort_desc_stable (z : A) (l : list A) :
  filter (same_key z) (sort_desc l) = filter (same_key z) l.
Proof.
  induction l as [|x l IH]; [reflexivity|].
  cbn [sort_desc fold_right]. fold (sort_desc l).
  rewrite insert_desc_stable. cbn [filter]. now rewrite IH.
Qed.

End Stable.

End PySort.

(* ================================================================== *)
(** * Query planner: dedup and rank *)
(* ================================================================== *)

Module Rank.

(** A result row is a Python dict.  The keys read by the ranking step are
    modelled as optional fields ([None]: the key is absent). *)
Record result := mkResult {
  file_path : option pystr;
  file_name : pystr;
  layer : option pystr;
  relevance_score : option Q
}.

(** Elements of the result list: dicts, or anything else
    ([isinstance(result, dict)] is tested by the source). *)
Inductive pyval :=
| PyDict (d : result)
| PyOther.

Definition priority_map : list (pystr * Z) :=
  [(lit "complete", 1000); (lit "immediate", 100); (lit "hot", 10)].

(** [m.get(k, default)] *)
Fixpoint dict_get (k : pystr) (m : list (pystr * Z)) (default : Z) : Z :=
  match m with
  | [] => default
  | (k', v) :: m' => if PyStr.eqb k k' then v else dict_get k m' default
  end.

Definition underscore : Z := 95.

(** [s.split(c)[0]]: the text before the first [c]. *)
Fixpoint before_first (c : Z) (s : pystr) : pystr :=
  match s with
  | [] => []
  | x :: s' => if x =? c then [] else x :: before_first c s'
  end.

(** [layer.split('_')[0] if '_' in layer else layer] *)
Definition layer_base (l : pystr) : pystr :=
  if existsb (Z.eqb underscore) l then before_first underscore l else l.

(** The sort key [get_priority]: the pair (priority, score). *)
Definition get_priority (r : pyval) : Z * Q :=
  match r with
  | PyOther => (0, 0%Q)
  | PyDict d =>
      let l := match layer d with Some l => l | None => lit "unknown" end in
      let priority := dict_get (layer_base l) priority_map 1 in
      let score := match relevance_score d with Some s => s | None => 0%Q end in
      (priority, score)
  end.

(** Python's [<] on the key tuples. *)
Definition key_ltb (a b : Z * Q) : bool :=
  match fst a ?= fst b with
  | Lt => true
  | Gt => false
  | Eq => match (snd a ?= snd b)%Q with Lt => true | _ => false end
  end.

(** [results.sort(key=get_priority, reverse=True)] *)
Definition sort_desc (l : list pyval) : list pyval :=
  PySort.sort_desc (fun x y => key_ltb (get_priority x) (get_priority y)) l.

Definition row_path (r : pyval) : option pystr :=
  match r with
  | PyDict d => file_path d
  | PyOther => None
  end.

(** The dedup loop; [seen] is [seen_paths]. *)
Fixpoint dedup (seen : list pystr) (rs : list pyval) : list pyval :=
  match rs with
  | [] => []
  | r :: rs' =>
      match row_path r with
      | Some path =>
          if mem path seen then dedup seen rs'
          else r :: dedup (path :: seen) rs'
      | None => dedup seen rs'
      end
  end.

Definition _deduplicate_and_rank_optimized (results : list pyval) : list pyval :=
  match results with
  | [] => []
  | _ => dedup [] (sort_desc results)
  end.

(** The coarse tier priority and the score of a row. *)
Definition tier_priority (r : pyval) : Z := fst (get_priority r).
Definition score (r : pyval) : Q := snd (get_priority r).

(** [ranks_before a b]: [a] may stand in front of [b] in a list sorted by
    (tier priority descending, score descending). *)
Definition ranks_before (a b : pyval) : Prop :=
  tier_priority b < tier_priority a \/
  (tier_priority a = tier_priority b /\ (score b <= score a)%Q).

(** Layer labels attached by the three tiers: ['immediate'], ['hot'],
    [f'complete_db_{i}'] and [f'complete_db_{i}_like']. *)
Definition tier_label (l : pystr) : Prop :=
  l = lit "immediate" \/ l = lit "hot" \/ exists rest, l = lit "complete_db_" ++ rest.

(** A row as the tier searches produce it: a dict with a layer label of
    its tier. *)
Definition tier_row (r : pyval) : Prop :=
  exists d l, r = PyDict d /\ layer d = Some l /\ tier_label l.

(** The coarse tier priority in the words of the specification: 1000 for
    a layer beginning with ['complete'], 100 for ['immediate'], 10 for
    ['hot'], less for anything else. *)
Definition spec_layer_priority (l : pystr) : Z :=
  if starts_with (lit "complete") l then 1000
  else if PyStr.eqb l (lit "immediate") then 100
  else if PyStr.eqb l (lit "hot") then 10
  else 1.



(** ** Sorting *)

Lemma key_ltb_false_ranks (a b : pyval) :
  key_ltb (get_priority a) (get_priority b) = false -> ranks_before a b.
Proof.
  unfold key_ltb, ranks_before, tier_priority, score.
  destruct (fst (get_priority a) ?= fst (get_priority b)) eqn:E.
  - apply Z.compare_eq in E.
    destruct (snd (get_priority a) ?= snd (get_priority b))%Q eqn:F; try discriminate;
      intros _; right; split; auto.
    + apply Qeq_alt in F. rewrite F. apply Qle_refl.
    + apply Qgt_alt in F. now apply Qlt_le_weak.
  - discriminate.
  - intros _. left. apply Z.compare_gt_iff in E. lia.
Qed.

Lemma key_ltb_true_ranks (a b : pyval) :
  key_ltb (get_priority a) (get_priority b) = true -> ranks_before b a.
Proof.
  unfold key_ltb, ranks_before, tier_priority, score.
  destruct (fst (get_priority a) ?= fst (get_priority b)) eqn:E.
  - apply Z.compare_eq in E.
    destruct (snd (get_priority a) ?= snd (get_priority b))%Q eqn:F; try discriminate.
    intros _. right. split; auto. apply Qlt_alt in F. now apply Qlt_le_weak.
  - intros _. left. now apply Z.compare_lt_iff in E.
  - discriminate.
Qed.

Lemma ranks_before_trans (a b c : pyval) :
  ranks_before a b -> ranks_before b c -> ranks_before a c.
Proof.
  unfold ranks_before. intros [H1 | [H1 H1']] [H2 | [H2 H2']].
  - left; lia.
  - left; lia.
  - left; lia.
  - right. split; [lia|]. eapply Qle_trans; eauto.
Qed.

Lemma rank_sort_perm (l : list pyval) : Permutation (sort_desc l) l.
Proof. apply PySort.sort_desc_perm. Qed.

Lemma rank_sort_sorted (l : list pyval) : StronglySorted ranks_before (sort_desc l).
Proof.
  apply PySort.sort_desc_sorted.
  - apply key_ltb_false_ranks.
  - apply key_ltb_true_ranks.
  - apply ranks_before_trans.
Qed.

Lemma key_ltb_spec (a b : Z * Q) :
  key_ltb a b = true <-> fst a < fst b \/ (fst a = fst b /\ (snd a < snd b)%Q).
Proof.
  unfold key_ltb. destruct (fst a ?= fst b) eqn:E.
  - apply Z.compare_eq in E.
    destruct (snd a ?= snd b)%Q eqn:F.
    + split; [discriminate|]. intros [H | [_ H]]; [lia|].
      apply -> Qlt_alt in H. congruence.
    + split; [intros _; right; split; [assumption | now apply <- Qlt_alt] | reflexivity].
    + split; [discriminate|]. intros [H | [_ H]]; [lia|].
      apply -> Qlt_alt in H. congruence.
  - apply -> Z.compare_lt_iff in E. split; [intros _; now left | reflexivity].
  - apply -> Z.compare_gt_iff in E. split; [discriminate|]. intros [H | [H _]]; lia.
Qed.

(** Rows with equal keys keep their order, as in Python's sort. *)
Lemma rank_sort_stable (z : pyval) (l : list pyval) :
  let same := PySort.same_key (fun x y => key_ltb (get_priority x) (get_priority y)) z in
  filter same (sort_desc l) = filter same l.
Proof.
  apply PySort.sort_desc_stable.
  intros x y z' Hxy Hz. unfold PySort.same_key in *.
  apply andb_true_iff in Hz as [H1 H2]. apply negb_true_iff in H1, H2.
  apply andb_false_iff. left. apply negb_false_iff.
  apply -> key_ltb_spec in Hxy. apply <- key_ltb_spec.
  assert (N1 : ~ (fst (get_priority z') < fst (get_priority x) \/
                  (fst (get_priority z') = fst (get_priority x) /\
                   (snd (get_priority z') < snd (get_priority x))%Q)))
    by (intros H; apply <- key_ltb_spec in H; congruence).
  assert (N2 : ~ (fst (get_priority x) < fst (get_priority z') \/
                  (fst (get_priority x) = fst (get_priority z') /\
                   (snd (get_priority x) < snd (get_priority z'))%Q)))
    by (intros H; apply <- key_ltb_spec in H; congruence).
  assert (Ep : fst (get_priority z') = fst (get_priority x)) by lia.
  assert (Es : (snd (get_priority z') == snd (get_priority x))%Q).
  { apply Qle_antisym; apply Qnot_lt_le; intros H; [apply N2 | apply N1]; right;
      split; auto. }
  destruct Hxy as [H | [H1' H2']]; [left; lia|].
  right. split; [lia|]. now rewrite Es.
Qed.

(** ** The dedup loop *)

Lemma dedup_In (seen : list pystr) (rs : list pyval) (r : pyval) :
  In r (dedup seen rs) -> In r rs /\ exists p, row_path r = Some p /\ ~ In p seen.
Proof.
  revert seen. induction rs as [|x rs IH]; simpl; intros seen H; [contradiction|].
  destruct (row_path x) as [p|] eqn:Hp.
  - destruct (mem p seen) eqn:Hm.
    + apply IH in H as [H1 H2]. auto.
    + destruct H as [<- | H].
      * split; [now left|]. exists p. split; [assumption|]. now apply mem_not_In.
      * apply IH in H as [H1 [q [Hq Hn]]]. split; [now right|].
        exists q. split; [assumption|]. intros Hin. apply Hn. now right.
  - apply IH in H as [H1 H2]. auto.
Qed.

Lemma dedup_paths_fresh (seen : list pystr) (rs : list pyval) (p : pystr) :
  In (Some p) (map row_path (dedup seen rs)) -> ~ In p seen.
Proof.
  intros H. apply in_map_iff in H as [r [Hr Hin]].
  apply dedup_In in Hin as [_ [q [Hq Hn]]]. congruence.
Qed.

Lemma dedup_NoDup (seen : list pystr) (rs : list pyval) :
  NoDup (map row_path (dedup seen rs)).
Proof.
  revert seen. induction rs as [|x rs IH]; simpl; intros seen; [constructor|].
  destruct (row_path x) as [p|] eqn:Hp; [|apply IH].
  destruct (mem p seen) eqn:Hm; [apply IH|].
  simpl. rewrite Hp. constructor; [|apply IH].
  intros Hin. apply dedup_paths_fresh in Hin. apply Hin. now left.
Qed.

Lemma dedup_sorted (seen : list pystr) (rs : list pyval) :
  StronglySorted ranks_before rs -> StronglySorted ranks_before (dedup seen rs).
Proof.
  revert seen. induction rs as [|x rs IH]; simpl; intros seen Hs; [constructor|].
  inversion Hs as [|? ? Hl Hx]; subst.
  destruct (row_path x) as [p|]; [|now apply IH].
  destruct (mem p seen); [now apply IH|].
  constructor; [now apply IH|].
  rewrite Forall_forall in *. intros z Hz. apply Hx.
  now apply dedup_In in Hz.
Qed.



Lemma rank_unfold (results : list pyval) :
  _deduplicate_and_rank_optimized results = dedup [] (sort_desc results).
Proof. now destruct results. Qed.

(** ** The priority table *)

Lemma layer_base_prefix (p rest : pystr) :
  existsb (Z.eqb underscore) p = false ->
  layer_base (p ++ underscore :: rest) = p.
Proof.
  intros Hp. unfold layer_base.
  assert (E : existsb (Z.eqb underscore) (p ++ underscore :: rest) = true).
  { rewrite existsb_app. cbn [existsb]. rewrite Z.eqb_refl. now rewrite orb_true_r. }
  rewrite E. clear E.
  induction p as [|x p IH]; cbn [app before_first existsb] in *.
  - now rewrite Z.eqb_refl.
  - apply orb_false_iff in Hp as [H1 H2].
    rewrite Z.eqb_sym, H1. f_equal. now apply IH.
Qed.


Lemma tier_label_priority (d : result) (l : pystr) :
  layer d = Some l -> tier_label l ->
  tier_priority (PyDict d) = spec_layer_priority l.
Proof.
  intros Hl Ht. unfold tier_priority, get_priority. rewrite Hl. simpl fst.
  destruct Ht as [-> | [-> | [rest ->]]]; reflexivity.
Qed.




(** ** A search across the tiers *)

Definition row (path label : string) (s : Q) : pyval :=
  PyDict (mkResult (Some (lit path)) (lit path) (Some (lit label)) (Some s)).

(** Spec scenario 6: [p.txt] is found in the hot tier, in the immediate
    tier and in shard 0; [q.txt] in shard 3 and in the hot tier. *)
Definition mixed_rows : list pyval :=
  [row "/d/p.txt" "hot" (4 # 5);
   row "/d/q.txt" "complete_db_3_like" (3 # 2);
   row "/d/p.txt" "immediate" 1;
   PyOther;
   row "/d/q.txt" "hot" (9 # 1);
   row "/d/p.txt" "complete_db_0" (5 # 2)].

Example mixed_rows_ranked :
  _deduplicate_and_rank_optimized mixed_rows
  = [row "/d/p.txt" "complete_db_0" (5 # 2);
     row "/d/q.txt" "complete_db_3_like" (3 # 2)].
Proof. vm_compute. reflexivity. Qed.

(** The rows of [mixed_rows] that come from the tiers. *)
Definition tier_rows : list pyval :=
  [row "/d/p.txt" "hot" (4 # 5);
   row "/d/q.txt" "complete_db_3_like" (3 # 2);
   row "/d/p.txt" "immediate" 1;
   row "/d/q.txt" "hot" (9 # 1);
   row "/d/p.txt" "complete_db_0" (5 # 2)].


End Rank.

(* ================================================================== *)
(** * Shard router *)
(* ================================================================== *)

Module Router.

(** ** [str.encode('utf-8')] *)

(** Bytes are integers in [0, 256). *)
Definition bytes := list Z.

(** UTF-8 encoding of one code point; lone surrogates (and values outside
    the code space) make [encode] raise [UnicodeEncodeError], here [None]. *)
Definition utf8_char (c : Z) : option bytes :=
  if c <? 0 then None
  else if c <? 128 then Some [c]
  else if c <? 2048 then
    Some [Z.lor 192 (Z.shiftr c 6); Z.lor 128 (Z.land c 63)]
  else if (55296 <=? c) && (c <=? 57343) then None
  else if c <? 65536 then
    Some [Z.lor 224 (Z.shiftr c 12);
          Z.lor 128 (Z.land (Z.shiftr c 6) 63);
          Z.lor 128 (Z.land c 63)]
  else if c <? 1114112 then
    Some [Z.lor 240 (Z.shiftr c 18);
          Z.lor 128 (Z.land (Z.shiftr c 12) 63);
          Z.lor 128 (Z.land (Z.shiftr c 6) 63);
          Z.lor 128 (Z.land c 63)]
  else None.

Fixpoint utf8 (s : pystr) : option bytes :=
  match s with
  | [] => Some []
  | c :: s' =>
      match utf8_char c, utf8 s' with
      | Some b, Some bs => Some (b ++ bs)
      | _, _ => None
      end
  end.

(** The strings [encode('utf-8')] accepts: Unicode scalar values only. *)
Definition scalar (c : Z) : Prop :=
  (0 <= c < 55296) \/ (57343 < c < 1114112).

(** ** MD5 (RFC 1321), on 32-bit words held in [Z] *)

Definition w32 (x : Z) : Z := x mod 2 ^ 32.
Definition add32 (x y : Z) : Z := w32 (x + y).
Definition not32 (x : Z) : Z := Z.lxor x 4294967295.
Definition rotl32 (x n : Z) : Z :=
  Z.lor (w32 (Z.shiftl x n)) (Z.shiftr x (32 - n)).

Definition md5_shift : list Z :=
  [7; 12; 17; 22; 7; 12; 17; 22; 7; 12; 17; 22; 7; 12; 17; 22;
   5; 9; 14; 20; 5; 9; 14; 20; 5; 9; 14; 20; 5; 9; 14; 20;
   4; 11; 16; 23; 4; 11; 16; 23; 4; 11; 16; 23; 4; 11; 16; 23;
   6; 10; 15; 21; 6; 10; 15; 21; 6; 10; 15; 21; 6; 10; 15; 21].

(** [md5_K[i] = floor(2^32 * |sin(i + 1)|)] *)
Definition md5_K : list Z :=
  [ 3614090360; 3905402710; 606105819; 3250441966; 4118548399; 1200080426; 2821735955; 4249261313;
    1770035416; 2336552879; 4294925233; 2304563134; 1804603682; 4254626195; 2792965006; 1236535329;
    4129170786; 3225465664; 643717713; 3921069994; 3593408605; 38016083; 3634488961; 3889429448;
    568446438; 3275163606; 4107603335; 1163531501; 2850285829; 4243563512; 1735328473; 2368359562;
    4294588738; 2272392833; 1839030562; 4259657740; 2763975236; 1272893353; 4139469664; 3200236656;
    681279174; 3936430074; 3572445317; 76029189; 3654602809; 3873151461; 530742520; 3299628645;
    4096336452; 1126891415; 2878612391; 4237533241; 1700485571; 2399980690; 4293915773; 2240044497;
    1873313359; 4264355552; 2734768916; 1309151649; 4149444226; 3174756917; 718787259; 3951481745 ].

Record md5_state := mkState { sa : Z; sb : Z; sc : Z; sd : Z }.

Definition md5_init : md5_state :=
  mkState 1732584193 4023233417 2562383102 271733878.

(** Little-endian word of four bytes, and back. *)
Definition le32_of (b : bytes) : Z :=
  nth 0 b 0 + 256 * nth 1 b 0 + 65536 * nth 2 b 0 + 16777216 * nth 3 b 0.

Definition le32_bytes (x : Z) : bytes :=
  [x mod 256; (x / 256) mod 256; (x / 65536) mod 256; (x / 16777216) mod 256].

(** The sixteen message words of a 64-byte block. *)
Definition block_words (blk : bytes) : list Z :=
  map (fun i => le32_of (firstn 4 (skipn (4 * i) blk))) (seq 0 16).

Definition md5_round (M : list Z) (st : md5_state) (i : nat) : md5_state :=
  let '(mkState A B C D) := st in
  let iz := Z.of_nat i in
  let '(F, g) :=
    if iz <? 16 then (Z.lor (Z.land B C) (Z.land (not32 B) D), iz)
    else if iz <? 32 then (Z.lor (Z.land D B) (Z.land (not32 D) C), (5 * iz + 1) mod 16)
    else if iz <? 48 then (Z.lxor (Z.lxor B C) D, (3 * iz + 5) mod 16)
    else (Z.lxor C (Z.lor B (not32 D)), (7 * iz) mod 16) in
  let F' := add32 (add32 (add32 F A) (nth i md5_K 0)) (nth (Z.to_nat g) M 0) in
  mkState D (add32 B (rotl32 F' (nth i md5_shift 0))) B C.

Definition md5_block (st : md5_state) (blk : bytes) : md5_state :=
  let M := block_words blk in
  let r := fold_left (md5_round M) (seq 0 64) st in
  mkState (add32 (sa st) (sa r)) (add32 (sb st) (sb r))
          (add32 (sc st) (sc r)) (add32 (sd st) (sd r)).

(** Padding: a [0x80] byte, zeros up to 56 modulo 64, then the bit length
    as a 64-bit little-endian integer. *)
Definition md5_pad (msg : bytes) : bytes :=
  let n := Z.of_nat (List.length msg) in
  let zeros := Z.to_nat ((55 - n) mod 64) in
  let bits := (8 * n) mod 2 ^ 64 in
  msg ++ [128] ++ repeat 0 zeros ++
  map (fun i => (bits / 2 ^ (8 * Z.of_nat i)) mod 256) (seq 0 8).

Fixpoint md5_blocks (fuel : nat) (st : md5_state) (data : bytes) : md5_state :=
  match fuel, data with
  | S fuel', _ :: _ => md5_blocks fuel' (md5_block st (firstn 64 data)) (skipn 64 data)
  | _, _ => st
  end.

(** [hashlib.md5(msg).digest()] *)
Definition md5 (msg : bytes) : bytes :=
  let data := md5_pad msg in
  let st := md5_blocks (List.length data) md5_init data in
  le32_bytes (sa st) ++ le32_bytes (sb st) ++ le32_bytes (sc st) ++ le32_bytes (sd st).

(** ** [hexdigest()] and [int(_, 16)] *)

Definition hex_char (n : Z) : Z := if n <? 10 then 48 + n else 87 + n.

Definition hex_value (c : Z) : option Z :=
  if (48 <=? c) && (c <=? 57) then Some (c - 48)
  else if (97 <=? c) && (c <=? 102) then Some (c - 87)
  else if (65 <=? c) && (c <=? 70) then Some (c - 55)
  else None.

Definition hexdigest (digest : bytes) : pystr :=
  flat_map (fun b => [hex_char (b / 16); hex_char (b mod 16)]) digest.

(** [int(s, 16)] for a string of hexadecimal digits; [None] is
    [ValueError]. *)
Fixpoint int16_from (acc : Z) (s : pystr) : option Z :=
  match s with
  | [] => Some acc
  | c :: s' =>
      match hex_value c with
      | Some v => int16_from (16 * acc + v) s'
      | None => None
      end
  end.

Definition int16 (s : pystr) : option Z :=
  match s with
  | [] => None
  | _ => int16_from 0 s
  end.

(** The digest read as one big-endian 128-bit number. *)
Definition be_int (digest : bytes) : Z :=
  fold_left (fun acc b => 256 * acc + b) digest 0.

(** ** The router *)

(** [_get_db_index_for_file] / [get_db_index_for_file]; [db_count] is
    [self.db_count].  [None] stands for an exception
    ([UnicodeEncodeError], [ZeroDivisionError]). *)
Definition get_db_index_for_file (db_count : Z) (file_path : pystr) : option Z :=
  match utf8 file_path with
  | None => None
  | Some b =>
      match int16 (hexdigest (md5 b)) with
      | None => None
      | Some hash_value => if db_count =? 0 then None else Some (hash_value mod db_count)
      end
  end.

Example md5_empty : hexdigest (md5 []) = lit "d41d8cd98f00b204e9800998ecf8427e".
Proof. vm_compute. reflexivity. Qed.

Example md5_abc : hexdigest (md5 (map Z.of_nat [97; 98; 99]%nat)) = lit "900150983cd24fb0d6963f7d28e17f72".
Proof. vm_compute. reflexivity. Qed.

Example shard_of_xyz : get_db_index_for_file 4 (lit "/x/y/z.txt") = Some 2.
Proof. vm_compute. reflexivity. Qed.

Example md5_two_blocks :
  hexdigest (md5 (repeat 97 70)) = lit "0f5c6c4e740bfcc08c3c26ccb2673d46".
Proof. vm_compute. reflexivity. Qed.

Example md5_pad_boundaries :
  hexdigest (md5 (repeat 97 55)) = lit "ef1772b6dff9a122358552954ad0df65" /\
  hexdigest (md5 (repeat 97 56)) = lit "3b0c8ac703f828b04c6c197006d17218" /\
  hexdigest (md5 (repeat 97 64)) = lit "014842d480b571495a4a0363793f7367".
Proof. vm_compute. repeat split. Qed.

(** A path with kana and kanji: [C:/データ/報告書_2024.pdf]. *)
Example shard_of_japanese_path :
  get_db_index_for_file 8
    [67; 58; 47; 12487; 12540; 12479; 47; 22577; 21578; 26360; 95;
     50; 48; 50; 52; 46; 112; 100; 102] = Some 6.
Proof. vm_compute. reflexivity. Qed.

(** ** Facts *)

Definition is_byte (b : Z) : Prop := 0 <= b < 256.

Lemma hex_value_char (n : Z) : 0 <= n < 16 -> hex_value (hex_char n) = Some n.
Proof.
  intros Hn. unfold hex_char, hex_value.
  destruct (n <? 10) eqn:E.
  - apply Z.ltb_lt in E.
    replace ((48 <=? 48 + n) && (48 + n <=? 57)) with true
      by (symmetry; apply andb_true_iff; split; apply Z.leb_le; lia).
    f_equal. lia.
  - apply Z.ltb_ge in E.
    replace ((48 <=? 87 + n) && (87 + n <=? 57)) with false
      by (symmetry; apply andb_false_iff; right; apply Z.leb_gt; lia).
    replace ((97 <=? 87 + n) && (87 + n <=? 102)) with true
      by (symmetry; apply andb_true_iff; split; apply Z.leb_le; lia).
    f_equal. lia.
Qed.

Lemma int16_from_hexdigest (digest : bytes) (acc : Z) :
  Forall is_byte digest ->
  int16_from acc (hexdigest digest) =
  Some (fold_left (fun a b => 256 * a + b) digest acc).
Proof.
  intros H. revert acc. induction H as [|b bs Hb Hbs IH]; intros acc; [reflexivity|].
  unfold is_byte in Hb.
  cbn [hexdigest flat_map app int16_from fold_left].
  rewrite hex_value_char by (split; [apply Z.div_pos | apply Z.div_lt_upper_bound]; lia).
  rewrite hex_value_char by (apply Z.mod_pos_bound; lia).
  fold (hexdigest bs). rewrite IH. do 2 f_equal.
  pose proof (Z.div_mod b 16). lia.
Qed.

Lemma int16_hexdigest (digest : bytes) :
  digest <> [] -> Forall is_byte digest ->
  int16 (hexdigest digest) = Some (be_int digest).
Proof.
  intros Hne H. unfold int16, be_int.
  rewrite <- int16_from_hexdigest by assumption.
  destruct digest as [|b bs]; [congruence | reflexivity].
Qed.

Lemma le32_bytes_ok (x : Z) : Forall is_byte (le32_bytes x).
Proof.
  unfold le32_bytes, is_byte.
  repeat constructor; apply Z.mod_pos_bound; lia.
Qed.

Lemma md5_digest_bytes (msg : bytes) : Forall is_byte (md5 msg).
Proof.
  unfold md5. repeat (apply Forall_app; split); apply le32_bytes_ok.
Qed.

Lemma md5_digest_length (msg : bytes) : List.length (md5 msg) = 16%nat.
Proof. reflexivity. Qed.

Lemma be_int_from_bound (digest : bytes) (acc : Z) :
  Forall is_byte digest -> 0 <= acc ->
  0 <= fold_left (fun a b => 256 * a + b) digest acc
    < (acc + 1) * 256 ^ Z.of_nat (List.length digest).
Proof.
  intros H. revert acc. induction H as [|b bs Hb Hbs IH]; intros acc Hacc.
  - simpl. lia.
  - cbn [fold_left List.length]. unfold is_byte in Hb.
    specialize (IH (256 * acc + b) ltac:(lia)).
    rewrite Nat2Z.inj_succ, Z.pow_succ_r by lia.
    nia.
Qed.

Lemma be_int_md5_bound (msg : bytes) : 0 <= be_int (md5 msg) < 2 ^ 128.
Proof.
  pose proof (be_int_from_bound (md5 msg) 0 (md5_digest_bytes msg) ltac:(lia)) as H.
  rewrite md5_digest_length in H. exact H.
Qed.

Lemma utf8_char_scalar (c : Z) : scalar c -> exists b, utf8_char c = Some b.
Proof.
  unfold scalar, utf8_char. intros H.
  destruct (c <? 0) eqn:E0; [apply Z.ltb_lt in E0; lia|].
  destruct (c <? 128); [eauto|].
  destruct (c <? 2048); [eauto|].
  destruct ((55296 <=? c) && (c <=? 57343)) eqn:E1.
  { apply andb_true_iff in E1 as [E1 E2]. apply Z.leb_le in E1, E2. lia. }
  destruct (c <? 65536); [eauto|].
  destruct (c <? 1114112) eqn:E2; [eauto|].
  apply Z.ltb_ge in E2. lia.
Qed.

Lemma utf8_scalar (s : pystr) : Forall scalar s -> exists b, utf8 s = Some b.
Proof.
  induction 1 as [|c s Hc Hs [bs IH]]; simpl; [eauto|].
  destruct (utf8_char_scalar c Hc) as [b ->]. rewrite IH. eauto.
Qed.

(** [C2] Shard router.  For a shard count [N > 0] and a path [p] (a string
    with a UTF-8 encoding, that is, of Unicode scalar values), the router
    returns the MD5 digest of [p]'s UTF-8 bytes, read as a 128-bit
    big-endian number, modulo [N]; the index lies in [0, N).  The router
    reads nothing but [N] and [p]. *)
Theorem shard_index_is_md5_mod (N : Z) (p : pystr) :
  0 < N -> Forall scalar p ->
  exists b,
    utf8 p = Some b /\
    get_db_index_for_file N p = Some (be_int (md5 b) mod N) /\
    0 <= be_int (md5 b) < 2 ^ 128 /\
    0 <= be_int (md5 b) mod N < N.
Proof.
  intros HN Hp. destruct (utf8_scalar p Hp) as [b Hb].
  exists b. split; [assumption|].
  unfold get_db_index_for_file. rewrite Hb.
  rewrite int16_hexdigest; [| | apply md5_digest_bytes].
  - replace (N =? 0) with false by (symmetry; apply Z.eqb_neq; lia).
    split; [reflexivity|]. split; [apply be_int_md5_bound|].
    apply Z.mod_pos_bound. assumption.
  - intros E. pose proof (md5_digest_length b) as L. rewrite E in L. discriminate.
Qed.

(** Spec scenario 2: with [N = 4] the path [/x/y/z.txt] goes to shard 2. *)
Lemma shard_index_is_md5_mod_witness :
  exists b,
    utf8 (lit "/x/y/z.txt") = Some b /\
    get_db_index_for_file 4 (lit "/x/y/z.txt") = Some (be_int (md5 b) mod 4) /\
    0 <= be_int (md5 b) < 2 ^ 128 /\
    0 <= be_int (md5 b) mod 4 < 4.
Proof.
  apply (shard_index_is_md5_mod 4 (lit "/x/y/z.txt")).
  - lia.
  - repeat constructor; unfold scalar; simpl; lia.
Defined.

End Router.

(* ================================================================== *)
(** * Text normalizer *)
(* ================================================================== *)

Module Text.

Section Folding.

(** [unicodedata.normalize('NFKC', _)] and [str.lower] are driven by the
    Unicode character database of the Python runtime; both are parameters
    of the normalizer. *)
Variable nfkc : pystr -> pystr.
Variable lower : pystr -> pystr.

(** ['!' <= c <= '~'] shifted by [0xFEE0]. *)
Definition to_full_width (s : pystr) : pystr :=
  map (fun c => if (33 <=? c) && (c <=? 126) then c + 65248 else c) s.

(** ['ぁ' <= c <= 'ゖ'] shifted by [+0x60]. *)
Definition hira_to_kata (s : pystr) : pystr :=
  map (fun c => if (12353 <=? c) && (c <=? 12438) then c + 96 else c) s.

(** ['ァ' <= c <= 'ヶ'] shifted by [-0x60]. *)
Definition kata_to_hira (s : pystr) : pystr :=
  map (fun c => if (12449 <=? c) && (c <=? 12534) then c - 96 else c) s.

(** [if b: patterns.append(x)] *)
Definition append_if (b : bool) (x : pystr) (ps : list pystr) : list pystr :=
  if b then ps ++ [x] else ps.

(** [if x not in patterns: patterns.append(x)] *)
Definition append_new (x : pystr) (ps : list pystr) : list pystr :=
  append_if (negb (mem x ps)) x ps.

(** The single-character loop. *)
Fixpoint add_chars (cs : pystr) (ps : list pystr) : list pystr :=
  match cs with
  | [] => ps
  | c :: cs' =>
      add_chars cs' (append_if (negb (mem [c] ps) && (0 <? len (strip [c]))) [c] ps)
  end.

(** The bigram loop over [text[i:i+2]], [i < len(text) - 1]. *)
Fixpoint add_bigrams (s : pystr) (ps : list pystr) : list pystr :=
  match s with
  | a :: ((b :: _) as s') => add_bigrams s' (append_new [a; b] ps)
  | _ => ps
  end.

(** [text.split()]: maximal runs of non-space characters; [cur] holds the
    current run, reversed. *)
Fixpoint split_from (cur : pystr) (s : pystr) : list pystr :=
  match s with
  | [] => if is_empty cur then [] else [rev cur]
  | c :: s' =>
      if is_space c
      then (if is_empty cur then split_from [] s' else rev cur :: split_from [] s')
      else split_from (c :: cur) s'
  end.

Definition split (s : pystr) : list pystr := split_from [] s.

(** The loop over the words. *)
Fixpoint add_words (ws : list pystr) (ps : list pystr) : list pystr :=
  match ws with
  | [] => ps
  | w :: ws' => add_words ws' (append_new (nfkc w) (append_new w ps))
  end.

(** The loop that fills [unique_patterns]. *)
Fixpoint unique_loop (text : pystr) (ps : list pystr) (uniq : list pystr) : list pystr :=
  match ps with
  | [] => uniq
  | p :: ps' =>
      unique_loop text ps'
        (append_if (negb (mem p uniq) && negb (PyStr.eqb p text)) p uniq)
  end.

(** [sorted(_, key=len, reverse=True)] *)
Definition sort_by_len_desc (ps : list pystr) : list pystr :=
  PySort.sort_desc (fun a b => len a <? len b) ps.

(** The list [patterns] before deduplication. *)
Definition raw_patterns (text : pystr) : list pystr :=
  let patterns := [text] in
  let half_width := nfkc text in
  let patterns := append_if (negb (PyStr.eqb half_width text)) half_width patterns in
  let full_width := to_full_width text in
  let patterns := append_if (negb (PyStr.eqb full_width text)) full_width patterns in
  let normalized := lower text in
  let patterns := append_if (negb (PyStr.eqb normalized text)) normalized patterns in
  let patterns :=
    if 2 <=? len text then add_bigrams text (add_chars text patterns) else patterns in
  let hiragana_to_katakana := hira_to_kata normalized in
  let patterns :=
    append_if (negb (PyStr.eqb hiragana_to_katakana normalized))
              hiragana_to_katakana patterns in
  let katakana_to_hiragana := kata_to_hira normalized in
  let patterns :=
    append_if (negb (PyStr.eqb katakana_to_hiragana normalized))
              katakana_to_hiragana patterns in
  let words := split text in
  if 1 <? Z.of_nat (List.length words) then add_words words patterns else patterns.

(** [normalize_search_text_ultra]: (half width, full width,
    hiragana-to-katakana, final patterns). *)
Definition normalize_search_text_ultra (text : pystr)
  : pystr * pystr * pystr * list pystr :=
  if is_empty text then ([], [], [], [])
  else
    let unique_patterns := unique_loop text (raw_patterns text) [text] in
    let first_pattern := hd [] unique_patterns in
    let remaining_patterns := sort_by_len_desc (tl unique_patterns) in
    (nfkc text, to_full_width text, hira_to_kata (lower text),
     first_pattern :: remaining_patterns).

(** The pattern set of a query. *)
Definition patterns (query : pystr) : list pystr :=
  snd (normalize_search_text_ultra query).

(** ** [enhanced_search_match] *)

(** The five forms compared, the same for the text and for a pattern:
    as is, lower-cased, NFKC of the lower-cased form, and the two kana
    foldings of the lower-cased form. *)
Definition variants (s : pystr) : list pystr :=
  let s_lower := lower s in
  [s; s_lower; nfkc s_lower; hira_to_kata s_lower; kata_to_hira s_lower].

(** The body of the innermost loop for one text form and one pattern
    form; [q0] is [query_patterns[0]].  [false] covers both [continue] and
    falling through to the next iteration. *)
Definition pair_matches (q0 text_variant pattern_variant : pystr) : bool :=
  if (3 <=? len q0) && (len (strip pattern_variant) <? 3) then false
  else if (len q0 =? 2) && (len (strip pattern_variant) <? 2) then false
  else if (len q0 =? 1) && (len (strip pattern_variant) <? 1) then false
  else if PyStr.eqb pattern_variant text_variant then true
  else if 4 <=? len q0
       then PyStr.eqb pattern_variant q0 && contains pattern_variant text_variant
       else (2 <=? len pattern_variant) && contains pattern_variant text_variant.

Definition enhanced_search_match (text : pystr) (query_patterns : list pystr) : bool :=
  match text, query_patterns with
  | [], _ => false
  | _, [] => false
  | _, q0 :: _ =>
      let text_variants := variants text in
      existsb (fun pattern =>
        existsb (fun text_variant =>
          existsb (fun pattern_variant => pair_matches q0 text_variant pattern_variant)
                  (variants pattern))
                text_variants)
        query_patterns
  end.

(** ** The matcher in the words of the specification *)

(** Least pattern length admitted for a query of length [n]: 3 from
    length 4 on, 2 for lengths 2 and 3, none for length 1. *)
Definition spec_min_pattern_len (n : Z) : Z :=
  if 4 <=? n then 3 else if 2 <=? n then 2 else 0.

(** Substring match of the admitted patterns against the text, with the
    folding applied to both sides. *)
Definition spec_matches (text : pystr) (query_patterns : list pystr) : bool :=
  match query_patterns with
  | [] => false
  | q0 :: _ =>
      existsb (fun pattern =>
        (spec_min_pattern_len (len q0) <=? len pattern) &&
        existsb (fun text_variant =>
          existsb (fun pattern_variant => contains pattern_variant text_variant)
                  (variants pattern))
                (variants text))
        query_patterns
  end.

End Folding.

(** Instances of the two tables for running the normalizer.  They agree
    with the Unicode tables on ASCII, on the full-width forms of ASCII
    (U+FF01 to U+FF5E), on kana and unified ideographs, and on U+3231
    (PARENTHESIZED IDEOGRAPH STOCK), whose NFKC form is the three
    characters ['('], U+682A, [')']. *)
Definition sample_lower (s : pystr) : pystr :=
  map (fun c => if ((65 <=? c) && (c <=? 90)) || ((65313 <=? c) && (c <=? 65338))
                then c + 32 else c) s.

Definition sample_nfkc (s : pystr) : pystr :=
  flat_map (fun c => if (65281 <=? c) && (c <=? 65374) then [c - 65248]
                     else if c =? 12849 then [40; 26666; 41]
                     else [c]) s.

Example patterns_ab :
  patterns sample_nfkc sample_lower (lit "ab")
  = [lit "ab"; [65345; 65346]; lit "a"; lit "b"].
Proof. vm_compute. reflexivity. Qed.

Example patterns_words :
  patterns sample_nfkc sample_lower (lit "Ab c")
  = [lit "Ab c"; [65313; 65346; 32; 65347]; lit "ab c"; lit "Ab"; lit "b "; lit " c";
     lit "A"; lit "b"; lit "c"].
Proof. vm_compute. reflexivity. Qed.

(** ** Facts about the pattern set *)

Section PatternFacts.

Variable nfkc : pystr -> pystr.
Variable lower : pystr -> pystr.

(** [b] is at most as long as [a]: the order of the sorted tail. *)
Definition not_shorter (a b : pystr) : Prop := len b <= len a.

Lemma unique_loop_head (text : pystr) (ps u : list pystr) :
  NoDup (text :: u) ->
  exists u', unique_loop text ps (text :: u) = text :: u' /\ NoDup (text :: u').
Proof.
  revert u. induction ps as [|p ps IH]; intros u Hnd; cbn [unique_loop]; [eauto|].
  destruct (negb (mem p (text :: u)) && negb (PyStr.eqb p text)) eqn:E;
    cbn [append_if].
  - apply andb_true_iff in E as [E _]. apply negb_true_iff, mem_not_In in E.
    apply (IH (u ++ [p])).
    change (text :: u ++ [p]) with ((text :: u) ++ [p]).
    apply (Permutation_NoDup (l := p :: text :: u)).
    + change (p :: text :: u) with ([p] ++ (text :: u)). apply Permutation_app_comm.
    + now constructor.
  - now apply IH.
Qed.

Lemma sort_by_len_sorted (ps : list pystr) :
  StronglySorted not_shorter (sort_by_len_desc ps).
Proof.
  apply PySort.sort_desc_sorted; unfold not_shorter.
  - intros a b H. apply Z.ltb_ge in H. lia.
  - intros a b H. apply Z.ltb_lt in H. lia.
  - intros a b c H1 H2. lia.
Qed.

(** [C7] Pattern set of a query.  For every non-empty query [q] the
    pattern list returned by [normalize_search_text_ultra] starts with [q]
    (so it contains [q]), its remaining elements are in non-increasing
    order of length, and no pattern occurs twice.  The list is a function
    of [q] (and of the Unicode tables) alone. *)
Theorem patterns_original_first_sorted (q : pystr) :
  q <> [] ->
  exists rest,
    patterns nfkc lower q = q :: rest /\
    In q (patterns nfkc lower q) /\
    StronglySorted not_shorter rest /\
    NoDup (q :: rest) /\
    (forall q', q' = q -> patterns nfkc lower q' = q :: rest).
Proof.
  intros Hq. unfold patterns, normalize_search_text_ultra.
  destruct q as [|c q']; [congruence|].
  cbn [is_empty snd].
  set (text := c :: q').
  destruct (unique_loop_head text (raw_patterns nfkc lower text) [])
    as [u [Hu Hnd]].
  { constructor; [tauto | constructor]. }
  rewrite Hu. cbn [hd tl].
  exists (sort_by_len_desc u).
  split; [reflexivity|]. split; [now left|].
  split; [apply sort_by_len_sorted|].
  assert (Hnd' : NoDup (text :: sort_by_len_desc u)).
  { apply (Permutation_NoDup (l := text :: u)); [|assumption].
    constructor. symmetry. apply PySort.sort_desc_perm. }
  split; [assumption|].
  intros q'' ->. fold text. unfold patterns, normalize_search_text_ultra.
  subst text. cbn [is_empty snd]. rewrite Hu. reflexivity.
Qed.

End PatternFacts.

Lemma patterns_original_first_sorted_witness :
  exists rest,
    patterns sample_nfkc sample_lower (lit "Ab c") = lit "Ab c" :: rest /\
    In (lit "Ab c") (patterns sample_nfkc sample_lower (lit "Ab c")) /\
    StronglySorted not_shorter rest /\
    NoDup (lit "Ab c" :: rest) /\
    (forall q', q' = lit "Ab c" ->
       patterns sample_nfkc sample_lower q' = lit "Ab c" :: rest).
Proof.
  apply (patterns_original_first_sorted sample_nfkc sample_lower (lit "Ab c")).
  discriminate.
Defined.

(** ** Facts about the matcher *)

Section MatchFacts.

Variable nfkc : pystr -> pystr.
Variable lower : pystr -> pystr.

(** The strictness rule of the code, on a pattern form [pv] for the
    original query [q0]: the stripped form must have at least 3 characters
    when [q0] has 3 or more, at least 2 when [q0] has 2, at least 1 when
    [q0] has 1. *)
Definition admitted (q0 pv : pystr) : Prop :=
  (3 <= len q0 -> 3 <= len (strip pv)) /\
  (len q0 = 2 -> 2 <= len (strip pv)) /\
  (len q0 = 1 -> 1 <= len (strip pv)).

(** How an admitted pattern form [pv] matches a text form [tv]: by being
    equal to it, or by occurring in it; the latter only for the original
    query itself when that has 4 or more characters, and only for forms
    of 2 or more characters otherwise. *)
Definition hits (q0 tv pv : pystr) : Prop :=
  pv = tv \/
  (contains pv tv = true /\ if 4 <=? len q0 then pv = q0 else 2 <= len pv).

Lemma pair_matches_iff (q0 tv pv : pystr) :
  pair_matches q0 tv pv = true <-> admitted q0 pv /\ hits q0 tv pv.
Proof.
  unfold pair_matches, admitted, hits.
  destruct (3 <=? len q0) eqn:E3; [apply Z.leb_le in E3 | apply Z.leb_gt in E3];
  destruct (len (strip pv) <? 3) eqn:S3; [apply Z.ltb_lt in S3 | apply Z.ltb_ge in S3
                                         |apply Z.ltb_lt in S3 | apply Z.ltb_ge in S3];
  cbn [andb];
  try (split; [discriminate | intros [[H _] _]; lia]);
  (destruct (len q0 =? 2) eqn:E2; [apply Z.eqb_eq in E2 | apply Z.eqb_neq in E2]);
  (destruct (len (strip pv) <? 2) eqn:S2; [apply Z.ltb_lt in S2 | apply Z.ltb_ge in S2]);
  cbn [andb];
  try (split; [discriminate | intros [[_ [H _]] _]; lia]);
  (destruct (len q0 =? 1) eqn:E1; [apply Z.eqb_eq in E1 | apply Z.eqb_neq in E1]);
  (destruct (len (strip pv) <? 1) eqn:S1; [apply Z.ltb_lt in S1 | apply Z.ltb_ge in S1]);
  cbn [andb];
  try (split; [discriminate | intros [[_ [_ H]] _]; lia]);
  (destruct (PyStr.eqb pv tv) eqn:Eq;
   [apply PyStr.eqb_eq in Eq; split; [intros _; split; [lia | now left] | reflexivity]
   | apply PyStr.eqb_neq in Eq]);
  (destruct (4 <=? len q0) eqn:E4;
   [ rewrite andb_true_iff, PyStr.eqb_eq
   | rewrite andb_true_iff, Z.leb_le ]);
  (split;
   [ intros [H1 H2]; split; [lia | right; split; assumption]
   | intros [_ [H | [H1 H2]]]; [contradiction | split; assumption] ]).
Qed.

Lemma lstrip_length (s : pystr) : (List.length (lstrip s) <= List.length s)%nat.
Proof.
  induction s as [|c s IH]; simpl; [lia|].
  destruct (is_space c); simpl; lia.
Qed.

Lemma strip_len_le (s : pystr) : len (strip s) <= len s.
Proof.
  unfold len, strip. rewrite length_rev.
  pose proof (lstrip_length (rev (lstrip s))) as H1.
  rewrite length_rev in H1. pose proof (lstrip_length s). lia.
Qed.

(** [C5] The matcher.  [enhanced_search_match text patterns] holds exactly
    when the text and the pattern list are non-empty and some form [pv] of
    some pattern and some form [tv] of the text are such that [pv] is
    admitted by the strictness rule ([admitted]) and matches [tv]
    ([hits]).  The forms are the same five for the text and for the
    pattern ([variants]).  An admitted form has at least 3 characters when
    the original query has 3 or more, and at least 2 when it has 2. *)
Theorem enhanced_search_match_iff (text : pystr) (query_patterns : list pystr) :
  (enhanced_search_match nfkc lower text query_patterns = true <->
   text <> [] /\
   exists q0 rest, query_patterns = q0 :: rest /\
   exists pattern tv pv,
     In pattern query_patterns /\
     In tv (variants nfkc lower text) /\
     In pv (variants nfkc lower pattern) /\
     admitted q0 pv /\ hits q0 tv pv) /\
  (forall q0 pv, admitted q0 pv ->
     (3 <= len q0 -> 3 <= len pv) /\ (len q0 = 2 -> 2 <= len pv)).
Proof.
  split.
  - unfold enhanced_search_match.
    destruct text as [|c text]; [split; [discriminate | intros [H _]; congruence]|].
    destruct query_patterns as [|q0 rest].
    { split; [discriminate | intros [_ [? [? [H _]]]]; discriminate]. }
    set (T := c :: text). set (P := q0 :: rest).
    rewrite existsb_exists. split.
    + intros [pattern [Hp H]].
      apply existsb_exists in H as [tv [Htv H]].
      apply existsb_exists in H as [pv [Hpv H]].
      apply pair_matches_iff in H as [Ha Hh].
      split; [discriminate|]. exists q0, rest. split; [reflexivity|].
      exists pattern, tv, pv. auto.
    + intros [_ [q0' [rest' [E [pattern [tv [pv [Hp [Htv [Hpv [Ha Hh]]]]]]]]]]].
      injection E as <- <-.
      exists pattern. split; [assumption|].
      apply existsb_exists. exists tv. split; [assumption|].
      apply existsb_exists. exists pv. split; [assumption|].
      apply pair_matches_iff. auto.
  - intros q0 pv [H3 [H2 _]]. pose proof (strip_len_le pv). split; intros; lia.
Qed.

End MatchFacts.

(** The matcher is not the substring match of the specification.
    - It is stricter.  For the one-character query [a] no pattern form has
      two characters, so the text [abc] is not matched; for the two-word
      query [abc defg] the word [abc] is a pattern of length 3, but only
      the whole query may match as a substring, so the text [an abc here]
      is not matched.  Both are matches in the words of the specification.
    - It admits shorter patterns.  For the query of U+3231 followed by
      [ABC] (length 4) the one-character pattern U+3231 matches the text
      [(株)] through its NFKC form of three characters; in the words of
      the specification only patterns of length 3 or more may match, and
      none of those does. *)
Lemma matcher_differs_from_spec :
  (enhanced_search_match sample_nfkc sample_lower (lit "abc")
     (patterns sample_nfkc sample_lower (lit "a")) = false /\
   spec_matches sample_nfkc sample_lower (lit "abc")
     (patterns sample_nfkc sample_lower (lit "a")) = true) /\
  (In (lit "abc") (patterns sample_nfkc sample_lower (lit "abc defg")) /\
   enhanced_search_match sample_nfkc sample_lower (lit "an abc here")
     (patterns sample_nfkc sample_lower (lit "abc defg")) = false /\
   spec_matches sample_nfkc sample_lower (lit "an abc here")
     (patterns sample_nfkc sample_lower (lit "abc defg")) = true) /\
  (In [12849] (patterns sample_nfkc sample_lower (12849 :: lit "ABC")) /\
   enhanced_search_match sample_nfkc sample_lower [40; 26666; 41]
     (patterns sample_nfkc sample_lower (12849 :: lit "ABC")) = true /\
   enhanced_search_match sample_nfkc sample_lower [40; 26666; 41]
     [12849 :: lit "ABC"; [12849]] = true /\
   enhanced_search_match sample_nfkc sample_lower [40; 26666; 41]
     [12849 :: lit "ABC"] = false /\
   spec_matches sample_nfkc sample_lower [40; 26666; 41]
     (patterns sample_nfkc sample_lower (12849 :: lit "ABC")) = false).
Proof.
  split; [split; vm_compute; reflexivity|].
  split; [split; [vm_compute; tauto | split; vm_compute; reflexivity]|].
  split; [vm_compute; tauto|].
  repeat split; vm_compute; reflexivity.
Qed.

(** Matches that do hold: a two-character query inside the text, and a
    full-width query against half-width text through the NFKC form. *)
Example match_two_chars :
  enhanced_search_match sample_nfkc sample_lower (lit "xabx")
    (patterns sample_nfkc sample_lower (lit "AB")) = true.
Proof. vm_compute. reflexivity. Qed.

Example match_full_width_query :
  enhanced_search_match sample_nfkc sample_lower (lit "report ABC.txt")
    (patterns sample_nfkc sample_lower [65313; 65314; 65315]) = true.
Proof. vm_compute. reflexivity. Qed.

End Text.

(* ================================================================== *)
(** * Tiered cache, indexing and promotion *)
(* ================================================================== *)

Module Cache.

(** ** Cache entries and Python dicts *)

(** An entry of either tier.  [immediate_data] has a [content_preview];
    the hot entry is a copy of it updated with [content], [layer] and
    [moved_from_immediate].  Keys that may be absent are options. *)
Record entry := mkEntry {
  file_path : option pystr;
  file_name : pystr;
  content_preview : option pystr;
  content : option pystr;
  file_type : pystr;
  size : Z;
  indexed_time : Z;
  layer : option pystr;
  moved_from_immediate : option Z
}.

(** A result row of a tier search. *)
Record hit := mkHit {
  hit_file_path : pystr;
  hit_file_name : pystr;
  hit_content_preview : pystr;
  hit_layer : pystr;
  hit_relevance_score : Q
}.

(** The values of [immediate_cache]: the entry of a file, stored under
    its path by indexing, or the list of rows of an earlier search,
    stored under its query by [_cache_search_results]. *)
Inductive cache_value :=
| FileEntry (data : entry)
| SearchResults (results : list hit).

(** A dict keeps its keys in insertion order; the order decides which
    entry an eviction removes when times are equal.  [dict] is the hot
    tier, [tier] the immediate tier. *)
Definition dict := list (pystr * entry).

Definition tier := list (pystr * cache_value).

(** [k in d] *)
Definition dict_has {V : Type} (k : pystr) (d : list (pystr * V)) : bool :=
  existsb (fun kv => PyStr.eqb k (fst kv)) d.

(** [d.get(k)] *)
Fixpoint dict_lookup {V : Type} (k : pystr) (d : list (pystr * V)) : option V :=
  match d with
  | [] => None
  | (k', v) :: d' => if PyStr.eqb k k' then Some v else dict_lookup k d'
  end.

(** [d[k] = v]: an existing key keeps its place, a new key goes last. *)
Fixpoint dict_set {V : Type} (k : pystr) (v : V) (d : list (pystr * V))
  : list (pystr * V) :=
  match d with
  | [] => [(k, v)]
  | (k', v') :: d' =>
      if PyStr.eqb k k' then (k, v) :: d' else (k', v') :: dict_set k v d'
  end.

(** [del d[k]] *)
Definition dict_del {V : Type} (k : pystr) (d : list (pystr * V)) : list (pystr * V) :=
  filter (fun kv => negb (PyStr.eqb k (fst kv))) d.

(** [len(d)] *)
Definition dict_len {V : Type} (d : list (pystr * V)) : Z := Z.of_nat (List.length d).

(** ** Paths *)

Definition slash : Z := 47.
Definition dot : Z := 46.

(** The text after the last [c], or all of [s]. *)
Fixpoint after_last (c : Z) (s : pystr) : pystr :=
  match s with
  | [] => []
  | x :: s' =>
      if existsb (Z.eqb c) s' then after_last c s'
      else if x =? c then s' else s
  end.

(** [Path(file_path).name] and [os.path.basename(file_path)] for a POSIX
    path that does not end in a separator: the last component. *)
Definition path_name (file_path : pystr) : pystr := after_last slash file_path.

(** [PurePath.suffix]: the part of the name from its last dot, unless that
    dot is the first or the last character of the name. *)
Definition path_suffix (file_path : pystr) : pystr :=
  let name := path_name file_path in
  let ext := after_last dot name in
  if existsb (Z.eqb dot) name
     && negb (is_empty ext)
     && (len ext + 1 <? len name)
  then dot :: ext else [].

(** ** Sizes *)

Definition MiB : Z := 1024 * 1024.
Definition reject_limit : Z := 500 * 1024 * 1024.
Definition name_only_limit : Z := 3 * 1024 * 1024.

(** ** The engine *)

(** Calls handed to [threading.Timer]. *)
Inductive timer :=
| TimerMoveToHot (file_path content : pystr)
| TimerMoveToComplete (file_path content file_hash : pystr)
| TimerSaveCaches.

(** [cache/hot_cache.json] *)
Inductive cache_file :=
| NoFile
| Saved (hot : dict)
| Damaged.

(** A request to the shard store made by the durable promotion. *)
Record upsert_request := mkUpsert {
  u_file_path : pystr;
  u_content : pystr;
  u_base_data : entry;
  u_file_hash : pystr
}.

(** The state of [UltraFastFullCompliantSearchSystem] read and written by
    indexing, promotion and shutdown.  [extract_calls] and [upserts]
    record the calls made to the extractors and to the shard store. *)
Record engine := mkEngine {
  immediate_cache : tier;
  hot_cache : dict;
  max_immediate_cache : Z;
  max_hot_cache : Z;
  indexing_cancelled : bool;
  shutdown_requested : bool;
  indexed_files : Z;
  last_save_time : Z;
  timers : list timer;
  hot_cache_json : cache_file;
  extract_calls : list pystr;
  upserts : list upsert_request
}.

(** What a call observes of the file system, of the clock and of the
    threads: [Path.exists()], [stat().st_size], the text the extractor
    returns for the file, [time.time()] in microseconds, and how many of
    the [Timer(...).start()] calls of [live_progressive_index_file]
    succeed before one raises [RuntimeError] (2: both of them). *)
Record file_obs := mkObs {
  f_exists : bool;
  st_size : Z;
  extracted : pystr;
  now : Z;
  started : nat
}.

Section Engine.

(** [str.lower], from the Unicode tables of the runtime. *)
Variable lower : pystr -> pystr.

(** [safe_truncate_utf8] as defined inside [live_progressive_index_file]. *)
Definition safe_truncate_utf8 (text : pystr) (max_length : Z) : pystr :=
  if len text <=? max_length then text
  else
    let truncated := slice_to max_length text in
    match Router.utf8 truncated with
    | Some _ => truncated
    | None => if 1 <? max_length then slice_to (max_length - 1) text else []
    end.

(** [content.encode('utf-8', errors='ignore')] *)
Definition utf8_ignore (s : pystr) : Router.bytes :=
  flat_map (fun c => match Router.utf8_char c with Some b => b | None => [] end) s.

(** [x[1]['indexed_time']]: a [TypeError] on a list of rows. *)
Definition indexed_time_of (v : cache_value) : option Z :=
  match v with
  | FileEntry data => Some (indexed_time data)
  | SearchResults _ => None
  end.

(** The keys of the sort, computed for every item before the sort
    starts; [None]: one of them raises. *)
Fixpoint sort_keys (d : tier) : option (list (Z * (pystr * cache_value))) :=
  match d with
  | [] => Some []
  | kv :: d' =>
      match indexed_time_of (snd kv), sort_keys d' with
      | Some t, Some keyed => Some ((t, kv) :: keyed)
      | _, _ => None
      end
  end.

(** [sorted(cache.items(), key=lambda x: x[1]['indexed_time'])] *)
Definition sort_by_indexed_time (d : tier) : option tier :=
  option_map
    (fun keyed => map snd (PySort.sort_desc (fun x y => fst y <? fst x) keyed))
    (sort_keys d).

(** The batch clean-up of the immediate tier; [None]: the sort raises,
    and nothing is deleted. *)
Definition evict_immediate (max : Z) (d : tier) : option tier :=
  if max <? dict_len d then
    let cleanup_count := Z.max 1 (max / 10) in
    match sort_by_indexed_time d with
    | Some sorted_items =>
        Some (fold_left (fun acc kv => dict_del (fst kv) acc)
                        (firstn (Z.to_nat cleanup_count) sorted_items) d)
    | None => None
    end
  else Some d.

(** [min(cache.keys(), key=lambda k: cache[k]['indexed_time'])]: the first
    key with the least time. *)
Fixpoint oldest_from (best : pystr * entry) (d : dict) : pystr :=
  match d with
  | [] => fst best
  | kv :: d' =>
      if indexed_time (snd kv) <? indexed_time (snd best)
      then oldest_from kv d' else oldest_from best d'
  end.

Definition evict_hot (max : Z) (d : dict) : dict :=
  if max <? dict_len d then
    match d with
    | [] => d
    | kv :: d' => dict_del (oldest_from kv d') d
    end
  else d.

(** [live_progressive_index_file] of [file_search_app.py].  An exception
    raised after the entry has been written (by the sort of the
    clean-up, by the start of a timer) is caught by the handler of the
    method: it returns [False] and leaves what was done before. *)
Definition live_progressive_index_file
    (s : engine) (file_path : pystr) (f : file_obs) : bool * engine :=
  if indexing_cancelled s then (false, s)
  else
    let name := path_name file_path in
    if starts_with (lit "._") name then (false, s)
    else if starts_with (lit ".DS_Store") name || starts_with (lit "Thumbs.db") name
    then (false, s)
    else if negb (f_exists f) then (false, s)
    else
      let file_size := st_size f in
      if reject_limit <? file_size then (false, s)
      else
        let '(content, calls) :=
          if name_only_limit <=? file_size
          then (name, extract_calls s)
          else (extracted f, extract_calls s ++ [file_path]) in
        let s := mkEngine (immediate_cache s) (hot_cache s) (max_immediate_cache s)
                   (max_hot_cache s) (indexing_cancelled s) (shutdown_requested s)
                   (indexed_files s) (last_save_time s) (timers s)
                   (hot_cache_json s) calls (upserts s) in
        if is_empty content then (false, s)
        else
          let file_hash := Router.hexdigest (Router.md5 (utf8_ignore content)) in
          let immediate_data :=
            mkEntry (Some file_path) name (Some (safe_truncate_utf8 content 500)) None
                    (lower (path_suffix file_path)) file_size (now f)
                    (Some (lit "immediate")) None in
          let written := dict_set file_path (FileEntry immediate_data) (immediate_cache s) in
          let leave (ok : bool) (imm : tier) (indexed : Z) (ts : list timer) :=
            (ok,
             mkEngine imm (hot_cache s) (max_immediate_cache s) (max_hot_cache s)
               (indexing_cancelled s) (shutdown_requested s)
               indexed (last_save_time s) ts
               (hot_cache_json s) (extract_calls s) (upserts s)) in
          match evict_immediate (max_immediate_cache s) written with
          | None => leave false written (indexed_files s) (timers s)
          | Some imm =>
              match started f with
              | O => leave false imm (indexed_files s) (timers s)
              | S O =>
                  leave false imm (indexed_files s)
                        (timers s ++ [TimerMoveToHot file_path content])
              | _ =>
                  leave true imm (indexed_files s + 1)
                        (timers s ++ [TimerMoveToHot file_path content;
                                      TimerMoveToComplete file_path content file_hash])
              end
          end.

(** [base_data] rebuilt from the path when the entry has left the source
    tier; [f] gives [os.path.getsize] (0 for a missing file) and the
    clock. *)
Definition rebuilt_base_data (file_path : pystr) (f : file_obs) : entry :=
  mkEntry None (path_name file_path) None None (lower (path_suffix file_path))
          (if f_exists f then st_size f else 0) (now f) None None.

(** First half of [_move_to_hot_layer]: take the value out of the
    immediate tier.  [None]: the value is a list of rows, on which
    [hot_data.update] raises [AttributeError]; the handler logs it. *)
Definition take_from_immediate
    (s : engine) (file_path : pystr) (f : file_obs) : option entry * engine :=
  match dict_lookup file_path (immediate_cache s) with
  | Some base_data =>
      (match base_data with
       | FileEntry data => Some data
       | SearchResults _ => None
       end,
       mkEngine (dict_del file_path (immediate_cache s)) (hot_cache s)
         (max_immediate_cache s) (max_hot_cache s) (indexing_cancelled s)
         (shutdown_requested s) (indexed_files s) (last_save_time s) (timers s)
         (hot_cache_json s) (extract_calls s) (upserts s))
  | None => (Some (rebuilt_base_data file_path f), s)
  end.

(** Second half: build [hot_data], store it, bound the hot tier and
    schedule a background save at most every 5 s. *)
Definition put_into_hot
    (s : engine) (file_path content : pystr) (base_data : entry) (f : file_obs)
  : engine :=
  let hot_data :=
    mkEntry (Some file_path) (file_name base_data) (content_preview base_data)
            (Some (slice_to 10000 content)) (file_type base_data) (size base_data)
            (indexed_time base_data) (Some (lit "hot")) (Some (now f)) in
  let hot := dict_set file_path hot_data (hot_cache s) in
  let hot := evict_hot (max_hot_cache s) hot in
  let schedule := (5000000 <? now f - last_save_time s) && negb (shutdown_requested s) in
  mkEngine (immediate_cache s) hot (max_immediate_cache s) (max_hot_cache s)
    (indexing_cancelled s) (shutdown_requested s) (indexed_files s)
    (if schedule then now f else last_save_time s)
    (if schedule then timers s ++ [TimerSaveCaches] else timers s)
    (hot_cache_json s) (extract_calls s) (upserts s).

(** [_move_to_hot_layer] *)
Definition _move_to_hot_layer
    (s : engine) (file_path content : pystr) (f : file_obs) : engine :=
  let '(base_data, s1) := take_from_immediate s file_path f in
  match base_data with
  | Some base_data => put_into_hot s1 file_path content base_data f
  | None => s1
  end.

(** First half of [_move_to_complete_layer]: take the entry out of the
    hot tier. *)
Definition take_from_hot
    (s : engine) (file_path : pystr) (f : file_obs) : entry * engine :=
  match dict_lookup file_path (hot_cache s) with
  | Some base_data =>
      (base_data,
       mkEngine (immediate_cache s) (dict_del file_path (hot_cache s))
         (max_immediate_cache s) (max_hot_cache s) (indexing_cancelled s)
         (shutdown_requested s) (indexed_files s) (last_save_time s) (timers s)
         (hot_cache_json s) (extract_calls s) (upserts s))
  | None => (rebuilt_base_data file_path f, s)
  end.

(** Second half: the call of [_add_to_complete_layer]. *)
Definition hand_to_store
    (s : engine) (file_path content : pystr) (base_data : entry) (file_hash : pystr)
  : engine :=
  mkEngine (immediate_cache s) (hot_cache s) (max_immediate_cache s) (max_hot_cache s)
    (indexing_cancelled s) (shutdown_requested s) (indexed_files s)
    (last_save_time s) (timers s) (hot_cache_json s) (extract_calls s)
    (upserts s ++ [mkUpsert file_path content base_data file_hash]).

(** [_move_to_complete_layer] *)
Definition _move_to_complete_layer
    (s : engine) (file_path content file_hash : pystr) (f : file_obs) : engine :=
  let '(base_data, s1) := take_from_hot s file_path f in
  hand_to_store s1 file_path content base_data file_hash.

(** Index and promotion operations, with what each observes. *)
Inductive op :=
| Index (file_path : pystr) (f : file_obs)
| MoveToHot (file_path content : pystr) (f : file_obs)
| MoveToComplete (file_path content file_hash : pystr) (f : file_obs).

Definition step (s : engine) (o : op) : engine :=
  match o with
  | Index p f => snd (live_progressive_index_file s p f)
  | MoveToHot p c f => _move_to_hot_layer s p c f
  | MoveToComplete p c h f => _move_to_complete_layer s p c h f
  end.

Definition run (s : engine) (ops : list op) : engine := fold_left step ops s.

(** ** Shutdown *)

(** Outcome of writing [hot_cache.json]. *)
Inductive io := IoOk | IoError.

(** [_save_caches_sync] *)
Definition _save_caches_sync (s : engine) (w : io) : engine :=
  match hot_cache s with
  | [] => s
  | _ =>
      mkEngine (immediate_cache s) (hot_cache s) (max_immediate_cache s)
        (max_hot_cache s) (indexing_cancelled s) (shutdown_requested s)
        (indexed_files s) (last_save_time s) (timers s)
        (match w with IoOk => Saved (hot_cache s) | IoError => Damaged end)
        (extract_calls s) (upserts s)
  end.

(** [shutdown] of [file_search_app.py]: raise the flag, then save
    synchronously. *)
Definition shutdown (s : engine) (w : io) : engine :=
  let s := mkEngine (immediate_cache s) (hot_cache s) (max_immediate_cache s)
             (max_hot_cache s) (indexing_cancelled s) true
             (indexed_files s) (last_save_time s) (timers s)
             (hot_cache_json s) (extract_calls s) (upserts s) in
  _save_caches_sync s w.

End Engine.

(** ** Facts about dicts *)

Lemma dict_has_del_same {V : Type} (k : pystr) (d : list (pystr * V)) :
  dict_has k (dict_del k d) = false.
Proof.
  unfold dict_has, dict_del. induction d as [|[k' v] d IH]; simpl; [reflexivity|].
  destruct (PyStr.eqb k k') eqn:E; simpl; [assumption|].
  now rewrite E.
Qed.

Lemma dict_has_del {V : Type} (k k' : pystr) (d : list (pystr * V)) :
  dict_has k (dict_del k' d) = true -> dict_has k d = true.
Proof.
  unfold dict_has, dict_del. rewrite !existsb_exists.
  intros [kv [Hin H]]. apply filter_In in Hin as [Hin _]. eauto.
Qed.

Lemma dict_has_del_other {V : Type} (k k' : pystr) (d : list (pystr * V)) :
  k <> k' -> dict_has k (dict_del k' d) = dict_has k d.
Proof.
  intros Hne. unfold dict_has, dict_del.
  induction d as [|[k2 v] d IH]; simpl; [reflexivity|].
  destruct (PyStr.eqb k' k2) eqn:E; simpl.
  - apply PyStr.eqb_eq in E. subst k2.
    apply PyStr.eqb_neq in Hne. now rewrite Hne.
  - now rewrite IH.
Qed.

Lemma dict_has_set {V : Type} (k k' : pystr) (v : V) (d : list (pystr * V)) :
  dict_has k (dict_set k' v d) = PyStr.eqb k k' || dict_has k d.
Proof.
  unfold dict_has. induction d as [|[k2 v2] d IH]; simpl.
  - now rewrite orb_false_r.
  - destruct (PyStr.eqb k' k2) eqn:E; simpl.
    + apply PyStr.eqb_eq in E. subst k2.
      destruct (PyStr.eqb k k'); reflexivity.
    + rewrite IH. destruct (PyStr.eqb k k'), (PyStr.eqb k k2); reflexivity.
Qed.

Lemma dict_has_del_many {V : Type} (k : pystr) (ks d : list (pystr * V)) :
  dict_has k (fold_left (fun acc kv => dict_del (fst kv) acc) ks d) = true ->
  dict_has k d = true.
Proof.
  revert d. induction ks as [|kv ks IH]; simpl; intros d H; [assumption|].
  apply IH in H. now apply dict_has_del in H.
Qed.

Lemma dict_lookup_has {V : Type} (k : pystr) (d : list (pystr * V)) :
  dict_has k d = true <-> exists v, dict_lookup k d = Some v.
Proof.
  unfold dict_has. induction d as [|[k' v] d IH]; simpl.
  - split; [discriminate | intros [v H]; discriminate].
  - destruct (PyStr.eqb k k'); simpl; [split; eauto | exact IH].
Qed.

Section EngineFacts.

Variable lower : pystr -> pystr.

Lemma evict_immediate_has (k : pystr) (max : Z) (d d' : tier) :
  evict_immediate max d = Some d' -> dict_has k d' = true -> dict_has k d = true.
Proof.
  unfold evict_immediate. destruct (max <? dict_len d); [|now intros [= <-]].
  destruct (sort_by_indexed_time d); [|discriminate].
  intros [= <-]. apply dict_has_del_many.
Qed.

Lemma evict_hot_has (k : pystr) (max : Z) (d : dict) :
  dict_has k (evict_hot max d) = true -> dict_has k d = true.
Proof.
  unfold evict_hot. destruct (max <? dict_len d); [|trivial].
  destruct d as [|kv d]; [trivial|]. apply dict_has_del.
Qed.

(** ** What a call of [live_progressive_index_file] does *)

(** The entry written by an index of [file_path] with the given
    content. *)
Definition indexed_entry (file_path content : pystr) (f : file_obs) : entry :=
  mkEntry (Some file_path) (path_name file_path)
          (Some (safe_truncate_utf8 content 500)) None
          (lower (path_suffix file_path)) (st_size f) (now f)
          (Some (lit "immediate")) None.

(** The call leaves everything but the immediate tier, the timers, the
    counter and the record of extractor calls as it was.  Either it
    returns [False] before it has written anything, or it writes the
    entry of the file; then the clean-up raises and the call returns
    [False] with the entry written, or the clean-up is done and the
    call returns [False] when a timer does not start and [True] when
    both do. *)
Lemma index_outcome (s : engine) (p : pystr) (f : file_obs) :
  let r := live_progressive_index_file lower s p f in
  max_immediate_cache (snd r) = max_immediate_cache s /\
  max_hot_cache (snd r) = max_hot_cache s /\
  hot_cache (snd r) = hot_cache s /\
  shutdown_requested (snd r) = shutdown_requested s /\
  hot_cache_json (snd r) = hot_cache_json s /\
  upserts (snd r) = upserts s /\
  ((fst r = false /\
    immediate_cache (snd r) = immediate_cache s /\
    timers (snd r) = timers s /\
    indexed_files (snd r) = indexed_files s) \/
   exists content file_hash,
     content <> [] /\
     (content = path_name p /\ name_only_limit <= st_size f \/
      content = extracted f /\ st_size f < name_only_limit) /\
     let written :=
       dict_set p (FileEntry (indexed_entry p content f)) (immediate_cache s) in
     match evict_immediate (max_immediate_cache s) written with
     | None =>
         fst r = false /\ immediate_cache (snd r) = written /\
         timers (snd r) = timers s /\ indexed_files (snd r) = indexed_files s
     | Some imm =>
         immediate_cache (snd r) = imm /\
         match started f with
         | O =>
             fst r = false /\ timers (snd r) = timers s /\
             indexed_files (snd r) = indexed_files s
         | S O =>
             fst r = false /\
             timers (snd r) = timers s ++ [TimerMoveToHot p content] /\
             indexed_files (snd r) = indexed_files s
         | _ =>
             fst r = true /\
             timers (snd r) = timers s ++ [TimerMoveToHot p content;
                                           TimerMoveToComplete p content file_hash] /\
             indexed_files (snd r) = indexed_files s + 1
         end
     end).
Proof.
  unfold live_progressive_index_file.
  destruct (indexing_cancelled s); [cbn; repeat split; auto|].
  destruct (starts_with (lit "._") (path_name p)); [cbn; repeat split; auto|].
  destruct (starts_with (lit ".DS_Store") (path_name p)
            || starts_with (lit "Thumbs.db") (path_name p)); [cbn; repeat split; auto|].
  destruct (negb (f_exists f)); [cbn; repeat split; auto|].
  destruct (reject_limit <? st_size f); [cbn; repeat split; auto|].
  destruct (name_only_limit <=? st_size f) eqn:E.
  - apply Z.leb_le in E.
    cbn [extract_calls immediate_cache hot_cache max_immediate_cache max_hot_cache
         timers indexed_files shutdown_requested hot_cache_json upserts].
    destruct (path_name p) as [|c n] eqn:En; [cbn; repeat split; auto|].
    cbn [is_empty]. fold (indexed_entry p (c :: n) f).
    assert (Ee : mkEntry (Some p) (c :: n) (Some (safe_truncate_utf8 (c :: n) 500)) None
                   (lower (path_suffix p)) (st_size f) (now f) (Some (lit "immediate")) None
                 = indexed_entry p (c :: n) f)
      by (unfold indexed_entry; now rewrite En).
    rewrite Ee.
    destruct (evict_immediate (max_immediate_cache s)
                (dict_set p (FileEntry (indexed_entry p (c :: n) f)) (immediate_cache s)))
      as [imm|] eqn:Ev;
      [destruct (started f) as [|[|k]]|];
      cbn [fst snd immediate_cache hot_cache max_immediate_cache max_hot_cache
           timers indexed_files shutdown_requested hot_cache_json upserts];
      (do 6 (split; [reflexivity|])); right;
      exists (c :: n), (Router.hexdigest (Router.md5 (utf8_ignore (c :: n))));
      (split; [discriminate|]); (split; [left; split; [reflexivity | lia]|]);
      cbv zeta; rewrite Ev; cbn [fst snd immediate_cache timers indexed_files];
      repeat split.
  - apply Z.leb_gt in E.
    cbn [extract_calls immediate_cache hot_cache max_immediate_cache max_hot_cache
         timers indexed_files shutdown_requested hot_cache_json upserts].
    destruct (extracted f) as [|c n] eqn:En; [cbn; repeat split; auto|].
    cbn [is_empty]. fold (indexed_entry p (c :: n) f).
    destruct (evict_immediate (max_immediate_cache s)
                (dict_set p (FileEntry (indexed_entry p (c :: n) f)) (immediate_cache s)))
      as [imm|] eqn:Ev;
      [destruct (started f) as [|[|k]]|];
      cbn [fst snd immediate_cache hot_cache max_immediate_cache max_hot_cache
           timers indexed_files shutdown_requested hot_cache_json upserts];
      (do 6 (split; [reflexivity|])); right;
      exists (c :: n), (Router.hexdigest (Router.md5 (utf8_ignore (c :: n))));
      (split; [discriminate|]); (split; [right; split; [reflexivity | lia]|]);
      cbv zeta; rewrite Ev; cbn [fst snd immediate_cache timers indexed_files];
      repeat split.
Qed.

(** ** Tier membership *)

Definition in_immediate (s : engine) (p : pystr) : Prop :=
  dict_has p (immediate_cache s) = true.

Definition in_hot (s : engine) (p : pystr) : Prop :=
  dict_has p (hot_cache s) = true.

(** [p] is in at most one of the two cache tiers. *)
Definition exclusive (s : engine) (p : pystr) : Prop :=
  ~ (in_immediate s p /\ in_hot s p).

(** Indexing touches the immediate tier only, and adds at most its own
    path to it. *)
Lemma index_tiers (s : engine) (q : pystr) (f : file_obs) (p : pystr) :
  let s' := snd (live_progressive_index_file lower s q f) in
  hot_cache s' = hot_cache s /\
  (in_immediate s' p -> p = q \/ in_immediate s p).
Proof.
  pose proof (index_outcome s q f) as [_ [_ [Hh [_ [_ [_ Hc]]]]]].
  cbv zeta in *. split; [assumption|]. unfold in_immediate.
  destruct Hc as [[_ [-> _]] | [content [file_hash [_ [_ Hm]]]]]; [auto|].
  assert (Hw : dict_has p (dict_set q (FileEntry (indexed_entry q content f))
                             (immediate_cache s)) = true ->
               q = p \/ dict_has p (immediate_cache s) = true).
  { rewrite dict_has_set. intros H. apply orb_true_iff in H as [H | H]; [|auto].
    apply PyStr.eqb_eq in H. auto. }
  destruct (evict_immediate (max_immediate_cache s)
              (dict_set q (FileEntry (indexed_entry q content f)) (immediate_cache s)))
    as [imm|] eqn:Ev.
  - destruct Hm as [-> _]. intros H. apply (evict_immediate_has _ _ _ _ Ev) in H.
    destruct (Hw H); auto.
  - destruct Hm as [_ [-> _]]. intros H. destruct (Hw H); auto.
Qed.

Lemma dict_del_absent {V : Type} (k : pystr) (d : list (pystr * V)) :
  dict_has k d = false -> dict_del k d = d.
Proof.
  unfold dict_has, dict_del. induction d as [|[k' v] d IH]; simpl; [reflexivity|].
  intros H. apply orb_false_iff in H as [H1 H2]. rewrite H1. simpl.
  f_equal. now apply IH.
Qed.

Lemma dict_lookup_none {V : Type} (k : pystr) (d : list (pystr * V)) :
  dict_lookup k d = None -> dict_has k d = false.
Proof.
  intros H. destruct (dict_has k d) eqn:E; [|reflexivity].
  apply dict_lookup_has in E as [v Hv]. congruence.
Qed.

(** The promotion to the hot tier deletes from the immediate tier first
    and inserts into the hot tier afterwards; when the value taken out
    is a list of rows, nothing is inserted. *)
Lemma move_to_hot_phases (s : engine) (p c : pystr) (f : file_obs) :
  let s1 := snd (take_from_immediate lower s p f) in
  let base_data := fst (take_from_immediate lower s p f) in
  dict_has p (immediate_cache s1) = false /\
  hot_cache s1 = hot_cache s /\
  immediate_cache s1 = dict_del p (immediate_cache s) /\
  _move_to_hot_layer lower s p c f =
    match base_data with
    | Some base_data => put_into_hot s1 p c base_data f
    | None => s1
    end /\
  immediate_cache (_move_to_hot_layer lower s p c f) = immediate_cache s1.
Proof.
  unfold _move_to_hot_layer, take_from_immediate.
  destruct (dict_lookup p (immediate_cache s)) as [[b|rows]|] eqn:E;
    cbn [fst snd immediate_cache hot_cache put_into_hot].
  - repeat split. apply dict_has_del_same.
  - repeat split. apply dict_has_del_same.
  - apply dict_lookup_none in E. repeat split; [assumption|].
    symmetry. now apply dict_del_absent.
Qed.

Lemma move_to_hot_tiers (s : engine) (q c : pystr) (f : file_obs) (p : pystr) :
  let s' := _move_to_hot_layer lower s q c f in
  immediate_cache s' = dict_del q (immediate_cache s) /\
  (in_hot s' p -> p = q \/ in_hot s p).
Proof.
  pose proof (move_to_hot_phases s q c f) as [_ [Hh [Hi [Hm Hp]]]].
  cbv zeta. split; [congruence|]. rewrite Hm.
  destruct (fst (take_from_immediate lower s q f)) as [b|].
  - unfold in_hot, put_into_hot. cbn [hot_cache]. rewrite Hh.
    intros H. apply evict_hot_has in H. rewrite dict_has_set in H.
    apply orb_true_iff in H as [H | H]; [|auto].
    apply PyStr.eqb_eq in H. auto.
  - unfold in_hot. rewrite Hh. auto.
Qed.

(** The promotion to the shard store deletes from the hot tier first and
    calls the store afterwards. *)
Lemma move_to_complete_phases (s : engine) (p c h : pystr) (f : file_obs) :
  let s1 := snd (take_from_hot lower s p f) in
  let base_data := fst (take_from_hot lower s p f) in
  dict_has p (hot_cache s1) = false /\
  hot_cache s1 = dict_del p (hot_cache s) /\
  immediate_cache s1 = immediate_cache s /\
  upserts s1 = upserts s /\
  _move_to_complete_layer lower s p c h f = hand_to_store s1 p c base_data h /\
  hot_cache (hand_to_store s1 p c base_data h) = hot_cache s1.
Proof.
  unfold _move_to_complete_layer, take_from_hot.
  destruct (dict_lookup p (hot_cache s)) as [b|] eqn:E;
    cbn [fst snd immediate_cache hot_cache upserts].
  - repeat split. apply dict_has_del_same.
  - apply dict_lookup_none in E. repeat split; [assumption|].
    symmetry. now apply dict_del_absent.
Qed.

Lemma move_to_complete_tiers (s : engine) (q c h : pystr) (f : file_obs) :
  let s' := _move_to_complete_layer lower s q c h f in
  immediate_cache s' = immediate_cache s /\
  hot_cache s' = dict_del q (hot_cache s).
Proof.
  pose proof (move_to_complete_phases s q c h f) as [_ [Hh [Hi [_ [Hm Hp]]]]].
  cbv zeta. rewrite Hm. split; [exact Hi | congruence].
Qed.

(** An operation re-indexes [p] when it is an [Index] of [p]. *)
Definition indexes (o : op) (p : pystr) : Prop :=
  exists f, o = Index p f.

Lemma step_exclusive (s : engine) (o : op) (p : pystr) :
  (indexes o p -> ~ in_hot s p) ->
  exclusive s p -> exclusive (step lower s o) p.
Proof.
  intros Hre Hex [Hi Hh]. destruct o as [q f | q c f | q c h f]; cbn [step] in *.
  - destruct (index_tiers s q f p) as [E1 E2].
    unfold in_hot in Hh. rewrite E1 in Hh.
    destruct (E2 Hi) as [-> | Hi'].
    + apply Hre; [now exists f | assumption].
    + apply Hex. split; assumption.
  - destruct (move_to_hot_tiers s q c f p) as [E1 E2].
    unfold in_immediate in Hi. rewrite E1 in Hi.
    destruct (E2 Hh) as [-> | Hh'].
    + now rewrite dict_has_del_same in Hi.
    + apply dict_has_del in Hi. apply Hex. split; assumption.
  - destruct (move_to_complete_tiers s q c h f) as [E1 E2].
    unfold in_immediate in Hi. unfold in_hot in Hh. rewrite E1 in Hi. rewrite E2 in Hh.
    apply dict_has_del in Hh. apply Hex. split; assumption.
Qed.

(** Along a run, [p] is never indexed while it sits in the hot tier. *)
Fixpoint no_hot_reindex (s : engine) (ops : list op) (p : pystr) : Prop :=
  match ops with
  | [] => True
  | o :: ops' =>
      (indexes o p -> ~ in_hot s p) /\ no_hot_reindex (step lower s o) ops' p
  end.

Lemma run_exclusive (s : engine) (ops : list op) (p : pystr) :
  exclusive s p -> no_hot_reindex s ops p -> exclusive (run lower s ops) p.
Proof.
  revert s. induction ops as [|o ops IH]; intros s Hex Hno; [exact Hex|].
  destruct Hno as [H1 H2]. cbn [run fold_left].
  apply IH; [|exact H2]. now apply step_exclusive.
Qed.

(** [C3] Tier exclusivity.  Every promotion deletes the path from its
    source tier before it inserts it into the destination: the move to the
    hot tier first takes the path out of the immediate tier, leaving the
    hot tier as it was, and then writes the hot tier only (and nothing at
    all when what it took out is a cached list of rows); the move to the
    shard store first takes the path out of the hot tier and then calls
    the store.  Along every sequence of index and promotion operations in
    which [p] is not indexed while it sits in the hot tier, [p] is in at
    most one of the two cache tiers, whether or not an index fails after
    its write. *)
Theorem tier_exclusive_unless_reindexed (s : engine) (ops : list op) (p : pystr) :
  exclusive s p ->
  no_hot_reindex s ops p ->
  exclusive (run lower s ops) p /\
  (forall s q c f,
     let s1 := snd (take_from_immediate lower s q f) in
     let base_data := fst (take_from_immediate lower s q f) in
     ~ in_immediate s1 q /\ hot_cache s1 = hot_cache s /\
     _move_to_hot_layer lower s q c f =
       match base_data with
       | Some base_data => put_into_hot s1 q c base_data f
       | None => s1
       end /\
     immediate_cache (_move_to_hot_layer lower s q c f) = immediate_cache s1) /\
  (forall s q c h f,
     let s1 := snd (take_from_hot lower s q f) in
     let base_data := fst (take_from_hot lower s q f) in
     ~ in_hot s1 q /\ upserts s1 = upserts s /\
     _move_to_complete_layer lower s q c h f = hand_to_store s1 q c base_data h /\
     hot_cache (_move_to_complete_layer lower s q c h f) = hot_cache s1).
Proof.
  intros Hex Hno. split; [now apply run_exclusive|]. split.
  - intros s0 q c f.
    pose proof (move_to_hot_phases s0 q c f) as [H1 [H2 [H3 [H4 H5]]]].
    cbv zeta. unfold in_immediate. rewrite H1.
    split; [discriminate|]. split; [assumption|]. split; assumption.
  - intros s0 q c h f.
    pose proof (move_to_complete_phases s0 q c h f) as [H1 [H2 [H3 [H4 [H5 H6]]]]].
    cbv zeta. unfold in_hot. rewrite H1. repeat split; try assumption.
    + discriminate.
    + now rewrite H5.
Qed.

End EngineFacts.

(** ** A run of the engine *)

(** The engine as [__init__] leaves it. *)
Definition engine0 : engine :=
  mkEngine [] [] 150000 1500000 false false 0 0 [] NoFile [] [].

Definition a_txt : pystr := lit "/docs/a.txt".

(** A small file whose timers both start. *)
Definition small_file (t : Z) : file_obs := mkObs true 11 (lit "hello world") t 2.

(** Index [a.txt], let the 1 s timer move it to the hot tier, index it
    again before the 5 s timer fires. *)
Definition reindex_run : list op :=
  [Index a_txt (small_file 0);
   MoveToHot a_txt (lit "hello world") (small_file 1000000);
   Index a_txt (small_file 2000000)].

(** With room for two entries, a third one evicts the oldest: the batch
    clean-up removes [max(1, 2 // 10) = 1] entry. *)
Example immediate_tier_evicts_oldest :
  let small := mkEngine [] [] 2 2 false false 0 0 [] NoFile [] [] in
  let s := run Text.sample_lower small
             [Index (lit "/d/a.txt") (small_file 10);
              Index (lit "/d/b.txt") (small_file 20);
              Index (lit "/d/a.txt") (small_file 30);
              Index (lit "/d/c.txt") (small_file 40)] in
  map fst (immediate_cache s) = [lit "/d/a.txt"; lit "/d/c.txt"] /\
  indexed_files s = 4.
Proof. vm_compute. split; reflexivity. Qed.

(** The same run with the rows of a search cached in the tier: the sort
    of the clean-up raises, the third file stays in the tier with the
    others, no timer is set for it and the call returns [False]. *)
Example cached_rows_stop_eviction :
  let small := mkEngine [(lit "report", SearchResults [])] [] 2 2 false false
                 0 0 [] NoFile [] [] in
  let r := live_progressive_index_file Text.sample_lower
             (run Text.sample_lower small [Index (lit "/d/a.txt") (small_file 10)])
             (lit "/d/b.txt") (small_file 20) in
  fst r = false /\
  map fst (immediate_cache (snd r)) = [lit "report"; lit "/d/a.txt"; lit "/d/b.txt"] /\
  List.length (timers (snd r)) = 2%nat /\
  indexed_files (snd r) = 1.
Proof. vm_compute. repeat split. Qed.

(** The hot tier drops the entry with the least [indexed_time]. *)
Example hot_tier_evicts_oldest :
  let small := mkEngine [] [] 5 1 false false 0 0 [] NoFile [] [] in
  let s := run Text.sample_lower small
             [Index (lit "/d/a.txt") (small_file 10);
              Index (lit "/d/b.txt") (small_file 20);
              MoveToHot (lit "/d/b.txt") (lit "hello world") (small_file 1000020);
              MoveToHot (lit "/d/a.txt") (lit "hello world") (small_file 1000030)] in
  map fst (hot_cache s) = [lit "/d/b.txt"] /\ immediate_cache s = [].
Proof. vm_compute. split; reflexivity. Qed.

(** Re-indexing a path that sits in the hot tier leaves it in both
    tiers. *)
Lemma reindexed_hot_path_in_both_tiers :
  let s := run Text.sample_lower engine0 reindex_run in
  dict_has a_txt (immediate_cache s) = true /\
  dict_has a_txt (hot_cache s) = true.
Proof. vm_compute. split; reflexivity. Qed.

(** Index, promote to hot, promote to the store: never in two tiers. *)
Lemma tier_exclusive_unless_reindexed_witness :
  exclusive
    (run Text.sample_lower engine0
       [Index a_txt (small_file 0);
        MoveToHot a_txt (lit "hello world") (small_file 1000000);
        MoveToComplete a_txt (lit "hello world") (lit "h") (small_file 5000000)])
    a_txt.
Proof.
  refine (proj1 (tier_exclusive_unless_reindexed Text.sample_lower engine0 _ a_txt _ _)).
  - intros [H _]. vm_compute in H. discriminate.
  - cbn [no_hot_reindex]. repeat split.
    + intros _ H. vm_compute in H. discriminate.
    + intros [f E]. discriminate.
    + intros [f E]. discriminate.
Defined.

(** ** Size classes of [live_progressive_index_file] *)

Section IndexFacts.

Variable lower : pystr -> pystr.

(** Names that are not skipped as hidden or system files. *)
Definition indexable_name (name : pystr) : Prop :=
  starts_with (lit "._") name = false /\
  starts_with (lit ".DS_Store") name = false /\
  starts_with (lit "Thumbs.db") name = false.

(** The entry written for a name-only file. *)
Definition name_only_entry (file_path : pystr) (f : file_obs) : entry :=
  mkEntry (Some file_path) (path_name file_path)
          (Some (safe_truncate_utf8 (path_name file_path) 500)) None
          (lower (path_suffix file_path)) (st_size f) (now f)
          (Some (lit "immediate")) None.

(** A tier that holds file entries only. *)
Definition files_only (d : tier) : Prop :=
  Forall (fun kv => exists data, snd kv = FileEntry data) d.

(** The clean-up raises only on a cached list of rows, and only when the
    tier is over its limit. *)
Lemma evict_immediate_files (max : Z) (d : tier) :
  files_only d -> evict_immediate max d <> None.
Proof.
  intros H. unfold evict_immediate. destruct (max <? dict_len d); [|discriminate].
  assert (Hk : exists keyed, sort_keys d = Some keyed).
  { induction H as [|[k v] d [data Hv] _ [keyed IH]]; cbn [sort_keys]; [eauto|].
    cbn [snd] in *. subst v. cbn [indexed_time_of]. rewrite IH. eauto. }
  destruct Hk as [keyed Hk]. unfold sort_by_indexed_time. rewrite Hk. discriminate.
Qed.

Lemma evict_immediate_room (max : Z) (d : tier) :
  dict_len d <= max -> evict_immediate max d = Some d.
Proof.
  intros H. unfold evict_immediate.
  now replace (max <? dict_len d) with false by (symmetry; apply Z.ltb_ge; lia).
Qed.

(** Files above 500 MiB are rejected: the call fails and changes nothing. *)
Lemma index_rejects_above_limit (s : engine) (p : pystr) (f : file_obs) :
  reject_limit < st_size f ->
  live_progressive_index_file lower s p f = (false, s).
Proof.
  intros H. unfold live_progressive_index_file.
  destruct (indexing_cancelled s); [reflexivity|].
  destruct (starts_with (lit "._") (path_name p)); [reflexivity|].
  destruct (starts_with (lit ".DS_Store") (path_name p) || starts_with (lit "Thumbs.db") (path_name p));
    [reflexivity|].
  destruct (negb (f_exists f)); [reflexivity|].
  apply Z.ltb_lt in H. now rewrite H.
Qed.

(** From 3 MiB up to and including 500 MiB the extractor is not called and
    the content is the base name (when the clean-up does not raise and
    both timers start). *)
Lemma index_name_only (s : engine) (p : pystr) (f : file_obs) :
  indexing_cancelled s = false ->
  indexable_name (path_name p) ->
  f_exists f = true ->
  name_only_limit <= st_size f <= reject_limit ->
  path_name p <> [] ->
  evict_immediate (max_immediate_cache s)
    (dict_set p (FileEntry (name_only_entry p f)) (immediate_cache s)) <> None ->
  (2 <= started f)%nat ->
  let r := live_progressive_index_file lower s p f in
  fst r = true /\
  extract_calls (snd r) = extract_calls s /\
  evict_immediate (max_immediate_cache s)
    (dict_set p (FileEntry (name_only_entry p f)) (immediate_cache s))
    = Some (immediate_cache (snd r)) /\
  hot_cache (snd r) = hot_cache s /\
  indexed_files (snd r) = indexed_files s + 1 /\
  exists file_hash,
    timers (snd r) =
    timers s ++ [TimerMoveToHot p (path_name p);
                 TimerMoveToComplete p (path_name p) file_hash].
Proof.
  intros Hc [H1 [H2 H3]] He [Hlo Hhi] Hn Hev Hst.
  unfold live_progressive_index_file. rewrite Hc, H1, H2, H3, He. cbn [orb negb].
  replace (reject_limit <? st_size f) with false by (symmetry; apply Z.ltb_ge; lia).
  replace (name_only_limit <=? st_size f) with true by (symmetry; apply Z.leb_le; lia).
  cbn [extract_calls immediate_cache hot_cache max_immediate_cache timers indexed_files].
  unfold name_only_entry in *.
  destruct (path_name p) as [|c n] eqn:E; [congruence|].
  cbn [is_empty].
  destruct (evict_immediate _ _) as [imm|]; [|congruence].
  destruct (started f) as [|[|k]]; [lia | lia |].
  cbn [fst snd extract_calls immediate_cache hot_cache timers indexed_files].
  repeat split. eauto.
Qed.

(** [C6] Size limits of indexing.  A file of exactly 500 MiB
    (524,288,000 bytes) is not rejected: for a visible, existing file with
    a non-empty name, indexing succeeds (when no exception is raised
    after the write: the clean-up does not raise and both timers start),
    skips the extractor and stores the base name as content in the
    immediate tier.  (Above 500 MiB the file is rejected,
    [index_rejects_above_limit]; from 3 MiB on the content is the base
    name, [index_name_only].) *)
Theorem index_accepts_file_of_500MiB (s : engine) (p : pystr) (f : file_obs) :
  indexing_cancelled s = false ->
  indexable_name (path_name p) ->
  f_exists f = true ->
  path_name p <> [] ->
  st_size f = 500 * MiB ->
  evict_immediate (max_immediate_cache s)
    (dict_set p (FileEntry (name_only_entry p f)) (immediate_cache s)) <> None ->
  (2 <= started f)%nat ->
  let r := live_progressive_index_file lower s p f in
  fst r = true /\
  extract_calls (snd r) = extract_calls s /\
  evict_immediate (max_immediate_cache s)
    (dict_set p (FileEntry (name_only_entry p f)) (immediate_cache s))
    = Some (immediate_cache (snd r)) /\
  In (TimerMoveToHot p (path_name p)) (timers (snd r)).
Proof.
  intros Hc Hv He Hn Hsz Hev Hst.
  destruct (index_name_only s p f Hc Hv He) as [R1 [R2 [R3 [_ [_ [h R4]]]]]];
    [rewrite Hsz; unfold name_only_limit, reject_limit, MiB; lia
    | assumption | assumption | assumption |].
  cbv zeta. repeat split; try assumption.
  rewrite R4. apply in_or_app. right. now left.
Qed.

(** ** Shutdown of [file_search_app.py] *)

(** The synchronous save writes the whole hot tier. *)
Lemma shutdown_saves_hot_tier (s : engine) :
  hot_cache s <> [] ->
  hot_cache_json (shutdown s IoOk) = Saved (hot_cache s) /\
  hot_cache (shutdown s IoOk) = hot_cache s /\
  shutdown_requested (shutdown s IoOk) = true.
Proof.
  intros H. unfold shutdown, _save_caches_sync. cbn [hot_cache].
  destruct (hot_cache s) as [|kv d] eqn:E; [congruence|].
  cbn [hot_cache_json hot_cache shutdown_requested]. auto.
Qed.

(** With an empty hot tier nothing is written. *)
Lemma shutdown_empty_hot_tier (s : engine) (w : io) :
  hot_cache s = [] -> hot_cache_json (shutdown s w) = hot_cache_json s.
Proof.
  intros H. unfold shutdown, _save_caches_sync. cbn [hot_cache]. now rewrite H.
Qed.

End IndexFacts.

Definition big_pdf : pystr := lit "/docs/report.pdf".

(** A file of exactly 500 MiB, whose extractor would return [body]. *)
Definition file_of_500MiB : file_obs := mkObs true 524288000 (lit "body") 0 2.

Lemma index_accepts_file_of_500MiB_witness :
  let r := live_progressive_index_file Text.sample_lower engine0 big_pdf file_of_500MiB in
  fst r = true /\
  extract_calls (snd r) = extract_calls engine0 /\
  evict_immediate (max_immediate_cache engine0)
    (dict_set big_pdf (FileEntry (name_only_entry Text.sample_lower big_pdf file_of_500MiB))
              (immediate_cache engine0))
    = Some (immediate_cache (snd r)) /\
  In (TimerMoveToHot big_pdf (path_name big_pdf)) (timers (snd r)).
Proof.
  apply (index_accepts_file_of_500MiB Text.sample_lower engine0 big_pdf file_of_500MiB).
  - reflexivity.
  - repeat split.
  - reflexivity.
  - discriminate.
  - reflexivity.
  - vm_compute. discriminate.
  - vm_compute. lia.
Defined.

(** The same call on the initial engine, evaluated: the path is in the
    immediate tier with its name as preview. *)
Example index_500MiB_stored :
  let r := live_progressive_index_file Text.sample_lower engine0 big_pdf file_of_500MiB in
  fst r = true /\
  match dict_lookup big_pdf (immediate_cache (snd r)) with
  | Some (FileEntry data) => content_preview data = Some (lit "report.pdf")
  | _ => False
  end.
Proof. vm_compute. split; reflexivity. Qed.

(** One byte more and the file is rejected. *)
Example index_500MiB_plus_one :
  live_progressive_index_file Text.sample_lower engine0 big_pdf
    (mkObs true 524288001 (lit "body") 0 2) = (false, engine0).
Proof. vm_compute. reflexivity. Qed.

End Cache.
(* ================================================================== *)
(** * [CacheManager] of [modules/search/cache_manager.py] *)
(* ================================================================== *)

Module CacheManager.

Import Cache.

(** The [file_data] dict handed to [add_to_immediate_cache]. *)
Record file_data := mkFileData {
  fd_file_name : pystr;
  fd_file_type : pystr;
  fd_size : Z
}.

Record manager := mkManager {
  cm_immediate_cache : tier;
  cm_hot_cache : dict;
  cm_max_immediate_cache : Z;
  cm_max_hot_cache : Z;
  cm_move_timers : list timer;
  cm_shutdown_requested : bool;
  cm_hot_cache_json : cache_file
}.

(** The retry loop of [_safe_truncate_utf8]: [text[:max_length - i]] for
    [i = 1 .. min(4, max_length)]. *)
Fixpoint shorter_prefix (text : pystr) (max_length : Z) (i : Z) (fuel : nat) : pystr :=
  match fuel with
  | O => []
  | S fuel' =>
      let safe_text := slice_to (max_length - i) text in
      match Router.utf8 safe_text with
      | Some _ => safe_text
      | None => shorter_prefix text max_length (i + 1) fuel'
      end
  end.

Definition _safe_truncate_utf8 (text : pystr) (max_length : Z) : pystr :=
  if is_empty text || (len text <=? max_length) then text
  else
    let truncated := slice_to max_length text in
    match Router.utf8 truncated with
    | Some _ => truncated
    | None => shorter_prefix text max_length 1 (Z.to_nat (Z.min 4 max_length))
    end.

Section Manager.

Variable lower : pystr -> pystr.

(** [add_to_immediate_cache]; [t] is [time.time()], [timer_started]
    tells whether [timer.start()] succeeds.  The method catches every
    exception: when the sort of the clean-up raises (a cached list of rows
    in the tier) the entry stays written, nothing is evicted and no timer
    is set; when the timer does not start it is not recorded. *)
Definition add_to_immediate_cache
    (m : manager) (file_path content : pystr) (fd : file_data) (t : Z)
    (timer_started : bool) : manager :=
  let immediate_data :=
    mkEntry (Some file_path) (fd_file_name fd)
            (Some (_safe_truncate_utf8 content 500)) None
            (fd_file_type fd) (fd_size fd) t (Some (lit "immediate")) None in
  let written := dict_set file_path (FileEntry immediate_data) (cm_immediate_cache m) in
  let leave (imm : tier) (ts : list timer) :=
    mkManager imm (cm_hot_cache m) (cm_max_immediate_cache m) (cm_max_hot_cache m)
      ts (cm_shutdown_requested m) (cm_hot_cache_json m) in
  match evict_immediate (cm_max_immediate_cache m) written with
  | None => leave written (cm_move_timers m)
  | Some imm =>
      if timer_started
      then leave imm (cm_move_timers m ++ [TimerMoveToHot file_path content])
      else leave imm (cm_move_timers m)
  end.

(** [_move_to_hot_layer].  A list of rows popped from the immediate
    tier has [copy] but no [update]: the method ends in its handler with
    the key deleted and the hot tier as it was. *)
Definition _move_to_hot_layer
    (m : manager) (file_path content : pystr) (f : file_obs) : manager :=
  if cm_shutdown_requested m then m
  else
    let popped := dict_lookup file_path (cm_immediate_cache m) in
    let imm := dict_del file_path (cm_immediate_cache m) in
    let base_data :=
      match popped with
      | Some (FileEntry base_data) => Some base_data
      | Some (SearchResults _) => None
      | None => Some (rebuilt_base_data lower file_path f)
      end in
    match base_data with
    | None =>
        mkManager imm (cm_hot_cache m) (cm_max_immediate_cache m) (cm_max_hot_cache m)
          (cm_move_timers m) (cm_shutdown_requested m) (cm_hot_cache_json m)
    | Some base_data =>
        let hot_data :=
          mkEntry (Some file_path) (file_name base_data) (content_preview base_data)
                  (Some (slice_to 10000 content)) (file_type base_data) (size base_data)
                  (indexed_time base_data) (Some (lit "hot")) (Some (now f)) in
        let hot := evict_hot (cm_max_hot_cache m)
                     (dict_set file_path hot_data (cm_hot_cache m)) in
        mkManager imm hot (cm_max_immediate_cache m) (cm_max_hot_cache m)
          (cm_move_timers m) (cm_shutdown_requested m) (cm_hot_cache_json m)
    end.

End Manager.

(** [save_caches]: skipped once shutdown is requested. *)
Definition save_caches (m : manager) (w : io) : manager :=
  if cm_shutdown_requested m then m
  else
    let hot_cache_copy := cm_hot_cache m in
    mkManager (cm_immediate_cache m) (cm_hot_cache m) (cm_max_immediate_cache m)
      (cm_max_hot_cache m) (cm_move_timers m) (cm_shutdown_requested m)
      (match w with IoOk => Saved hot_cache_copy | IoError => Damaged end).

(** [shutdown]: raise the flag, cancel and forget the timers, then call
    [save_caches]. *)
Definition shutdown (m : manager) (w : io) : manager :=
  let m := mkManager (cm_immediate_cache m) (cm_hot_cache m)
             (cm_max_immediate_cache m) (cm_max_hot_cache m)
             (cm_move_timers m) true (cm_hot_cache_json m) in
  let m := mkManager (cm_immediate_cache m) (cm_hot_cache m)
             (cm_max_immediate_cache m) (cm_max_hot_cache m)
             [] (cm_shutdown_requested m) (cm_hot_cache_json m) in
  save_caches m w.

(** The manager as [__init__] leaves it. *)
Definition manager0 : manager :=
  mkManager [] [] 150000 1500000 [] false NoFile.

(** A manager with [a.txt] in its hot tier and nothing on disk. *)
Definition manager_with_hot_entry : manager :=
  _move_to_hot_layer Text.sample_lower
    (add_to_immediate_cache manager0 a_txt (lit "hello world")
       (mkFileData (lit "a.txt") (lit ".txt") 11) 0 true)
    a_txt (lit "hello world") (small_file 1000000).

Example manager_with_hot_entry_tiers :
  dict_has a_txt (cm_hot_cache manager_with_hot_entry) = true /\
  dict_has a_txt (cm_immediate_cache manager_with_hot_entry) = false /\
  cm_hot_cache_json manager_with_hot_entry = NoFile.
Proof. vm_compute. repeat split. Qed.

(** While running, [save_caches] writes the hot tier. *)
Lemma save_caches_writes (m : manager) :
  cm_shutdown_requested m = false ->
  cm_hot_cache_json (save_caches m IoOk) = Saved (cm_hot_cache m).
Proof. intros H. unfold save_caches. now rewrite H. Qed.

(** [C4] Final save at shutdown.  [CacheManager.shutdown] raises
    [shutdown_requested] before it calls [save_caches], and [save_caches]
    returns at once when the flag is up: the cache file is left as it was,
    whatever the hot tier holds.  The hot entry of
    [manager_with_hot_entry] is on no disk after shutdown.  (The
    [shutdown] of [file_search_app.py] saves through [_save_caches_sync],
    which does not test the flag: [Cache.shutdown_saves_hot_tier].) *)
Theorem manager_shutdown_skips_final_save :
  (forall m w,
     cm_hot_cache_json (shutdown m w) = cm_hot_cache_json m /\
     cm_hot_cache (shutdown m w) = cm_hot_cache m) /\
  dict_has a_txt (cm_hot_cache (shutdown manager_with_hot_entry IoOk)) = true /\
  cm_hot_cache_json (shutdown manager_with_hot_entry IoOk) = NoFile.
Proof.
  split; [|split; vm_compute; reflexivity].
  intros m w. unfold shutdown, save_caches. cbn. auto.
Qed.

End CacheManager.

(* ================================================================== *)
(** * Query planner: the entry point [ultra_fast_search] *)
(* ================================================================== *)

Module Planner.

(** The counters of [self.stats] touched by a search. *)
Record stats := mkStats {
  search_count : Z;
  immediate_layer_hits : Z;
  hot_layer_hits : Z;
  complete_layer_hits : Z;
  error_count : Z
}.

(** What a search asks of the tiers, in order. *)
Inductive event :=
| AskImmediate (query : pystr)
| AskHot (query : pystr)
| AskComplete (query : pystr) (max_results : Z)
| CacheSearchResults (query : pystr).

(** [l[:n]], also for negative [n]. *)
Definition list_slice_to {A : Type} (n : Z) (l : list A) : list A :=
  if 0 <=? n then firstn (Z.to_nat n) l
  else firstn (List.length l - Z.to_nat (- n)) l.

Section Search.

Variable result : Type.

(** The three tier searches; [None] stands for a raised exception. *)
Variable _search_immediate_layer : pystr -> option (list result).
Variable _search_hot_layer : pystr -> option (list result).
Variable _search_complete_layer : pystr -> Z -> option (list result).

Definition count_search (st : stats) : stats :=
  mkStats (search_count st + 1) (immediate_layer_hits st) (hot_layer_hits st)
          (complete_layer_hits st) (error_count st).

Definition count_immediate_hit (st : stats) : stats :=
  mkStats (search_count st) (immediate_layer_hits st + 1) (hot_layer_hits st)
          (complete_layer_hits st) (error_count st).

Definition count_hot_hit (st : stats) : stats :=
  mkStats (search_count st) (immediate_layer_hits st) (hot_layer_hits st + 1)
          (complete_layer_hits st) (error_count st).

Definition count_complete_hit (st : stats) : stats :=
  mkStats (search_count st) (immediate_layer_hits st) (hot_layer_hits st)
          (complete_layer_hits st + 1) (error_count st).

Definition count_error (st : stats) : stats :=
  mkStats (search_count st) (immediate_layer_hits st) (hot_layer_hits st)
          (complete_layer_hits st) (error_count st + 1).

(** [ultra_fast_search]: the results, the counters afterwards and the
    requests made to the tiers. *)
Definition ultra_fast_search (st : stats) (query : pystr) (max_results : Z)
  : list result * stats * list event :=
  if is_empty query || is_empty (strip query) then ([], st, [])
  else
    let query := strip query in
    let st := count_search st in
    match _search_immediate_layer query with
    | None => ([], count_error st, [AskImmediate query])
    | Some ((_ :: _) as immediate_results) =>
        (list_slice_to max_results immediate_results,
         count_immediate_hit st, [AskImmediate query])
    | Some [] =>
        match _search_hot_layer query with
        | None => ([], count_error st, [AskImmediate query; AskHot query])
        | Some ((_ :: _) as hot_results) =>
            (list_slice_to max_results hot_results, count_hot_hit st,
             [AskImmediate query; AskHot query; CacheSearchResults query])
        | Some [] =>
            match _search_complete_layer query max_results with
            | None =>
                ([], count_error st,
                 [AskImmediate query; AskHot query; AskComplete query max_results])
            | Some [] =>
                ([], count_complete_hit st,
                 [AskImmediate query; AskHot query; AskComplete query max_results])
            | Some complete_results =>
                (complete_results, count_complete_hit st,
                 [AskImmediate query; AskHot query; AskComplete query max_results;
                  CacheSearchResults query])
            end
        end
    end.

Lemma lstrip_blank (s : pystr) :
  (forall c, In c s -> is_space c = true) -> lstrip s = [].
Proof.
  induction s as [|c s IH]; intros H; simpl; [reflexivity|].
  rewrite (H c (or_introl eq_refl)). apply IH.
  intros c' Hc'. apply H. now right.
Qed.

Lemma strip_blank (s : pystr) :
  (forall c, In c s -> is_space c = true) -> strip s = [].
Proof.
  intros H. unfold strip. now rewrite (lstrip_blank s H).
Qed.

(** [C9] Blank queries.  When the query is empty or consists of white
    space only, [ultra_fast_search] returns the empty list at once: no
    tier is asked and no counter moves. *)
Theorem blank_query_returns_empty (st : stats) (query : pystr) (max_results : Z) :
  (forall c, In c query -> is_space c = true) ->
  ultra_fast_search st query max_results = ([], st, []).
Proof.
  intros H. unfold ultra_fast_search.
  rewrite (strip_blank query H). cbn [is_empty]. now rewrite orb_true_r.
Qed.

End Search.

(** A query of two spaces and a tab, against tiers that would answer
    every query with one row. *)
Lemma blank_query_returns_empty_witness :
  ultra_fast_search nat (fun _ => Some [1%nat]) (fun _ => Some [2%nat])
    (fun _ _ => Some [3%nat]) (mkStats 7 1 2 3 0) [32; 32; 9] 5500
  = ([], mkStats 7 1 2 3 0, []).
Proof.
  apply (blank_query_returns_empty nat (fun _ => Some [1%nat]) (fun _ => Some [2%nat])
           (fun _ _ => Some [3%nat]) (mkStats 7 1 2 3 0) [32; 32; 9] 5500).
  intros c [<- | [<- | [<- | []]]]; reflexivity.
Defined.

(** A query with text is trimmed and reaches the immediate tier. *)
Example padded_query_is_searched :
  ultra_fast_search nat (fun _ => Some [1%nat]) (fun _ => Some [2%nat])
    (fun _ _ => Some [3%nat]) (mkStats 7 1 2 3 0) (lit " ab ") 5500
  = ([1%nat], mkStats 8 2 2 3 0, [AskImmediate (lit "ab")]).
Proof. vm_compute. reflexivity. Qed.

End Planner.

(* ================================================================== *)
(** * Shard store: the durable upsert *)
(* ================================================================== *)

Module Store.

(** ** Tables of one shard *)

(** A row of [documents]. *)
Record document := mkDoc {
  id : Z;
  file_path : pystr;
  file_name : pystr;
  content : pystr;
  file_type : pystr;
  size : Z;
  modified_time : Z;
  indexed_time : Z;
  hash : pystr
}.

(** A row of [documents_fts]. *)
Record fts_row := mkFts {
  rowid : Z;
  fts_file_path : pystr;
  fts_file_name : pystr;
  fts_content : pystr;
  fts_file_type : pystr
}.

(** One shard file; [last_rowid] is the AUTOINCREMENT counter. *)
Record shard := mkShard {
  documents : list document;
  documents_fts : list fts_row;
  last_rowid : Z
}.

(** The arguments of the upsert: [file_name], [file_type] and [size] come
    from [base_data] (resp. [file_data]); [now] is [time.time()]. *)
Record upsert_args := mkArgs {
  a_file_path : pystr;
  a_content : pystr;
  a_file_name : pystr;
  a_file_type : pystr;
  a_size : Z;
  a_file_hash : pystr;
  a_now : Z
}.

(** ** Sanitization *)

Definition NUL : Z := 0.

(** [content[:2000000] if content else ""], then [replace('\x00', '')]. *)
Definition safe_content (content : pystr) : pystr :=
  remove_char NUL (if is_empty content then [] else slice_to 2000000 content).

(** [file_name[:500] if file_name else os.path.basename(file_path)], then
    [replace('\x00', '')]. *)
Definition safe_file_name (file_path file_name : pystr) : pystr :=
  remove_char NUL
    (if is_empty file_name then Cache.path_name file_path
     else slice_to 500 file_name).

(** [file_type[:100] if file_type else "unknown"] *)
Definition safe_file_type (file_type : pystr) : pystr :=
  if is_empty file_type then lit "unknown" else slice_to 100 file_type.

(** ** SQL statements *)

(** [SELECT id FROM documents WHERE file_path = ?], [fetchone()]. *)
Fixpoint select_id (path : pystr) (docs : list document) : option Z :=
  match docs with
  | [] => None
  | d :: docs' => if PyStr.eqb (file_path d) path then Some (id d) else select_id path docs'
  end.

(** The row as the UPDATE and the INSERT write it. *)
Definition written_row (a : upsert_args) (i : Z) : document :=
  mkDoc i (a_file_path a) (safe_file_name (a_file_path a) (a_file_name a))
        (safe_content (a_content a)) (safe_file_type (a_file_type a))
        (a_size a) (a_now a) (a_now a) (a_file_hash a).

Definition written_fts (a : upsert_args) (i : Z) : fts_row :=
  mkFts i (a_file_path a) (safe_file_name (a_file_path a) (a_file_name a))
        (safe_content (a_content a)) (safe_file_type (a_file_type a)).

(** [UPDATE documents SET ... WHERE file_path = ?] *)
Definition sql_update (a : upsert_args) (docs : list document) : list document :=
  map (fun d => if PyStr.eqb (file_path d) (a_file_path a)
                then written_row a (id d) else d) docs.

(** Update branch: UPDATE, delete the FTS row, insert it again (the row
    just updated is there, so the guard around the FTS insert holds). *)
Definition do_update (db : shard) (a : upsert_args) (existing : Z) : shard :=
  mkShard (sql_update a (documents db))
          (filter (fun r => negb (rowid r =? existing)) (documents_fts db)
           ++ [written_fts a existing])
          (last_rowid db).

(** Insert branch: INSERT, then the FTS row under [lastrowid]. *)
Definition do_insert (db : shard) (a : upsert_args) : shard :=
  let doc_id := last_rowid db + 1 in
  mkShard (documents db ++ [written_row a doc_id])
          (documents_fts db ++ (if doc_id =? 0 then [] else [written_fts a doc_id]))
          doc_id.

(** The repair: both tables lose the rows of the path. *)
Definition do_repair (db : shard) (path : pystr) : shard :=
  mkShard (filter (fun d => negb (PyStr.eqb (file_path d) path)) (documents db))
          (filter (fun r => negb (PyStr.eqb (fts_file_path r) path)) (documents_fts db))
          (last_rowid db).

(** ** Faults *)

(** Message classes of [sqlite3.OperationalError]. *)
Inductive op_msg := MsgLocked | MsgBusy | MsgUnableToOpen | MsgDiskIO | MsgOtherOp.

(** What the fall-back of the insert branch runs into after its
    rollback: nothing, another [sqlite3.IntegrityError], or a
    [sqlite3.OperationalError] (the database is locked when the fall-back
    asks for its transaction). *)
Inductive fallback :=
| FallbackOk
| FallbackIntegrity
| FallbackOperational (msg : op_msg).

(** What goes wrong in one attempt.
    - [Operational]: raised while connecting or reading, nothing written.
    - [Integrity]: the UPDATE or INSERT of the attempt raises
      [sqlite3.IntegrityError].  [constraint_failed]: the message contains
      ["constraint failed"].  [racing]: a row of the same path committed by
      another writer after this attempt's SELECT.  [again]: what the
      fall-back of the insert branch runs into.  [repair_ok]: the repair
      statements succeed.
    - [Unexpected]: any other exception. *)
Inductive fault :=
| NoFault
| Operational (msg : op_msg)
| Integrity (constraint_failed : bool) (racing : option document)
            (again : fallback) (repair_ok : bool)
| Unexpected.

Inductive event :=
| Attempt (n : Z)
| Commit
| Rollback
| Repair
| RepairFailed
| Sleep (n : Z)
| LogError.

(** How one pass through the loop body ends. *)
Inductive next := Continue | Break | Return (b : bool).

Definition max_retries : Z := 8.

(** Another writer's row becomes visible (insert branch only: with a row
    of the path in place no second one can be committed). *)
Definition other_writer (db : shard) (racing : option document) : shard :=
  match racing with
  | Some r => mkShard (documents db ++ [r]) (documents_fts db)
                      (Z.max (last_rowid db) (id r))
  | None => db
  end.

(** The [except sqlite3.IntegrityError] handler of the retry loop of
    [_add_to_complete_layer]. *)
Definition on_integrity_error
    (db : shard) (a : upsert_args) (attempt : Z) (constraint_failed repair_ok : bool)
  : shard * list event * next :=
  if constraint_failed then
    if repair_ok then
      (do_repair db (a_file_path a), [LogError; Rollback; Repair],
       if attempt <? max_retries - 1 then Continue else Break)
    else (db, [LogError; Rollback; RepairFailed], Break)
  else (db, [LogError; Rollback], Break).

(** One pass through the loop body of [_add_to_complete_layer]. *)
Definition complete_layer_attempt
    (db : shard) (a : upsert_args) (attempt : Z) (flt : fault)
  : shard * list event * next :=
  match flt with
  | Operational msg =>
      let retryable :=
        match msg with MsgOtherOp => false | _ => true end in
      if retryable && (attempt <? max_retries - 1)
      then (db, [Attempt attempt; LogError; Sleep attempt], Continue)
      else (db, [Attempt attempt; LogError], Break)
  | Unexpected => (db, [Attempt attempt; LogError], Break)
  | NoFault =>
      match select_id (a_file_path a) (documents db) with
      | Some existing => (do_update db a existing, [Attempt attempt; Commit], Break)
      | None => (do_insert db a, [Attempt attempt; Commit], Break)
      end
  | Integrity constraint_failed racing again repair_ok =>
      match select_id (a_file_path a) (documents db) with
      | Some existing =>
          let '(db, ev, nx) :=
            on_integrity_error db a attempt constraint_failed repair_ok in
          (db, [Attempt attempt; Rollback; LogError] ++ ev, nx)
      | None =>
          let db := other_writer db racing in
          match select_id (a_file_path a) (documents db) with
          | Some duplicate =>
              match again with
              | FallbackIntegrity =>
                  let '(db, ev, nx) :=
                    on_integrity_error db a attempt constraint_failed repair_ok in
                  (db, [Attempt attempt; Rollback; LogError] ++ ev, nx)
              | FallbackOperational msg =>
                  let retryable :=
                    match msg with MsgOtherOp => false | _ => true end in
                  if retryable && (attempt <? max_retries - 1)
                  then (db, [Attempt attempt; Rollback; LogError; LogError; Sleep attempt],
                        Continue)
                  else (db, [Attempt attempt; Rollback; LogError; LogError], Break)
              | FallbackOk =>
                  (do_update db a duplicate,
                   [Attempt attempt; Rollback; LogError; Commit], Break)
              end
          | None => (db, [Attempt attempt; Rollback; LogError], Break)
          end
      end
  end.

(** [for attempt in range(max_retries)] of [_add_to_complete_layer];
    [faults n] is what goes wrong in attempt [n].  The method returns
    nothing. *)
Fixpoint complete_layer_loop
    (faults : Z -> fault) (a : upsert_args) (attempt : Z) (left : nat) (db : shard)
  : shard * list event :=
  match left with
  | O => (db, [])
  | S left' =>
      let '(db, ev, nx) := complete_layer_attempt db a attempt (faults attempt) in
      match nx with
      | Continue =>
          let '(db, ev') := complete_layer_loop faults a (attempt + 1) left' db in
          (db, ev ++ ev')
      | _ => (db, ev)
      end
  end.

Definition _add_to_complete_layer
    (faults : Z -> fault) (db : shard) (a : upsert_args) : shard * list event :=
  complete_layer_loop faults a 0 (Z.to_nat max_retries) db.

(** One pass through the loop body of [add_document_to_db]. *)
Definition document_attempt
    (db : shard) (a : upsert_args) (attempt : Z) (flt : fault)
  : shard * list event * next :=
  match flt with
  | Operational msg =>
      let retryable :=
        match msg with MsgLocked | MsgBusy => true | _ => false end in
      if retryable && (attempt <? max_retries - 1)
      then (db, [Attempt attempt; Sleep attempt], Continue)
      else (db, [Attempt attempt; LogError], Return false)
  | Unexpected => (db, [Attempt attempt; LogError], Return false)
  | NoFault =>
      match select_id (a_file_path a) (documents db) with
      | Some existing => (do_update db a existing, [Attempt attempt; Commit], Return true)
      | None => (do_insert db a, [Attempt attempt; Commit], Return true)
      end
  | Integrity _ racing _ _ =>
      match select_id (a_file_path a) (documents db) with
      | Some existing => (db, [Attempt attempt; LogError], Return false)
      | None => (other_writer db racing, [Attempt attempt; LogError], Return false)
      end
  end.

Fixpoint document_loop
    (faults : Z -> fault) (a : upsert_args) (attempt : Z) (left : nat) (db : shard)
  : shard * list event * bool :=
  match left with
  | O => (db, [], false)
  | S left' =>
      let '(db, ev, nx) := document_attempt db a attempt (faults attempt) in
      match nx with
      | Continue =>
          let '(db, ev', r) := document_loop faults a (attempt + 1) left' db in
          (db, ev ++ ev', r)
      | Break => (db, ev, false)
      | Return b => (db, ev, b)
      end
  end.

(** [add_document_to_db] *)
Definition add_document_to_db
    (faults : Z -> fault) (db : shard) (a : upsert_args) : shard * list event * bool :=
  document_loop faults a 0 (Z.to_nat max_retries) db.

(** Number of repairs and of attempts in a trace. *)
Definition is_repair (e : event) : bool :=
  match e with Repair | RepairFailed => true | _ => false end.

Definition is_attempt (e : event) : bool :=
  match e with Attempt _ => true | _ => false end.

Definition repairs (ev : list event) : nat := List.length (filter is_repair ev).
Definition attempts (ev : list event) : nat := List.length (filter is_attempt ev).

(** ** Faults the schema allows *)

(** The integrity violations a shard can raise against the upsert.  The
    UPDATE changes neither [id] nor [file_path], every NOT NULL column is
    bound to a [str], and the FTS row of an id is deleted before it is
    inserted again: the one constraint a write of the upsert can break is
    the uniqueness of [file_path], in the INSERT, when another writer has
    committed a row of the path since the SELECT of the attempt; and the
    fall-back, an UPDATE, cannot break it again.  Operational errors and
    other exceptions can come at any attempt. *)
Definition realizable (db : shard) (a : upsert_args) (flt : fault) : bool :=
  match flt with
  | Integrity _ racing again _ =>
      match select_id (a_file_path a) (documents db), racing, again with
      | None, Some r, FallbackOk
      | None, Some r, FallbackOperational _ => PyStr.eqb (file_path r) (a_file_path a)
      | _, _, _ => false
      end
  | _ => true
  end.

(** Every attempt of the loop of [_add_to_complete_layer] meets a fault
    the shard it finds allows. *)
Fixpoint realizable_from
    (faults : Z -> fault) (a : upsert_args) (attempt : Z) (left : nat) (db : shard)
  : bool :=
  match left with
  | O => true
  | S left' =>
      realizable db a (faults attempt) &&
      let '(db', _, nx) := complete_layer_attempt db a attempt (faults attempt) in
      match nx with
      | Continue => realizable_from faults a (attempt + 1) left' db'
      | _ => true
      end
  end.

Definition realizable_run (faults : Z -> fault) (db : shard) (a : upsert_args) : bool :=
  realizable_from faults a 0 (Z.to_nat max_retries) db.

(** ** Facts about sanitization *)

Lemma safe_content_ok (c : pystr) :
  len (safe_content c) <= 2000000 /\ ~ In NUL (safe_content c).
Proof.
  unfold safe_content. split; [|apply remove_char_absent].
  eapply Z.le_trans; [apply len_remove_char|].
  destruct (is_empty c); [cbn; lia | apply len_slice_to; lia].
Qed.

Lemma safe_file_type_ok (t : pystr) : len (safe_file_type t) <= 100.
Proof.
  unfold safe_file_type.
  destruct (is_empty t); [cbn; lia | apply len_slice_to; lia].
Qed.

Lemma safe_file_name_ok (p n : pystr) :
  ~ In NUL (safe_file_name p n) /\
  (n <> [] -> len (safe_file_name p n) <= 500) /\
  (n = [] -> safe_file_name p n = remove_char NUL (Cache.path_name p)).
Proof.
  unfold safe_file_name. split; [apply remove_char_absent|]. split.
  - intros Hn. destruct n as [|c n]; [congruence|]. cbn [is_empty].
    eapply Z.le_trans; [apply len_remove_char | apply len_slice_to; lia].
  - intros ->. reflexivity.
Qed.

(** What holds of every row the upsert writes, on the insert and on the
    update branch alike. *)
Lemma written_row_sanitized (a : upsert_args) (i : Z) :
  let d := written_row a i in
  len (content d) <= 2000000 /\ ~ In NUL (content d) /\
  ~ In NUL (file_name d) /\
  len (file_type d) <= 100 /\
  (a_file_name a <> [] -> len (file_name d) <= 500).
Proof.
  cbn [written_row content file_name file_type].
  pose proof (safe_content_ok (a_content a)) as [H1 H2].
  pose proof (safe_file_name_ok (a_file_path a) (a_file_name a)) as [H3 [H4 _]].
  pose proof (safe_file_type_ok (a_file_type a)).
  auto.
Qed.

Lemma select_id_none (path : pystr) (docs : list document) :
  select_id path docs = None ->
  forall d, In d docs -> file_path d <> path.
Proof.
  induction docs as [|x docs IH]; simpl; intros H d Hd; [contradiction|].
  destruct (PyStr.eqb (file_path x) path) eqn:E; [discriminate|].
  destruct Hd as [<- | Hd]; [now apply PyStr.eqb_neq | now apply IH].
Qed.

(** After an attempt without fault every row of the path is the
    sanitized row, whichever branch wrote it, and there is such a row. *)
Lemma committed_rows (db : shard) (a : upsert_args) (n : Z) :
  let db' := fst (fst (complete_layer_attempt db a n NoFault)) in
  (forall d, In d (documents db') -> file_path d = a_file_path a ->
             d = written_row a (id d)) /\
  (exists i, In (written_row a i) (documents db')).
Proof.
  cbn [complete_layer_attempt].
  destruct (select_id (a_file_path a) (documents db)) as [existing|] eqn:E;
    cbn [fst do_update do_insert documents]; split.
  - intros d Hd Hp. unfold sql_update in Hd. apply in_map_iff in Hd as [x [Hx _]].
    destruct (PyStr.eqb (file_path x) (a_file_path a)) eqn:F.
    + subst d. reflexivity.
    + subst d. apply PyStr.eqb_neq in F. contradiction.
  - clear n. unfold sql_update. induction (documents db) as [|x docs IH]; [discriminate|].
    cbn [select_id map] in *.
    destruct (PyStr.eqb (file_path x) (a_file_path a)) eqn:F.
    + exists (id x). now left.
    + destruct (IH E) as [i Hi]. exists i. now right.
  - intros d Hd Hp. apply in_app_or in Hd as [Hd | [<- | []]].
    + exfalso. eapply select_id_none; eauto.
    + reflexivity.
  - exists (last_rowid db + 1). apply in_or_app. right. now left.
Qed.

(** ** The retry protocol *)

Lemma on_integrity_error_counts (db : shard) (a : upsert_args) (n : Z) (c r : bool) :
  let ev := snd (fst (on_integrity_error db a n c r)) in
  attempts ev = 0%nat /\ (repairs ev <= 1)%nat.
Proof.
  unfold on_integrity_error. destruct c, r; cbn; lia.
Qed.

Lemma complete_layer_attempt_counts (db : shard) (a : upsert_args) (n : Z) (flt : fault) :
  let ev := snd (fst (complete_layer_attempt db a n flt)) in
  attempts ev = 1%nat /\ (repairs ev <= 1)%nat.
Proof.
  unfold complete_layer_attempt.
  destruct flt as [|msg|c racing again r|].
  - destruct (select_id _ _); cbn; lia.
  - destruct (_ && _); cbn; lia.
  - pose proof (on_integrity_error_counts db a n c r) as H0.
    pose proof (on_integrity_error_counts (other_writer db racing) a n c r) as H1.
    destruct (select_id (a_file_path a) (documents db)).
    + destruct (on_integrity_error db a n c r) as [[db1 ev1] nx1].
      cbn [fst snd] in *. unfold attempts, repairs in *. cbn in *. lia.
    + destruct (select_id (a_file_path a) (documents (other_writer db racing)));
        [destruct again as [| |msg]|]; try (cbn; lia).
      * destruct (on_integrity_error (other_writer db racing) a n c r) as [[db1 ev1] nx1].
        cbn [fst snd] in *. unfold attempts, repairs in *. cbn in *. lia.
      * destruct (_ && _); cbn; lia.
  - cbn; lia.
Qed.

Lemma counts_app (ev ev' : list event) :
  attempts (ev ++ ev') = (attempts ev + attempts ev')%nat /\
  repairs (ev ++ ev') = (repairs ev + repairs ev')%nat.
Proof.
  unfold attempts, repairs. now rewrite !filter_app, !length_app.
Qed.

Lemma complete_layer_loop_counts
    (faults : Z -> fault) (a : upsert_args) (left : nat) (n : Z) (db : shard) :
  let ev := snd (complete_layer_loop faults a n left db) in
  (repairs ev <= attempts ev)%nat /\ (attempts ev <= left)%nat.
Proof.
  revert n db. induction left as [|left IH]; intros n db; cbn [complete_layer_loop].
  - cbn. lia.
  - pose proof (complete_layer_attempt_counts db a n (faults n)) as H.
    destruct (complete_layer_attempt db a n (faults n)) as [[db1 ev1] nx].
    cbn [fst snd] in H. destruct nx; cbn [snd]; try lia.
    specialize (IH (n + 1) db1).
    destruct (complete_layer_loop faults a (n + 1) left db1) as [db2 ev2].
    cbn [snd] in *. destruct (counts_app ev1 ev2) as [-> ->]. lia.
Qed.

Lemma document_attempt_counts (db : shard) (a : upsert_args) (n : Z) (flt : fault) :
  let ev := snd (fst (document_attempt db a n flt)) in
  attempts ev = 1%nat /\ repairs ev = 0%nat.
Proof.
  unfold document_attempt.
  destruct flt as [|msg|c racing again r|].
  - destruct (select_id _ _); cbn; lia.
  - destruct (_ && _); cbn; lia.
  - destruct (select_id _ _); cbn; lia.
  - cbn; lia.
Qed.

Lemma document_loop_counts
    (faults : Z -> fault) (a : upsert_args) (left : nat) (n : Z) (db : shard) :
  let ev := snd (fst (document_loop faults a n left db)) in
  repairs ev = 0%nat /\ (attempts ev <= left)%nat.
Proof.
  revert n db. induction left as [|left IH]; intros n db; cbn [document_loop].
  - cbn. lia.
  - pose proof (document_attempt_counts db a n (faults n)) as H.
    destruct (document_attempt db a n (faults n)) as [[db1 ev1] nx].
    cbn [fst snd] in H. destruct nx; cbn [fst snd]; try lia.
    specialize (IH (n + 1) db1).
    destruct (document_loop faults a (n + 1) left db1) as [[db2 ev2] r].
    cbn [fst snd] in *. destruct (counts_app ev1 ev2) as [-> ->]. lia.
Qed.

(** ** Collisions *)

(** The row another writer committed is the one the fall-back finds. *)
Lemma select_id_other_writer (db : shard) (path : pystr) (r : document) :
  select_id path (documents db) = None ->
  file_path r = path ->
  select_id path (documents (other_writer db (Some r))) = Some (id r).
Proof.
  intros Hs Hp. cbn [other_writer documents].
  induction (documents db) as [|x docs IH]; cbn [app select_id] in *.
  - replace (PyStr.eqb (file_path r) path) with true
      by (symmetry; now apply PyStr.eqb_eq).
    reflexivity.
  - destruct (PyStr.eqb (file_path x) path); [discriminate | now apply IH].
Qed.

(** What a realizable integrity violation is: a collision of the INSERT. *)
Lemma realizable_integrity
    (db : shard) (a : upsert_args) (c : bool) (racing : option document)
    (again : fallback) (r : bool) :
  realizable db a (Integrity c racing again r) = true ->
  select_id (a_file_path a) (documents db) = None /\
  again <> FallbackIntegrity /\
  exists row, racing = Some row /\ file_path row = a_file_path a.
Proof.
  unfold realizable.
  destruct (select_id (a_file_path a) (documents db)); [discriminate|].
  destruct racing as [row|]; [|discriminate].
  destruct again as [| |msg]; try discriminate; intros H; apply PyStr.eqb_eq in H;
    (split; [reflexivity|]); (split; [discriminate|]); now exists row.
Qed.

(** The collision inside one attempt of [_add_to_complete_layer]. *)
Lemma collision_attempt
    (db : shard) (a : upsert_args) (n : Z) (c r : bool) (racing : document) :
  select_id (a_file_path a) (documents db) = None ->
  file_path racing = a_file_path a ->
  complete_layer_attempt db a n (Integrity c (Some racing) FallbackOk r) =
    (do_update (other_writer db (Some racing)) a (id racing),
     [Attempt n; Rollback; LogError; Commit], Break) /\
  (forall msg,
     complete_layer_attempt db a n (Integrity c (Some racing) (FallbackOperational msg) r) =
     let retry :=
       match msg with MsgOtherOp => false | _ => true end && (n <? max_retries - 1) in
     (other_writer db (Some racing),
      [Attempt n; Rollback; LogError; LogError] ++ (if retry then [Sleep n] else []),
      if retry then Continue else Break)).
Proof.
  intros Hs Hp. pose proof (select_id_other_writer db _ racing Hs Hp) as Hd.
  unfold complete_layer_attempt. rewrite Hs, Hd. split; [reflexivity|].
  intros msg. cbv zeta.
  destruct (match msg with MsgOtherOp => false | _ => true end && (n <? max_retries - 1));
    reflexivity.
Qed.

Lemma realizable_attempt_no_repair
    (db : shard) (a : upsert_args) (n : Z) (flt : fault) :
  realizable db a flt = true ->
  repairs (snd (fst (complete_layer_attempt db a n flt))) = 0%nat.
Proof.
  destruct flt as [|msg|c racing again r|]; intros H.
  - cbn [complete_layer_attempt]. destruct (select_id _ _); reflexivity.
  - cbn [complete_layer_attempt]. destruct (_ && _); reflexivity.
  - apply realizable_integrity in H as [Hs [Ha [row [-> Hp]]]].
    destruct (collision_attempt db a n c r row Hs Hp) as [E1 E2].
    destruct again as [| |msg]; [now rewrite E1 | congruence |].
    rewrite E2. cbv zeta. destruct (_ && _); reflexivity.
  - reflexivity.
Qed.

Lemma realizable_loop_no_repair
    (faults : Z -> fault) (a : upsert_args) (left : nat) (n : Z) (db : shard) :
  realizable_from faults a n left db = true ->
  repairs (snd (complete_layer_loop faults a n left db)) = 0%nat.
Proof.
  revert n db. induction left as [|left IH]; intros n db;
    cbn [complete_layer_loop realizable_from]; [reflexivity|].
  intros H. apply andb_true_iff in H as [H1 H2].
  pose proof (realizable_attempt_no_repair db a n (faults n) H1) as Hr.
  destruct (complete_layer_attempt db a n (faults n)) as [[db1 ev1] nx].
  cbn [fst snd] in Hr. destruct nx; cbn [snd]; try exact Hr.
  specialize (IH (n + 1) db1 H2).
  destruct (complete_layer_loop faults a (n + 1) left db1) as [db2 ev2].
  cbn [snd] in *. destruct (counts_app ev1 ev2) as [_ ->]. lia.
Qed.

(** [C8] Integrity violations in the durable upsert.  A shard raises an
    integrity violation against the upsert in one case only: the INSERT
    collides with a row of the path that another writer committed since
    the SELECT of the attempt ([realizable]).
    - [_add_to_complete_layer] handles the collision inside the attempt:
      the transaction is rolled back, the row is re-resolved by path and
      the write is made once more, as an update under the id of the other
      writer's row; it commits and the loop ends.  When the database is
      locked as the fall-back asks for its transaction, the attempt ends
      like any other locked attempt: the error is logged and, while one of
      the 8 attempts is left, the whole write is tried anew after the
      back-off.
    - In a run whose faults are realizable the handler that repairs by
      deleting the rows of the path is not reached: no repair, at most 8
      attempts.  (Whatever the faults, there are at most 8 attempts and no
      more repairs than attempts.)
    - [add_document_to_db] has no handler for the violation: it is logged
      and the call returns [False] at that attempt, with no rollback of
      its own, no repair and no retry.
    Neither method lets the exception escape; [_add_to_complete_layer]
    returns nothing and nothing is counted. *)
Theorem integrity_violation_protocol
    (faults : Z -> fault) (db : shard) (a : upsert_args) :
  (let ev := snd (_add_to_complete_layer faults db a) in
   (repairs ev <= attempts ev)%nat /\ (attempts ev <= 8)%nat /\
   (realizable_run faults db a = true -> repairs ev = 0%nat)) /\
  (forall n racing c r,
     select_id (a_file_path a) (documents db) = None ->
     file_path racing = a_file_path a ->
     complete_layer_attempt db a n (Integrity c (Some racing) FallbackOk r) =
       (do_update (other_writer db (Some racing)) a (id racing),
        [Attempt n; Rollback; LogError; Commit], Break) /\
     (forall msg,
        complete_layer_attempt db a n
          (Integrity c (Some racing) (FallbackOperational msg) r) =
        let retry :=
          match msg with MsgOtherOp => false | _ => true end && (n <? max_retries - 1) in
        (other_writer db (Some racing),
         [Attempt n; Rollback; LogError; LogError] ++ (if retry then [Sleep n] else []),
         if retry then Continue else Break))) /\
  (let ev := snd (fst (add_document_to_db faults db a)) in
   repairs ev = 0%nat /\ (attempts ev <= 8)%nat) /\
  (forall n left c racing again r,
     faults n = Integrity c racing again r ->
     snd (document_loop faults a n (S left) db) = false /\
     snd (fst (document_loop faults a n (S left) db)) = [Attempt n; LogError]).
Proof.
  split.
  { pose proof (complete_layer_loop_counts faults a 8 0 db) as [H1 H2].
    cbv zeta. split; [exact H1|]. split; [exact H2|].
    apply (realizable_loop_no_repair faults a 8 0 db). }
  split; [intros n racing c r; apply collision_attempt|].
  split; [apply (document_loop_counts faults a 8 0 db)|].
  intros n left c racing again r E.
  cbn [document_loop]. unfold document_attempt. rewrite E.
  destruct (select_id (a_file_path a) (documents db)); cbn; auto.
Qed.

(** ** Runs of the upsert *)

Definition empty_shard : shard := mkShard [] [] 0.

Definition a_txt_args : upsert_args :=
  mkArgs Cache.a_txt (lit "hello") (lit "a.txt") (lit ".txt") 5 (lit "5d41") 0.

(** A shard that holds [a.txt]. *)
Definition shard_with_a_txt : shard :=
  fst (fst (add_document_to_db (fun _ => NoFault) empty_shard a_txt_args)).

Example shard_with_a_txt_rows :
  documents shard_with_a_txt = [written_row a_txt_args 1] /\
  documents_fts shard_with_a_txt = [written_fts a_txt_args 1].
Proof. vm_compute. split; reflexivity. Qed.

(** Re-indexing the same document without change gives the same row. *)
Example upsert_twice_same_row :
  fst (fst (add_document_to_db (fun _ => NoFault) shard_with_a_txt a_txt_args))
  = shard_with_a_txt.
Proof. vm_compute. reflexivity. Qed.

(** The row of [a.txt] that another writer commits between the SELECT
    and the INSERT of an attempt. *)
Definition racing_row : document :=
  mkDoc 1 Cache.a_txt (lit "a.txt") (lit "old") (lit ".txt") 3 0 0 (lit "0cc1").

(** The first attempt collides and finds the database locked in its
    fall-back; [later] is what the other attempts meet. *)
Definition collision_then_locked (later : fault) (n : Z) : fault :=
  if n =? 0 then Integrity true (Some racing_row) (FallbackOperational MsgLocked) true
  else later.

Lemma integrity_violation_protocol_witness :
  let ev := snd (_add_to_complete_layer (collision_then_locked NoFault)
                   empty_shard a_txt_args) in
  realizable_run (collision_then_locked NoFault) empty_shard a_txt_args = true /\
  repairs ev = 0%nat.
Proof.
  split; [vm_compute; reflexivity|].
  apply (proj1 (integrity_violation_protocol (collision_then_locked NoFault)
                  empty_shard a_txt_args)).
  vm_compute. reflexivity.
Defined.

(** A collision is not answered by one repair, one retry and a reported
    failure.  In [_add_to_complete_layer], after the collision and a
    second failure (the fall-back finds the database locked) the write is
    made a third time, in the next attempt, and succeeds; when the
    database stays locked the loop gives up after its 8 attempts, the
    other writer's row is left as it is, and no attempt has deleted or
    repaired anything.  [add_document_to_db] returns [False] after the
    collision without a second write. *)
Lemma collision_not_one_repair_and_retry :
  _add_to_complete_layer (collision_then_locked NoFault) empty_shard a_txt_args
  = (mkShard [written_row a_txt_args 1] [written_fts a_txt_args 1] 1,
     [Attempt 0; Rollback; LogError; LogError; Sleep 0; Attempt 1; Commit]) /\
  _add_to_complete_layer (collision_then_locked (Operational MsgLocked))
    empty_shard a_txt_args
  = (mkShard [racing_row] [] 1,
     [Attempt 0; Rollback; LogError; LogError; Sleep 0;
      Attempt 1; LogError; Sleep 1; Attempt 2; LogError; Sleep 2;
      Attempt 3; LogError; Sleep 3; Attempt 4; LogError; Sleep 4;
      Attempt 5; LogError; Sleep 5; Attempt 6; LogError; Sleep 6;
      Attempt 7; LogError]) /\
  realizable_run (collision_then_locked (Operational MsgLocked))
    empty_shard a_txt_args = true /\
  add_document_to_db
    (fun _ => Integrity true (Some racing_row) FallbackOk true) empty_shard a_txt_args
  = (mkShard [racing_row] [] 1, [Attempt 0; LogError], false).
Proof. vm_compute. repeat split. Qed.

End Store.
(* ================================================================== *)
(** * More of the text utilities *)
(* ================================================================== *)

Module TextMore.

Import Text.

(** ** [safe_truncate_utf8] *)

(** [safe_truncate_utf8] of [modules/utils/system_utils.py] and of
    [file_search_app.py]: the same code as the method
    [CacheManager._safe_truncate_utf8]. *)
Definition safe_truncate_utf8 (text : pystr) (max_length : Z) : pystr :=
  CacheManager._safe_truncate_utf8 text max_length.

(** The text can be encoded as UTF-8. *)
Definition encodable (s : pystr) : Prop := Router.utf8 s <> None.

Lemma len_slice_exact (n : Z) (s : pystr) :
  0 <= n <= len s -> len (slice_to n s) = n.
Proof.
  intros H. unfold len, slice_to in *. rewrite length_firstn. lia.
Qed.

Lemma shorter_prefix_spec (text : pystr) (max_length i : Z) (fuel : nat) :
  let r := CacheManager.shorter_prefix text max_length i fuel in
  r = [] \/
  (exists j, i <= j < i + Z.of_nat fuel /\ r = slice_to (max_length - j) text /\
             encodable r).
Proof.
  revert i. induction fuel as [|fuel IH]; intros i; cbn [CacheManager.shorter_prefix].
  - now left.
  - destruct (Router.utf8 (slice_to (max_length - i) text)) eqn:E.
    + right. exists i. split; [lia|]. split; [reflexivity|].
      unfold encodable. congruence.
    + destruct (IH (i + 1)) as [H | [j [Hj [Hr He]]]]; [now left|].
      right. exists j. split; [lia|]. split; assumption.
Qed.

(** [X1] Truncation.  For a text longer than [max_length >= 0] the result
    of [safe_truncate_utf8] is a prefix of the text of at most
    [max_length] characters, it can always be encoded as UTF-8, and it is
    either empty or at most 4 characters short of [max_length].  A text
    that fits is returned as it is. *)
Theorem safe_truncate_utf8_spec (text : pystr) (max_length : Z) :
  0 <= max_length ->
  (len text <= max_length -> safe_truncate_utf8 text max_length = text) /\
  (max_length < len text ->
     let r := safe_truncate_utf8 text max_length in
     (exists k, 0 <= k <= max_length /\ r = slice_to k text) /\
     len r <= max_length /\
     encodable r /\
     (r = [] \/ max_length - 4 <= len r)).
Proof.
  intros Hm. unfold safe_truncate_utf8, CacheManager._safe_truncate_utf8. split.
  - intros H. apply Z.leb_le in H. rewrite H. now rewrite orb_true_r.
  - intros H. assert (Hne : is_empty text = false).
    { destruct text; [cbn in H; lia | reflexivity]. }
    rewrite Hne. replace (len text <=? max_length) with false
      by (symmetry; apply Z.leb_gt; lia).
    cbn [orb].
    destruct (Router.utf8 (slice_to max_length text)) eqn:E.
    + rewrite len_slice_exact by lia. repeat split.
      * exists max_length. split; [lia | reflexivity].
      * lia.
      * unfold encodable. congruence.
      * right. lia.
    + pose proof (shorter_prefix_spec text max_length 1 (Z.to_nat (Z.min 4 max_length)))
        as [-> | [j [Hj [Hr He]]]].
      * repeat split; try (cbn; lia).
        -- exists 0. split; [lia | reflexivity].
        -- unfold encodable. cbn. discriminate.
        -- now left.
      * cbv zeta. rewrite Hr in *. rewrite len_slice_exact by lia. repeat split.
        -- exists (max_length - j). split; [lia | reflexivity].
        -- lia.
        -- assumption.
        -- right. lia.
Qed.

(** A text whose 500th character is a lone surrogate: the cut moves one
    character back. *)
Lemma safe_truncate_utf8_spec_witness :
  let text := repeat 97 499 ++ [55296; 98; 99] in
  let r := safe_truncate_utf8 text 500 in
  (exists k, 0 <= k <= 500 /\ r = slice_to k text) /\
  len r <= 500 /\ encodable r /\ (r = [] \/ 500 - 4 <= len r).
Proof.
  apply (proj2 (safe_truncate_utf8_spec (repeat 97 499 ++ [55296; 98; 99]) 500
                  ltac:(lia))).
  vm_compute. reflexivity.
Defined.

Example safe_truncate_surrogate :
  safe_truncate_utf8 (repeat 97 499 ++ [55296; 98; 99]) 500 = repeat 97 499.
Proof. vm_compute. reflexivity. Qed.

(** ** Kana folding *)

Definition is_hiragana (c : Z) : bool := (12353 <=? c) && (c <=? 12438).
Definition is_katakana (c : Z) : bool := (12449 <=? c) && (c <=? 12534).

(** [X2] Kana folding.  The two foldings keep the length of the text and
    undo each other: hiragana-to-katakana followed by katakana-to-hiragana
    gives back a text without katakana, and the other way round for a text
    without hiragana. *)
Theorem kana_folding_round_trip (s : pystr) :
  len (hira_to_kata s) = len s /\
  len (kata_to_hira s) = len s /\
  ((forall c, In c s -> is_katakana c = false) -> kata_to_hira (hira_to_kata s) = s) /\
  ((forall c, In c s -> is_hiragana c = false) -> hira_to_kata (kata_to_hira s) = s).
Proof.
  unfold len, hira_to_kata, kata_to_hira. rewrite !length_map.
  split; [reflexivity|]. split; [reflexivity|]. split.
  - intros H. rewrite map_map. rewrite <- (map_id s) at 2.
    apply map_ext_in. intros c Hc. specialize (H c Hc). unfold is_katakana in H.
    destruct ((12353 <=? c) && (c <=? 12438)) eqn:E.
    + apply andb_true_iff in E as [E1 E2]. apply Z.leb_le in E1, E2.
      replace ((12449 <=? c + 96) && (c + 96 <=? 12534)) with true
        by (symmetry; apply andb_true_iff; split; apply Z.leb_le; lia).
      lia.
    + now rewrite H.
  - intros H. rewrite map_map. rewrite <- (map_id s) at 2.
    apply map_ext_in. intros c Hc. specialize (H c Hc). unfold is_hiragana in H.
    destruct ((12449 <=? c) && (c <=? 12534)) eqn:E.
    + apply andb_true_iff in E as [E1 E2]. apply Z.leb_le in E1, E2.
      replace ((12353 <=? c - 96) && (c - 96 <=? 12438)) with true
        by (symmetry; apply andb_true_iff; split; apply Z.leb_le; lia).
      lia.
    + now rewrite H.
Qed.

(** Hiragana [けんさく] and katakana [ケンサク]. *)
Lemma kana_folding_round_trip_witness :
  kata_to_hira (hira_to_kata [12369; 12435; 12373; 12367]) = [12369; 12435; 12373; 12367] /\
  hira_to_kata (kata_to_hira [12465; 12531; 12469; 12463]) = [12465; 12531; 12469; 12463].
Proof.
  split.
  - apply (proj1 (proj2 (proj2 (kana_folding_round_trip [12369; 12435; 12373; 12367])))).
    intros c [<- | [<- | [<- | [<- | []]]]]; reflexivity.
  - apply (proj2 (proj2 (proj2 (kana_folding_round_trip [12465; 12531; 12469; 12463])))).
    intros c [<- | [<- | [<- | [<- | []]]]]; reflexivity.
Defined.

Example kana_fold_kensaku :
  hira_to_kata [12369; 12435; 12373; 12367] = [12465; 12531; 12469; 12463].
Proof. reflexivity. Qed.

(** ** What the pattern set holds *)

Section PatternContents.

Variable nfkc : pystr -> pystr.
Variable lower : pystr -> pystr.

Lemma append_if_keeps (b : bool) (y x : pystr) (ps : list pystr) :
  In x ps -> In x (append_if b y ps).
Proof.
  intros H. unfold append_if. destruct b; [apply in_or_app; now left | assumption].
Qed.

(** Appending unless equal to an element already there. *)
Lemma append_if_differs (y t : pystr) (ps : list pystr) :
  In t ps -> In y (append_if (negb (PyStr.eqb y t)) y ps).
Proof.
  intros H. unfold append_if. destruct (PyStr.eqb y t) eqn:E; cbn [negb].
  - apply PyStr.eqb_eq in E. now subst.
  - apply in_or_app. right. now left.
Qed.

Lemma append_new_keeps (y x : pystr) (ps : list pystr) :
  In x ps -> In x (append_new y ps).
Proof. apply append_if_keeps. Qed.

Lemma append_new_adds (y : pystr) (ps : list pystr) : In y (append_new y ps).
Proof.
  unfold append_new, append_if. destruct (mem y ps) eqn:E; cbn [negb].
  - now apply mem_In.
  - apply in_or_app. right. now left.
Qed.

Lemma strip_single (c : Z) :
  (0 <? len (strip [c])) = negb (is_space c).
Proof.
  unfold strip. cbn [lstrip]. destruct (is_space c) eqn:E.
  - reflexivity.
  - cbn [rev app lstrip]. rewrite E. reflexivity.
Qed.

Lemma add_chars_keeps (cs : pystr) (ps : list pystr) (x : pystr) :
  In x ps -> In x (add_chars cs ps).
Proof.
  revert ps. induction cs as [|c cs IH]; intros ps H; cbn [add_chars]; [assumption|].
  apply IH. now apply append_if_keeps.
Qed.

Lemma add_chars_adds (cs : pystr) (ps : list pystr) (c : Z) :
  In c cs -> is_space c = false -> In [c] (add_chars cs ps).
Proof.
  revert ps. induction cs as [|d cs IH]; intros ps Hin Hs; [contradiction|].
  cbn [add_chars]. destruct Hin as [-> | Hin]; [|now apply IH].
  apply add_chars_keeps. rewrite strip_single, Hs. cbn [negb].
  rewrite andb_true_r. apply append_new_adds.
Qed.

Lemma add_bigrams_keeps (s : pystr) (ps : list pystr) (x : pystr) :
  In x ps -> In x (add_bigrams s ps).
Proof.
  revert ps. induction s as [|a s IH]; intros ps H; [assumption|].
  destruct s as [|b s]; [assumption|].
  change (In x (add_bigrams (b :: s) (append_new [a; b] ps))).
  apply IH. now apply append_new_keeps.
Qed.

Lemma add_bigrams_adds (l1 l2 : pystr) (a b : Z) (ps : list pystr) :
  In [a; b] (add_bigrams (l1 ++ a :: b :: l2) ps).
Proof.
  revert ps. induction l1 as [|x l1 IH]; intros ps.
  - change (In [a; b] (add_bigrams (b :: l2) (append_new [a; b] ps))).
    apply add_bigrams_keeps, append_new_adds.
  - destruct l1 as [|y l1].
    + change (In [a; b] (add_bigrams ([] ++ a :: b :: l2) (append_new [x; a] ps))).
      apply IH.
    + change (In [a; b] (add_bigrams ((y :: l1) ++ a :: b :: l2) (append_new [x; y] ps))).
      apply IH.
Qed.

Lemma add_words_keeps (ws ps : list pystr) (x : pystr) :
  In x ps -> In x (add_words nfkc ws ps).
Proof.
  revert ps. induction ws as [|w ws IH]; intros ps H; cbn [add_words]; [assumption|].
  apply IH. now do 2 apply append_new_keeps.
Qed.

Lemma add_words_adds (ws ps : list pystr) (w : pystr) :
  In w ws -> In w (add_words nfkc ws ps) /\ In (nfkc w) (add_words nfkc ws ps).
Proof.
  revert ps. induction ws as [|v ws IH]; intros ps Hin; [contradiction|].
  cbn [add_words]. destruct Hin as [-> | Hin]; [|now apply IH].
  split; apply add_words_keeps.
  - apply append_new_keeps, append_new_adds.
  - apply append_new_adds.
Qed.

Lemma unique_loop_keeps (text : pystr) (ps uniq : list pystr) (x : pystr) :
  In x uniq -> In x (unique_loop text ps uniq).
Proof.
  revert uniq. induction ps as [|p ps IH]; intros uniq H; cbn [unique_loop]; [assumption|].
  apply IH. now apply append_if_keeps.
Qed.

Lemma unique_loop_adds (text : pystr) (ps uniq : list pystr) (x : pystr) :
  In text uniq -> In x ps -> In x (unique_loop text ps uniq).
Proof.
  revert uniq. induction ps as [|p ps IH]; intros uniq Ht Hin; [contradiction|].
  cbn [unique_loop]. destruct Hin as [-> | Hin].
  - apply unique_loop_keeps. unfold append_if.
    destruct (mem x uniq) eqn:E1; cbn [negb andb].
    + now apply mem_In.
    + destruct (PyStr.eqb x text) eqn:E2; cbn [negb].
      * apply PyStr.eqb_eq in E2. now subst.
      * apply in_or_app. right. now left.
  - apply IH; [now apply append_if_keeps | assumption].
Qed.

(** Every raw pattern is in the final list. *)
Lemma patterns_hold_raw (q x : pystr) :
  q <> [] -> In x (raw_patterns nfkc lower q) -> In x (patterns nfkc lower q).
Proof.
  intros Hq Hx. unfold patterns, normalize_search_text_ultra.
  destruct q as [|c q']; [congruence|]. cbn [is_empty snd].
  remember (c :: q' : pystr) as text eqn:Et. clear Et Hq.
  destruct (unique_loop_head text (raw_patterns nfkc lower text) [])
    as [u [Hu Hnd]]; [constructor; [tauto | constructor]|].
  pose proof (unique_loop_adds text (raw_patterns nfkc lower text) [text] x
                (or_introl eq_refl) Hx) as H.
  assert (H' : In x (unique_loop text (raw_patterns nfkc lower text) [text]))
    by exact H.
  clear H. rewrite Hu in H'. rewrite Hu. cbn [hd tl].
  rename H' into H. apply in_inv in H. destruct H as [<- | H]; [now left | right].
  eapply Permutation_in; [symmetry; apply PySort.sort_desc_perm | exact H].
Qed.

(** The stages of [raw_patterns], from the last one back. *)
Lemma raw_patterns_stages (q x : pystr) :
  let p1 := append_if (negb (PyStr.eqb (nfkc q) q)) (nfkc q) [q] in
  let p2 := append_if (negb (PyStr.eqb (to_full_width q) q)) (to_full_width q) p1 in
  let p3 := append_if (negb (PyStr.eqb (lower q) q)) (lower q) p2 in
  let p4 := if 2 <=? len q then add_bigrams q (add_chars q p3) else p3 in
  let p5 := append_if (negb (PyStr.eqb (hira_to_kata (lower q)) (lower q)))
                      (hira_to_kata (lower q)) p4 in
  let p6 := append_if (negb (PyStr.eqb (kata_to_hira (lower q)) (lower q)))
                      (kata_to_hira (lower q)) p5 in
  raw_patterns nfkc lower q =
    (if 1 <? Z.of_nat (List.length (split q)) then add_words nfkc (split q) p6 else p6) /\
  (In x p3 -> In x p4) /\ (In x p4 -> In x p6) /\
  (In x p6 -> In x (raw_patterns nfkc lower q)).
Proof.
  cbv zeta. split; [reflexivity|]. split; [|split].
  - intros H. destruct (2 <=? len q); [|assumption].
    now apply add_bigrams_keeps, add_chars_keeps.
  - intros H. now do 2 apply append_if_keeps.
  - intros H. unfold raw_patterns.
    destruct (1 <? Z.of_nat (List.length (split q))); [|assumption].
    now apply add_words_keeps.
Qed.

(** [X3] Contents of the pattern set.  For a non-empty query the pattern
    list holds the NFKC form, the full-width form and the lower-cased form
    of the query and both kana foldings of the lower-cased form; for a
    query of two or more characters also every character that is not
    white space and every pair of adjacent characters; for a query of two
    or more words also every word and its NFKC form. *)
Theorem patterns_hold_all_variants (q : pystr) :
  q <> [] ->
  let P := patterns nfkc lower q in
  In (nfkc q) P /\ In (to_full_width q) P /\ In (lower q) P /\
  In (hira_to_kata (lower q)) P /\ In (kata_to_hira (lower q)) P /\
  (2 <= len q ->
     (forall c, In c q -> is_space c = false -> In [c] P) /\
     (forall l1 a b l2, q = l1 ++ a :: b :: l2 -> In [a; b] P)) /\
  (1 < Z.of_nat (List.length (split q)) ->
     forall w, In w (split q) -> In w P /\ In (nfkc w) P).
Proof.
  intros Hq P. subst P.
  assert (S1 : In (nfkc q) (append_if (negb (PyStr.eqb (nfkc q) q)) (nfkc q) [q]))
    by (apply append_if_differs; now left).
  assert (S0 : In q (append_if (negb (PyStr.eqb (nfkc q) q)) (nfkc q) [q]))
    by (apply append_if_keeps; now left).
  set (p1 := append_if (negb (PyStr.eqb (nfkc q) q)) (nfkc q) [q]) in *.
  assert (S2 : In (to_full_width q)
                 (append_if (negb (PyStr.eqb (to_full_width q) q)) (to_full_width q) p1))
    by (now apply append_if_differs).
  set (p2 := append_if (negb (PyStr.eqb (to_full_width q) q)) (to_full_width q) p1) in *.
  assert (S3 : In (lower q) (append_if (negb (PyStr.eqb (lower q) q)) (lower q) p2))
    by (apply append_if_differs; now apply append_if_keeps).
  set (p3 := append_if (negb (PyStr.eqb (lower q) q)) (lower q) p2) in *.
  set (p4 := if 2 <=? len q then add_bigrams q (add_chars q p3) else p3).
  set (p5 := append_if (negb (PyStr.eqb (hira_to_kata (lower q)) (lower q)))
                       (hira_to_kata (lower q)) p4).
  set (p6 := append_if (negb (PyStr.eqb (kata_to_hira (lower q)) (lower q)))
                       (kata_to_hira (lower q)) p5).
  assert (K34 : forall x, In x p3 -> In x p4)
    by (intros x; apply (raw_patterns_stages q x)).
  assert (K46 : forall x, In x p4 -> In x p6)
    by (intros x; apply (raw_patterns_stages q x)).
  assert (K6 : forall x, In x p6 -> In x (patterns nfkc lower q)).
  { intros x H. apply patterns_hold_raw; [assumption|].
    now apply (raw_patterns_stages q x). }
  assert (L4 : In (lower q) p4) by (now apply K34).
  split; [apply K6, K46, K34; subst p3; now do 2 apply append_if_keeps|].
  split; [apply K6, K46, K34; subst p3; now apply append_if_keeps|].
  split; [now apply K6, K46|].
  split.
  { apply K6. subst p6. apply append_if_keeps. subst p5. now apply append_if_differs. }
  split.
  { apply K6. subst p6. apply append_if_differs. subst p5. now apply append_if_keeps. }
  split.
  - intros H2. apply Z.leb_le in H2. split.
    + intros c Hc Hs. apply K6, K46. subst p4. rewrite H2.
      now apply add_bigrams_keeps, add_chars_adds.
    + intros l1 a b l2 E. apply K6, K46. subst p4. rewrite H2.
      rewrite E at 1. apply add_bigrams_adds.
  - intros Hw w Hin. apply Z.ltb_lt in Hw.
    destruct (raw_patterns_stages q w) as [E _].
    fold p1 p2 p3 p4 p5 p6 in E. rewrite Hw in E.
    split; apply patterns_hold_raw; try assumption; rewrite E;
      now apply add_words_adds.
Qed.

End PatternContents.

(** The pattern set of [Ab c]: its words, characters and bigrams. *)
Lemma patterns_hold_all_variants_witness :
  In (sample_lower (lit "Ab c")) (patterns sample_nfkc sample_lower (lit "Ab c")) /\
  In (lit "Ab") (patterns sample_nfkc sample_lower (lit "Ab c")) /\
  In (lit "b ") (patterns sample_nfkc sample_lower (lit "Ab c")).
Proof.
  pose proof (patterns_hold_all_variants sample_nfkc sample_lower (lit "Ab c")
                ltac:(discriminate)) as [_ [_ [H3 [_ [_ [H6 H7]]]]]].
  split; [exact H3|]. split.
  - apply H7; [vm_compute; reflexivity | vm_compute; tauto].
  - destruct (H6 ltac:(vm_compute; discriminate)) as [_ Hb].
    apply (Hb (lit "A") 98 32 (lit "c")). reflexivity.
Defined.

(** ** Queries that occur verbatim *)

Section VerbatimMatch.

Variable nfkc : pystr -> pystr.
Variable lower : pystr -> pystr.

Lemma patterns_head (q : pystr) :
  q <> [] -> exists rest, patterns nfkc lower q = q :: rest.
Proof.
  intros Hq. unfold patterns, normalize_search_text_ultra.
  destruct q as [|c q']; [congruence|]. cbn [is_empty snd].
  destruct (unique_loop_head (c :: q') (raw_patterns nfkc lower (c :: q')) [])
    as [u [Hu _]]; [constructor; [tauto | constructor]|].
  rewrite Hu. cbn [hd tl]. eauto.
Qed.

(** A pattern set headed by a query of two or more characters matches a
    text one of whose forms contains the query. *)
Lemma occurrence_matches (text q tv : pystr) (rest : list pystr) :
  text <> [] ->
  strip q = q ->
  2 <= len q ->
  In tv (variants nfkc lower text) ->
  contains q tv = true ->
  enhanced_search_match nfkc lower text (q :: rest) = true.
Proof.
  intros Ht Hs Hl Htv Hc.
  unfold enhanced_search_match. destruct text as [|c text]; [congruence|].
  apply existsb_exists. exists q. split; [now left|].
  apply existsb_exists. exists tv. split; [assumption|].
  apply existsb_exists. exists q. split; [now left|].
  apply pair_matches_iff. unfold admitted, hits. rewrite Hs. split.
  - repeat split; intros; lia.
  - right. split; [assumption|].
    destruct (4 <=? len q); [reflexivity | assumption].
Qed.

(** [X4] Verbatim occurrence.  A query of two or more characters without
    leading or trailing white space matches every non-empty text one of
    whose forms (as is, lower-cased, NFKC, kana-folded) contains the query
    as typed. *)
Theorem verbatim_query_matches (text q tv : pystr) :
  text <> [] ->
  strip q = q ->
  2 <= len q ->
  In tv (variants nfkc lower text) ->
  contains q tv = true ->
  enhanced_search_match nfkc lower text (patterns nfkc lower q) = true.
Proof.
  intros Ht Hs Hl Htv Hc.
  assert (Hq : q <> []) by (intros ->; cbn in Hl; lia).
  destruct (patterns_head q Hq) as [rest ->].
  now apply (occurrence_matches text q tv rest).
Qed.

End VerbatimMatch.

(** The query [report] against a file name in upper case: the lower-cased
    form of the text contains it. *)
Lemma verbatim_query_matches_witness :
  enhanced_search_match sample_nfkc sample_lower (lit "Annual REPORT 2024.pdf")
    (patterns sample_nfkc sample_lower (lit "report")) = true.
Proof.
  apply (verbatim_query_matches sample_nfkc sample_lower
           (lit "Annual REPORT 2024.pdf") (lit "report")
           (sample_lower (lit "Annual REPORT 2024.pdf"))).
  - discriminate.
  - reflexivity.
  - vm_compute. discriminate.
  - right. left. reflexivity.
  - vm_compute. reflexivity.
Defined.

(** ** The pattern cache *)

Section PatternCache.

Variable nfkc : pystr -> pystr.
Variable lower : pystr -> pystr.

(** A value of [self._pattern_cache]: the tuple the normalizer returns. *)
Definition pattern_tuple : Type := (pystr * pystr * pystr * list pystr)%type.

Definition pattern_cache := list (pystr * pattern_tuple).

(** [query in cache], [cache[query]] *)
Fixpoint cache_lookup (k : pystr) (c : pattern_cache) : option pattern_tuple :=
  match c with
  | [] => None
  | (k', v) :: c' => if PyStr.eqb k k' then Some v else cache_lookup k c'
  end.

(** [cache[query] = patterns] *)
Fixpoint cache_store (k : pystr) (v : pattern_tuple) (c : pattern_cache) : pattern_cache :=
  match c with
  | [] => [(k, v)]
  | (k', v') :: c' =>
      if PyStr.eqb k k' then (k, v) :: c' else (k', v') :: cache_store k v c'
  end.

(** [del cache[next(iter(cache))]] *)
Definition cache_drop_oldest (c : pattern_cache) : pattern_cache :=
  match c with
  | [] => []
  | (oldest_key, _) :: _ =>
      filter (fun kv => negb (PyStr.eqb oldest_key (fst kv))) c
  end.

(** [_get_search_patterns]; [max_size] is [self._pattern_cache_max_size]. *)
Definition _get_search_patterns
    (c : pattern_cache) (max_size : Z) (query : pystr) : pattern_tuple * pattern_cache :=
  match cache_lookup query c with
  | Some cached => (cached, c)
  | None =>
      let patterns := normalize_search_text_ultra nfkc lower query in
      let c := cache_store query patterns c in
      let c := if max_size <? Z.of_nat (List.length c) then cache_drop_oldest c else c in
      (patterns, c)
  end.

(** A run of lookups through the cache. *)
Fixpoint lookups (c : pattern_cache) (max_size : Z) (queries : list pystr)
  : list pattern_tuple * pattern_cache :=
  match queries with
  | [] => ([], c)
  | q :: qs =>
      let '(v, c1) := _get_search_patterns c max_size q in
      let '(vs, c2) := lookups c1 max_size qs in
      (v :: vs, c2)
  end.

(** Every cached value is what the normalizer gives for its key. *)
Definition coherent (c : pattern_cache) : Prop :=
  forall k v, In (k, v) c -> v = normalize_search_text_ultra nfkc lower k.

Lemma cache_lookup_In (k : pystr) (c : pattern_cache) (v : pattern_tuple) :
  cache_lookup k c = Some v -> In (k, v) c.
Proof.
  induction c as [|[k' v'] c IH]; cbn [cache_lookup]; [discriminate|].
  destruct (PyStr.eqb k k') eqn:E.
  - intros H. injection H as ->. apply PyStr.eqb_eq in E. subst. now left.
  - intros H. right. now apply IH.
Qed.

Lemma cache_store_In (k : pystr) (v : pattern_tuple) (c : pattern_cache) kv :
  In kv (cache_store k v c) -> kv = (k, v) \/ In kv c.
Proof.
  induction c as [|[k' v'] c IH]; cbn [cache_store].
  - intros [<- | []]. now left.
  - destruct (PyStr.eqb k k'); intros [<- | H]; auto.
    + right. now right.
    + right. now left.
    + destruct (IH H); auto. right. now right.
Qed.

Lemma cache_store_length (k : pystr) (v : pattern_tuple) (c : pattern_cache) :
  (List.length (cache_store k v c) <= S (List.length c))%nat.
Proof.
  induction c as [|[k' v'] c IH]; cbn [cache_store]; [cbn; lia|].
  destruct (PyStr.eqb k k'); cbn [List.length]; lia.
Qed.

Lemma cache_drop_oldest_length (c : pattern_cache) :
  c <> [] -> (S (List.length (cache_drop_oldest c)) <= List.length c)%nat.
Proof.
  destruct c as [|[k v] c]; [congruence|]. intros _.
  cbn [cache_drop_oldest filter fst]. rewrite PyStr.eqb_refl. cbn [negb List.length].
  pose proof (filter_length_le (fun kv => negb (PyStr.eqb k (fst kv))) c). lia.
Qed.

Lemma cache_drop_oldest_In (c : pattern_cache) kv :
  In kv (cache_drop_oldest c) -> In kv c.
Proof.
  destruct c as [|[k v] c]; [trivial|]. unfold cache_drop_oldest.
  intros H. now apply filter_In in H.
Qed.

Lemma get_search_patterns_ok (c : pattern_cache) (max_size : Z) (query : pystr) :
  coherent c ->
  fst (_get_search_patterns c max_size query) = normalize_search_text_ultra nfkc lower query /\
  coherent (snd (_get_search_patterns c max_size query)) /\
  (Z.of_nat (List.length c) <= max_size ->
   Z.of_nat (List.length (snd (_get_search_patterns c max_size query))) <= max_size).
Proof.
  intros Hc. unfold _get_search_patterns.
  destruct (cache_lookup query c) as [v|] eqn:E; cbn [fst snd].
  - split; [now apply Hc, cache_lookup_In | auto].
  - split; [reflexivity|].
    set (c1 := cache_store query (normalize_search_text_ultra nfkc lower query) c).
    assert (Hc1 : coherent c1).
    { intros k v H. apply cache_store_In in H as [H | H]; [congruence | now apply Hc]. }
    pose proof (cache_store_length query (normalize_search_text_ultra nfkc lower query) c)
      as Hl. fold c1 in Hl.
    destruct (max_size <? Z.of_nat (List.length c1)) eqn:F.
    + split.
      * intros k v H. apply Hc1. now apply cache_drop_oldest_In.
      * intros Hm. assert (Hne : c1 <> []).
        { intros E1. rewrite E1 in F. apply Z.ltb_lt in F. cbn in F. lia. }
        pose proof (cache_drop_oldest_length c1 Hne). lia.
    + split; [assumption|]. intros _. apply Z.ltb_ge in F. lia.
Qed.

(** [X5] The pattern cache is transparent and bounded.  Starting from an
    empty cache, every lookup of a sequence of queries returns exactly
    what [normalize_search_text_ultra] returns for that query, and the
    cache never holds more than [max_size] entries. *)
Theorem pattern_cache_transparent (max_size : Z) (queries : list pystr) :
  0 <= max_size ->
  fst (lookups [] max_size queries)
    = map (normalize_search_text_ultra nfkc lower) queries /\
  Z.of_nat (List.length (snd (lookups [] max_size queries))) <= max_size.
Proof.
  intros Hm.
  assert (G : forall qs c, coherent c -> Z.of_nat (List.length c) <= max_size ->
            fst (lookups c max_size qs) = map (normalize_search_text_ultra nfkc lower) qs /\
            Z.of_nat (List.length (snd (lookups c max_size qs))) <= max_size).
  { induction qs as [|q qs IH]; intros c Hc Hl; cbn [lookups map]; [auto|].
    destruct (get_search_patterns_ok c max_size q Hc) as [E1 [E2 E3]].
    destruct (_get_search_patterns c max_size q) as [v c1]. cbn [fst snd] in *.
    destruct (IH c1 E2 (E3 Hl)) as [F1 F2].
    destruct (lookups c1 max_size qs) as [vs c2]. cbn [fst snd] in *.
    split; [now rewrite E1, F1 | assumption]. }
  apply G; [intros k v [] | cbn; lia].
Qed.

End PatternCache.

(** Three lookups, one of them repeated, with room for one entry. *)
Lemma pattern_cache_transparent_witness :
  fst (lookups sample_nfkc sample_lower [] 1 [lit "ab"; lit "cd"; lit "ab"])
    = map (normalize_search_text_ultra sample_nfkc sample_lower)
          [lit "ab"; lit "cd"; lit "ab"] /\
  Z.of_nat (List.length
    (snd (lookups sample_nfkc sample_lower [] 1 [lit "ab"; lit "cd"; lit "ab"]))) <= 1.
Proof.
  apply (pattern_cache_transparent sample_nfkc sample_lower 1
           [lit "ab"; lit "cd"; lit "ab"]).
  lia.
Defined.

End TextMore.

(* ================================================================== *)
(** * More of the query planner *)
(* ================================================================== *)

Module PlannerMore.

Import Rank.

(** ** [_deduplicate_and_rank] *)

(** [get_layer_priority] of [_deduplicate_and_rank]. *)
Definition get_layer_priority (layer_name : pystr) : Z :=
  if starts_with (lit "complete") layer_name then 1000
  else if PyStr.eqb layer_name (lit "immediate") then 100
  else if PyStr.eqb layer_name (lit "hot") then 10
  else 1.

(** The sort key of [_deduplicate_and_rank]. *)
Definition plain_key (x : pyval) : Z * Q :=
  match x with
  | PyDict d =>
      (get_layer_priority (match layer d with Some l => l | None => lit "unknown" end),
       match relevance_score d with Some s => s | None => 0%Q end)
  | PyOther => (0, 0%Q)
  end.

(** [_deduplicate_and_rank] of [file_search_app.py]. *)
Definition _deduplicate_and_rank (results : list pyval) : list pyval :=
  let sorted_results :=
    PySort.sort_desc (fun x y => key_ltb (plain_key x) (plain_key y)) results in
  dedup [] sorted_results.

Lemma insert_desc_ext {A : Type} (f g : A -> A -> bool) (x : A) (l : list A) :
  (forall y, In y l -> f x y = g x y) ->
  PySort.insert_desc f x l = PySort.insert_desc g x l.
Proof.
  induction l as [|y l IH]; intros H; [reflexivity|].
  cbn [PySort.insert_desc]. rewrite <- (H y (or_introl eq_refl)).
  destruct (f x y); [|reflexivity].
  f_equal. apply IH. intros z Hz. apply H. now right.
Qed.

Lemma sort_desc_ext {A : Type} (f g : A -> A -> bool) (l : list A) :
  (forall x y, In x l -> In y l -> f x y = g x y) ->
  PySort.sort_desc f l = PySort.sort_desc g l.
Proof.
  induction l as [|x l IH]; intros H; [reflexivity|].
  cbn [PySort.sort_desc fold_right]. fold (PySort.sort_desc f l) (PySort.sort_desc g l).
  rewrite <- IH by (intros a b Ha Hb; apply H; now right).
  apply insert_desc_ext. intros y Hy.
  apply H; [now left|]. right.
  eapply Permutation_in; [apply PySort.sort_desc_perm | exact Hy].
Qed.

Lemma plain_key_tier_row (r : pyval) :
  tier_row r \/ r = PyOther -> plain_key r = get_priority r.
Proof.
  intros [[d [l [-> [Hl Ht]]]] | ->]; [|reflexivity].
  pose proof (tier_label_priority d l Hl Ht) as H.
  unfold tier_priority, get_priority in *. cbn [plain_key fst] in *.
  rewrite Hl in *. cbn [fst] in H. rewrite H. reflexivity.
Qed.

(** [X6] The two dedup-and-rank functions agree.  On rows collected from
    the tiers (and on entries that are not dicts) [_deduplicate_and_rank]
    and [_deduplicate_and_rank_optimized] return the same list. *)
Theorem dedup_rank_variants_agree (results : list pyval) :
  (forall r, In r results -> tier_row r \/ r = PyOther) ->
  _deduplicate_and_rank results = _deduplicate_and_rank_optimized results.
Proof.
  intros H. rewrite rank_unfold. unfold _deduplicate_and_rank, sort_desc.
  f_equal. apply sort_desc_ext. intros x y Hx Hy.
  now rewrite (plain_key_tier_row x (H x Hx)), (plain_key_tier_row y (H y Hy)).
Qed.

Lemma dedup_rank_variants_agree_witness :
  _deduplicate_and_rank (PyOther :: tier_rows)
  = _deduplicate_and_rank_optimized (PyOther :: tier_rows).
Proof.
  apply (dedup_rank_variants_agree (PyOther :: tier_rows)).
  intros r Hr. cbn [tier_rows In] in Hr.
  destruct Hr as [<- | [<- | [<- | [<- | [<- | [<- | []]]]]]];
    [now right | left ..];
    eexists; eexists; (split; [reflexivity|]); (split; [reflexivity|]);
    unfold tier_label.
  - right; left; reflexivity.
  - right; right. exists (lit "3_like"). reflexivity.
  - left; reflexivity.
  - right; left; reflexivity.
  - right; right. exists (lit "0"). reflexivity.
Defined.

(** ** [unified_three_layer_search] *)

(** The counters of [self.stats] the unified search touches
    ([avg_search_time], a float, is left out). *)
Record ustats := mkUStats {
  u_search_count : Z;
  u_optimization_count : Z
}.

(** [s.endswith(suffix)] *)
Definition ends_with (suffix s : pystr) : bool := starts_with (rev suffix) (rev s).

Section Unified.

(** [str.lower] *)
Variable lower : pystr -> pystr.

(** The three tier searches; [None] stands for a raised exception. *)
Variable _search_immediate_layer : pystr -> option (list pyval).
Variable _search_hot_layer : pystr -> option (list pyval).
Variable _search_complete_layer : pystr -> Z -> option (list pyval).

(** [check_auto_optimization] of [search_system.py]. *)
Definition check_auto_optimization (st : ustats) : ustats :=
  if (u_search_count st mod 1000 =? 0) && (0 <? u_search_count st)
  then mkUStats (u_search_count st) (u_optimization_count st + 1)
  else st.

(** The type filter: [file_path.lower().endswith(file_type_filter.lower())]. *)
Definition passes_filter (file_type_filter : pystr) (r : pyval) : bool :=
  let file_path := match row_path r with Some p => p | None => [] end in
  ends_with (lower file_type_filter) (lower file_path).

(** Everything after the rows are collected. *)
Definition rank_filter_count
    (indexing_in_progress : bool) (st : ustats) (results : list pyval)
    (max_results : Z) (file_type_filter : pystr) : list pyval * ustats :=
  let unique_results := _deduplicate_and_rank_optimized results in
  let unique_results :=
    if PyStr.eqb file_type_filter (lit "all") then unique_results
    else filter (passes_filter file_type_filter) unique_results in
  let st := mkUStats (u_search_count st + 1) (u_optimization_count st) in
  let st := if indexing_in_progress then st else check_auto_optimization st in
  (Planner.list_slice_to max_results unique_results, st).

(** [unified_three_layer_search]: the results, the counters afterwards and
    the requests made to the tiers.  An exception of a tier search ends
    the call with the empty list, except for the shard search made while
    indexing, whose exception is ignored. *)
Definition unified_three_layer_search
    (indexing_in_progress : bool) (st : ustats)
    (query : pystr) (max_results : Z) (file_type_filter : pystr)
  : list pyval * ustats * list Planner.event :=
  if indexing_in_progress then
    match _search_immediate_layer query with
    | None => ([], st, [Planner.AskImmediate query])
    | Some immediate_results =>
        let results := Planner.list_slice_to (max_results / 2) immediate_results in
        match _search_hot_layer query with
        | None => ([], st, [Planner.AskImmediate query; Planner.AskHot query])
        | Some hot_results =>
            let results := results ++ Planner.list_slice_to (max_results / 2) hot_results in
            if Z.of_nat (List.length results) <? max_results / 4 then
              let results :=
                match _search_complete_layer query (max_results / 4) with
                | Some db_results => results ++ db_results
                | None => results
                end in
              let '(out, st) :=
                rank_filter_count true st results max_results file_type_filter in
              (out, st,
               [Planner.AskImmediate query; Planner.AskHot query;
                Planner.AskComplete query (max_results / 4)])
            else
              let '(out, st) :=
                rank_filter_count true st results max_results file_type_filter in
              (out, st, [Planner.AskImmediate query; Planner.AskHot query])
        end
    end
  else
    match _search_complete_layer query (max_results / 2) with
    | None => ([], st, [Planner.AskComplete query (max_results / 2)])
    | Some complete_results =>
        match _search_immediate_layer query with
        | None =>
            ([], st, [Planner.AskComplete query (max_results / 2);
                      Planner.AskImmediate query])
        | Some immediate_results =>
            match _search_hot_layer query with
            | None =>
                ([], st, [Planner.AskComplete query (max_results / 2);
                          Planner.AskImmediate query; Planner.AskHot query])
            | Some hot_results =>
                let results :=
                  complete_results
                  ++ Planner.list_slice_to (max_results / 4) immediate_results
                  ++ Planner.list_slice_to (max_results / 4) hot_results in
                let '(out, st) :=
                  rank_filter_count false st results max_results file_type_filter in
                (out, st,
                 [Planner.AskComplete query (max_results / 2);
                  Planner.AskImmediate query; Planner.AskHot query])
            end
        end
    end.

(** ** Facts *)

Lemma NoDup_map_filter {A B : Type} (f : A -> B) (g : A -> bool) (l : list A) :
  NoDup (map f l) -> NoDup (map f (filter g l)).
Proof.
  induction l as [|x l IH]; cbn [map filter]; intros H; [constructor|].
  inversion H as [|? ? Hn Hl]; subst.
  destruct (g x); [|now apply IH]. cbn [map]. constructor; [|now apply IH].
  intros Hin. apply Hn. apply in_map_iff in Hin as [y [Hy Hin]].
  apply filter_In in Hin as [Hin _]. apply in_map_iff. eauto.
Qed.

Lemma firstn_In {A : Type} (n : nat) (l : list A) (x : A) :
  In x (firstn n l) -> In x l.
Proof.
  intros H. rewrite <- (firstn_skipn n l). apply in_or_app. now left.
Qed.

Lemma NoDup_map_firstn {A B : Type} (f : A -> B) (n : nat) (l : list A) :
  NoDup (map f l) -> NoDup (map f (firstn n l)).
Proof.
  revert n. induction l as [|x l IH]; intros [|n] H; cbn [firstn map]; try constructor.
  - inversion H as [|? ? Hn Hl]; subst. intros Hin. apply Hn.
    apply in_map_iff in Hin as [y [Hy Hin]]. apply firstn_In in Hin.
    apply in_map_iff. eauto.
  - inversion H; subst. now apply IH.
Qed.

Lemma sorted_filter {A : Type} (R : A -> A -> Prop) (g : A -> bool) (l : list A) :
  StronglySorted R l -> StronglySorted R (filter g l).
Proof.
  induction 1 as [|x l Hs IH Hx]; cbn [filter]; [constructor|].
  destruct (g x); [|assumption]. constructor; [assumption|].
  rewrite Forall_forall in *. intros y Hy. apply Hx. now apply filter_In in Hy.
Qed.

Lemma sorted_firstn {A : Type} (R : A -> A -> Prop) (n : nat) (l : list A) :
  StronglySorted R l -> StronglySorted R (firstn n l).
Proof.
  intros H. revert n. induction H as [|x l Hs IH Hx]; intros [|n]; cbn [firstn];
    try constructor.
  - apply IH.
  - rewrite Forall_forall in *. intros y Hy. apply Hx. now apply firstn_In in Hy.
Qed.

Lemma slice_nonneg {A : Type} (n : Z) (l : list A) :
  0 <= n -> Planner.list_slice_to n l = firstn (Z.to_nat n) l.
Proof.
  intros H. unfold Planner.list_slice_to.
  now replace (0 <=? n) with true by (symmetry; apply Z.leb_le; lia).
Qed.

(** What [rank_filter_count] returns. *)
Definition well_ranked
    (max_results : Z) (file_type_filter : pystr) (results out : list pyval) : Prop :=
  Z.of_nat (List.length out) <= max_results /\
  NoDup (map row_path out) /\
  StronglySorted ranks_before out /\
  (forall k, In k out -> In k results /\ exists p, row_path k = Some p) /\
  (file_type_filter <> lit "all" ->
   forall k, In k out -> passes_filter file_type_filter k = true).

Lemma rank_filter_count_ok
    (ind : bool) (st : ustats) (results : list pyval) (m : Z) (flt : pystr) :
  0 <= m ->
  well_ranked m flt results (fst (rank_filter_count ind st results m flt)) /\
  u_search_count (snd (rank_filter_count ind st results m flt)) = u_search_count st + 1.
Proof.
  intros Hm. unfold rank_filter_count. cbn [fst snd]. split.
  - rewrite slice_nonneg by assumption. rewrite rank_unfold.
    pose proof (dedup_NoDup [] (sort_desc results)) as Hnd.
    pose proof (dedup_sorted [] _ (rank_sort_sorted results)) as Hs.
    assert (Hin : forall k, In k (dedup [] (sort_desc results)) ->
                            In k results /\ exists p, row_path k = Some p).
    { intros k Hk. apply dedup_In in Hk as [H1 [p [Hp _]]].
      split; [|eauto]. eapply Permutation_in; [apply rank_sort_perm | exact H1]. }
    unfold well_ranked.
    destruct (PyStr.eqb flt (lit "all")) eqn:E.
    + apply PyStr.eqb_eq in E. repeat split.
      * pose proof (firstn_le_length (Z.to_nat m) (dedup [] (sort_desc results))). 
        rewrite length_firstn. lia.
      * now apply NoDup_map_firstn.
      * now apply sorted_firstn.
      * apply Hin. eapply firstn_In; eauto.
      * apply Hin. eapply firstn_In; eauto.
      * congruence.
    + repeat split.
      * rewrite length_firstn. lia.
      * now apply NoDup_map_firstn, NoDup_map_filter.
      * now apply sorted_firstn, sorted_filter.
      * apply firstn_In in H. apply filter_In in H as [H _]. now apply Hin.
      * apply firstn_In in H. apply filter_In in H as [H _]. now apply Hin.
      * intros _ k Hk. apply firstn_In in Hk. now apply filter_In in Hk.
  - destruct ind; [reflexivity|]. unfold check_auto_optimization. cbn [u_search_count].
    destruct (_ && _); reflexivity.
Qed.

(** A tier search raised: the empty result, nothing counted. *)
Ltac raised_case :=
  split; [cbn; lia|]; split; [constructor|]; split; [constructor|];
  split; [intros ? []|]; split; [intros _ ? []|];
  split; [intros _; split; reflexivity|];
  let H1 := fresh in let H2 := fresh in let H3 := fresh in
  intros H1 H2 H3; exfalso;
  first [now apply H1 | now apply H2 | now apply H3].

(** No tier search raised: the ranked result, counted once. *)
Ltac counted_case R :=
  let H1 := fresh in let H2 := fresh in let H3 := fresh in
  let H4 := fresh in let H5 := fresh in let H6 := fresh in
  destruct R as [H1 [H2 [H3 [H4 [H5 H6]]]]];
  split; [exact H1|]; split; [exact H2|]; split; [exact H3|];
  split; [exact H4|]; split; [exact H5|];
  split; [intros [? | [? | [? ?]]]; discriminate | intros _ _ _; exact H6].

(** [X7] Result of the unified search.  For [max_results >= 0] the list
    returned by [unified_three_layer_search] has at most [max_results]
    rows, no two rows with the same path, every row carries a path, the
    rows are in rank order, and with a type filter other than ["all"]
    every row's lower-cased path ends with the lower-cased filter.  When
    the search of the immediate tier or of the hot tier raises, or the
    shard search raises while no indexing is in progress, the result is
    empty and the counters are as before; otherwise the search is counted
    once. *)
Theorem unified_search_result
    (ind : bool) (st : ustats) (query : pystr) (m : Z) (flt : pystr) :
  0 <= m ->
  let '(out, st', ev) := unified_three_layer_search ind st query m flt in
  Z.of_nat (List.length out) <= m /\
  NoDup (map row_path out) /\
  StronglySorted ranks_before out /\
  (forall k, In k out -> exists p, row_path k = Some p) /\
  (flt <> lit "all" -> forall k, In k out -> passes_filter flt k = true) /\
  (_search_immediate_layer query = None \/ _search_hot_layer query = None \/
   ind = false /\ _search_complete_layer query (m / 2) = None ->
   out = [] /\ st' = st) /\
  (_search_immediate_layer query <> None -> _search_hot_layer query <> None ->
   (ind = false -> _search_complete_layer query (m / 2) <> None) ->
   u_search_count st' = u_search_count st + 1).
Proof.
  intros Hm. unfold unified_three_layer_search.
  assert (Ranked : forall i results,
            let '(out, st') := rank_filter_count i st results m flt in
            Z.of_nat (List.length out) <= m /\
            NoDup (map row_path out) /\ StronglySorted ranks_before out /\
            (forall k, In k out -> exists p, row_path k = Some p) /\
            (flt <> lit "all" -> forall k, In k out -> passes_filter flt k = true) /\
            u_search_count st' = u_search_count st + 1).
  { intros i results.
    pose proof (rank_filter_count_ok i st results m flt Hm) as [[H1 [H2 [H3 [H4 H5]]]] H6].
    destruct (rank_filter_count i st results m flt) as [out st']. cbn [fst snd] in *.
    split; [assumption|]. split; [assumption|]. split; [assumption|].
    split; [intros k Hk; now apply H4|]. split; assumption. }
  destruct ind.
  - destruct (_search_immediate_layer query) as [imm|]; [|raised_case].
    destruct (_search_hot_layer query) as [hot|]; [|raised_case].
    destruct (_ <? _).
    + match goal with |- context [rank_filter_count true st ?r m flt] =>
        specialize (Ranked true r);
        destruct (rank_filter_count true st r m flt) as [out st'] end.
      counted_case Ranked.
    + match goal with |- context [rank_filter_count true st ?r m flt] =>
        specialize (Ranked true r);
        destruct (rank_filter_count true st r m flt) as [out st'] end.
      counted_case Ranked.
  - destruct (_search_complete_layer query (m / 2)) as [db|]; [|raised_case].
    destruct (_search_immediate_layer query) as [imm|]; [|raised_case].
    destruct (_search_hot_layer query) as [hot|]; [|raised_case].
    match goal with |- context [rank_filter_count false st ?r m flt] =>
      specialize (Ranked false r);
      destruct (rank_filter_count false st r m flt) as [out st'] end.
    counted_case Ranked.
Qed.

(** [X8] Shards are spared while indexing.  During indexing the unified
    search asks the two cache tiers first, and asks the shard stores only
    when the caches together gave fewer than [max_results // 4] rows
    (each cache contributing at most [max_results // 2]); an exception of
    that shard search does not fail the search. *)
Theorem indexing_search_spares_shards
    (st : ustats) (query : pystr) (m : Z) (flt : pystr)
    (imm hot : list pyval) :
  _search_immediate_layer query = Some imm ->
  _search_hot_layer query = Some hot ->
  let cached := Planner.list_slice_to (m / 2) imm ++ Planner.list_slice_to (m / 2) hot in
  let r := unified_three_layer_search true st query m flt in
  (m / 4 <= Z.of_nat (List.length cached) ->
     snd r = [Planner.AskImmediate query; Planner.AskHot query] /\
     fst r = rank_filter_count true st cached m flt) /\
  (Z.of_nat (List.length cached) < m / 4 ->
     snd r = [Planner.AskImmediate query; Planner.AskHot query;
              Planner.AskComplete query (m / 4)] /\
     (_search_complete_layer query (m / 4) = None ->
        fst r = rank_filter_count true st cached m flt)).
Proof.
  intros Hi Hh cached r. subst r. unfold unified_three_layer_search.
  rewrite Hi, Hh. fold cached. split; intros H.
  - replace (Z.of_nat (List.length cached) <? m / 4) with false
      by (symmetry; apply Z.ltb_ge; lia).
    destruct (rank_filter_count true st cached m flt). auto.
  - replace (Z.of_nat (List.length cached) <? m / 4) with true
      by (symmetry; apply Z.ltb_lt; lia).
    split.
    + match goal with |- context [rank_filter_count true st ?r m flt] =>
        destruct (rank_filter_count true st r m flt) end. reflexivity.
    + intros ->. destruct (rank_filter_count true st cached m flt). reflexivity.
Qed.

End Unified.

(** A search for [.TXT] files over the mixed rows of the three tiers. *)
Definition sample_immediate (query : pystr) : option (list pyval) :=
  Some [row "/d/p.txt" "immediate" 1; row "/d/r.pdf" "immediate" 1].

Definition sample_hot (query : pystr) : option (list pyval) :=
  Some [row "/d/p.txt" "hot" (4 # 5); row "/d/q.txt" "hot" (4 # 5)].

Definition sample_complete (query : pystr) (limit : Z) : option (list pyval) :=
  Some [row "/d/p.txt" "complete_db_0" (5 # 2)].

Definition sample_unified :=
  unified_three_layer_search Text.sample_lower
    sample_immediate sample_hot sample_complete.

(** The same search with a hot tier whose search raises. *)
Example unified_hot_search_raises :
  unified_three_layer_search Text.sample_lower sample_immediate (fun _ => None)
    sample_complete false (mkUStats 999 0) (lit "p") 10 (lit ".TXT")
  = ([], mkUStats 999 0,
     [Planner.AskComplete (lit "p") 5; Planner.AskImmediate (lit "p");
      Planner.AskHot (lit "p")]).
Proof. vm_compute. reflexivity. Qed.

Example unified_filtered :
  sample_unified false (mkUStats 999 0) (lit "p") 10 (lit ".TXT")
  = ([row "/d/p.txt" "complete_db_0" (5 # 2); row "/d/q.txt" "hot" (4 # 5)],
     mkUStats 1000 1,
     [Planner.AskComplete (lit "p") 5; Planner.AskImmediate (lit "p");
      Planner.AskHot (lit "p")]).
Proof. vm_compute. reflexivity. Qed.

Lemma unified_search_result_witness :
  let '(out, st', ev) :=
    sample_unified false (mkUStats 999 0) (lit "p") 10 (lit ".TXT") in
  Z.of_nat (List.length out) <= 10 /\
  NoDup (map row_path out) /\
  StronglySorted ranks_before out /\
  (forall k, In k out -> exists p, row_path k = Some p) /\
  (lit ".TXT" <> lit "all" ->
   forall k, In k out -> passes_filter Text.sample_lower (lit ".TXT") k = true) /\
  (sample_immediate (lit "p") = None \/ sample_hot (lit "p") = None \/
   false = false /\ sample_complete (lit "p") (10 / 2) = None ->
   out = [] /\ st' = mkUStats 999 0) /\
  (sample_immediate (lit "p") <> None -> sample_hot (lit "p") <> None ->
   (false = false -> sample_complete (lit "p") (10 / 2) <> None) ->
   u_search_count st' = u_search_count (mkUStats 999 0) + 1).
Proof.
  apply (unified_search_result Text.sample_lower
    sample_immediate sample_hot sample_complete
    false (mkUStats 999 0) (lit "p") 10 (lit ".TXT")).
  lia.
Defined.

Lemma indexing_search_spares_shards_witness :
  snd (sample_unified true (mkUStats 0 0) (lit "p") 10 (lit "all"))
  = [Planner.AskImmediate (lit "p"); Planner.AskHot (lit "p")].
Proof.
  refine (proj1 (proj1 (indexing_search_spares_shards Text.sample_lower
    sample_immediate sample_hot sample_complete
    (mkUStats 0 0) (lit "p") 10 (lit "all") _ _ eq_refl eq_refl) _)).
  vm_compute. discriminate.
Defined.

End PlannerMore.

(* ================================================================== *)
(** * More of the tiered cache *)
(* ================================================================== *)

Module CacheMore.

Import Cache.

(** ** Dicts *)

Lemma dict_lookup_set_same {V : Type} (k : pystr) (v : V) (d : list (pystr * V)) :
  dict_lookup k (dict_set k v d) = Some v.
Proof.
  induction d as [|[k' v'] d IH]; cbn [dict_set dict_lookup].
  - now rewrite PyStr.eqb_refl.
  - destruct (PyStr.eqb k k') eqn:E; cbn [dict_lookup].
    + now rewrite PyStr.eqb_refl.
    + now rewrite E.
Qed.

Lemma dict_lookup_set_other {V : Type} (k k' : pystr) (v : V) (d : list (pystr * V)) :
  k <> k' -> dict_lookup k (dict_set k' v d) = dict_lookup k d.
Proof.
  intros Hne. apply PyStr.eqb_neq in Hne.
  induction d as [|[k2 v2] d IH]; cbn [dict_set dict_lookup].
  - now rewrite Hne.
  - destruct (PyStr.eqb k' k2) eqn:E; cbn [dict_lookup].
    + apply PyStr.eqb_eq in E. subst k2. now rewrite Hne.
    + now rewrite IH.
Qed.

Lemma dict_len_set {V : Type} (k : pystr) (v : V) (d : list (pystr * V)) :
  dict_len d <= dict_len (dict_set k v d) <= dict_len d + 1.
Proof.
  unfold dict_len. induction d as [|[k' v'] d IH]; cbn [dict_set List.length].
  - lia.
  - destruct (PyStr.eqb k k'); cbn [List.length]; lia.
Qed.

Lemma dict_len_del {V : Type} (k : pystr) (d : list (pystr * V)) :
  dict_len (dict_del k d) <= dict_len d.
Proof.
  unfold dict_len, dict_del.
  pose proof (filter_length_le (fun kv => negb (PyStr.eqb k (fst kv))) d). lia.
Qed.

Lemma dict_len_del_present {V : Type} (k : pystr) (d : list (pystr * V)) :
  dict_has k d = true -> dict_len (dict_del k d) + 1 <= dict_len d.
Proof.
  unfold dict_len, dict_del, dict_has.
  induction d as [|[k' v'] d IH]; cbn [existsb filter List.length fst]; [discriminate|].
  destruct (PyStr.eqb k k') eqn:E; cbn [negb orb].
  - intros _.
    pose proof (filter_length_le (fun kv => negb (PyStr.eqb k (fst kv))) d). lia.
  - intros H. specialize (IH H). cbn [List.length]. lia.
Qed.

Lemma dict_len_del_many {V : Type} (ks d : list (pystr * V)) :
  dict_len (fold_left (fun acc kv => dict_del (fst kv) acc) ks d) <= dict_len d.
Proof.
  revert d. induction ks as [|kv ks IH]; intros d; cbn [fold_left]; [lia|].
  etransitivity; [apply IH | apply dict_len_del].
Qed.

Lemma dict_has_key_In {V : Type} (kv : pystr * V) (d : list (pystr * V)) :
  In kv d -> dict_has (fst kv) d = true.
Proof.
  intros H. unfold dict_has. apply existsb_exists. exists kv.
  split; [assumption | apply PyStr.eqb_refl].
Qed.

(** ** Capacity of the tiers *)

Lemma sort_keys_values (d : tier) (keyed : list (Z * (pystr * cache_value))) :
  sort_keys d = Some keyed -> map snd keyed = d.
Proof.
  revert keyed. induction d as [|kv d IH]; intros keyed; cbn [sort_keys].
  - now intros [= <-].
  - destruct (indexed_time_of (snd kv)) as [t|]; [|discriminate].
    destruct (sort_keys d) as [keyed'|]; [|discriminate].
    intros [= <-]. cbn [map snd]. f_equal. now apply IH.
Qed.

Lemma sort_by_indexed_time_perm (d sorted_items : tier) :
  sort_by_indexed_time d = Some sorted_items -> Permutation sorted_items d.
Proof.
  unfold sort_by_indexed_time. destruct (sort_keys d) as [keyed|] eqn:E; [|discriminate].
  cbn [option_map]. intros [= <-].
  rewrite <- (sort_keys_values d keyed E). apply Permutation_map.
  apply PySort.sort_desc_perm.
Qed.

(** A clean-up that does not raise brings the tier back under its limit. *)
Lemma evict_immediate_bound (max : Z) (d d' : tier) :
  evict_immediate max d = Some d' ->
  0 <= max -> dict_len d <= max + 1 -> dict_len d' <= max.
Proof.
  unfold evict_immediate. intros He Hm Hl.
  destruct (max <? dict_len d) eqn:E;
    [|apply Z.ltb_ge in E; injection He as <-; lia].
  apply Z.ltb_lt in E.
  destruct (sort_by_indexed_time d) as [sorted_items|] eqn:Es; [|discriminate].
  injection He as <-.
  assert (Hk : exists n, Z.to_nat (Z.max 1 (max / 10)) = S n).
  { exists (Nat.pred (Z.to_nat (Z.max 1 (max / 10)))). lia. }
  destruct Hk as [n ->].
  pose proof (sort_by_indexed_time_perm d sorted_items Es) as Hp.
  destruct sorted_items as [|kv ks].
  - apply Permutation_length in Hp. unfold dict_len in E. cbn in Hp. lia.
  - cbn [firstn fold_left].
    etransitivity; [apply dict_len_del_many|].
    assert (Hin : In kv d) by (eapply Permutation_in; [exact Hp | now left]).
    pose proof (dict_len_del_present (fst kv) d (dict_has_key_In kv d Hin)). lia.
Qed.

(** File entries stay file entries. *)
Lemma files_only_set (k : pystr) (data : entry) (d : tier) :
  files_only d -> files_only (dict_set k (FileEntry data) d).
Proof.
  unfold files_only. induction 1 as [|[k' v] d Hv Hd IH]; cbn [dict_set].
  - constructor; [now exists data | constructor].
  - destruct (PyStr.eqb k k'); constructor; auto. now exists data.
Qed.

Lemma files_only_del (k : pystr) (d : tier) :
  files_only d -> files_only (dict_del k d).
Proof.
  unfold files_only, dict_del. rewrite !Forall_forall.
  intros H kv Hin. apply filter_In in Hin as [Hin _]. now apply H.
Qed.

Lemma files_only_evict (max : Z) (d d' : tier) :
  evict_immediate max d = Some d' -> files_only d -> files_only d'.
Proof.
  unfold evict_immediate. destruct (max <? dict_len d); [|now intros [= <-]].
  destruct (sort_by_indexed_time d) as [sorted_items|]; [|discriminate].
  intros [= <-]. generalize (firstn (Z.to_nat (Z.max 1 (max / 10))) sorted_items).
  intros ks. revert d. induction ks as [|kv ks IH]; intros d H; cbn [fold_left];
    [assumption|].
  apply IH. now apply files_only_del.
Qed.

(** ** Where the items of a dict come from *)

Lemma dict_set_In {V : Type} (k : pystr) (v : V) (d : list (pystr * V)) :
  In (k, v) (dict_set k v d).
Proof.
  induction d as [|[k' v'] d IH]; cbn [dict_set]; [now left|].
  destruct (PyStr.eqb k k'); [now left | now right].
Qed.

Lemma dict_set_In_inv {V : Type} (k : pystr) (v : V) (d : list (pystr * V))
    (kv : pystr * V) :
  In kv (dict_set k v d) -> kv = (k, v) \/ In kv d.
Proof.
  induction d as [|[k' v'] d IH]; cbn [dict_set].
  - intros [<- | []]. now left.
  - destruct (PyStr.eqb k k'); intros [<- | H]; auto.
    + right. now right.
    + right. now left.
    + destruct (IH H); auto. right. now right.
Qed.

Lemma dict_del_In {V : Type} (k : pystr) (d : list (pystr * V)) (kv : pystr * V) :
  In kv (dict_del k d) -> In kv d.
Proof. unfold dict_del. intros H. now apply filter_In in H. Qed.

Lemma dict_lookup_In {V : Type} (k : pystr) (v : V) (d : list (pystr * V)) :
  dict_lookup k d = Some v -> In (k, v) d.
Proof.
  induction d as [|[k' v'] d IH]; cbn [dict_lookup]; [discriminate|].
  destruct (PyStr.eqb k k') eqn:E.
  - apply PyStr.eqb_eq in E. intros [= ->]. subst. now left.
  - intros H. right. now apply IH.
Qed.

Lemma evict_immediate_In (max : Z) (d d' : tier) (kv : pystr * cache_value) :
  evict_immediate max d = Some d' -> In kv d' -> In kv d.
Proof.
  unfold evict_immediate. destruct (max <? dict_len d); [|now intros [= <-]].
  destruct (sort_by_indexed_time d) as [sorted_items|]; [|discriminate].
  intros [= <-]. generalize (firstn (Z.to_nat (Z.max 1 (max / 10))) sorted_items).
  intros ks. revert d. induction ks as [|x ks IH]; intros d; cbn [fold_left]; [auto|].
  intros H. apply IH in H. now apply dict_del_In in H.
Qed.

Lemma evict_hot_In (max : Z) (d : dict) (kv : pystr * entry) :
  In kv (evict_hot max d) -> In kv d.
Proof.
  unfold evict_hot. destruct (max <? dict_len d); [|auto].
  destruct d as [|x d]; [auto|]. apply dict_del_In.
Qed.

Lemma oldest_from_key (best : pystr * entry) (d : dict) :
  exists kv, In kv (best :: d) /\ oldest_from best d = fst kv.
Proof.
  revert best. induction d as [|x d IH]; intros best; cbn [oldest_from].
  - exists best. split; [now left | reflexivity].
  - destruct (indexed_time (snd x) <? indexed_time (snd best)).
    + destruct (IH x) as [kv [Hin E]]. exists kv. split; [now right | assumption].
    + destruct (IH best) as [kv [Hin E]]. exists kv. split; [|assumption].
      destruct Hin as [<- | Hin]; [now left | now right; right].
Qed.

Lemma evict_hot_bound (max : Z) (d : dict) :
  0 <= max -> dict_len d <= max + 1 -> dict_len (evict_hot max d) <= max.
Proof.
  intros Hm Hl. unfold evict_hot.
  destruct (max <? dict_len d) eqn:E; [|apply Z.ltb_ge in E; lia].
  apply Z.ltb_lt in E. destruct d as [|kv d]; [cbn in E; lia|].
  destruct (oldest_from_key kv d) as [x [Hin ->]].
  pose proof (dict_len_del_present (fst x) (kv :: d) (dict_has_key_In x _ Hin)). lia.
Qed.

Section EngineMore.

Variable lower : pystr -> pystr.

(** Both tiers are within their capacity. *)
Definition within_capacity (s : engine) : Prop :=
  dict_len (immediate_cache s) <= max_immediate_cache s /\
  dict_len (hot_cache s) <= max_hot_cache s.

Lemma step_limits (s : engine) (o : op) :
  max_immediate_cache (step lower s o) = max_immediate_cache s /\
  max_hot_cache (step lower s o) = max_hot_cache s.
Proof.
  destruct o as [p f | p c f | p c h f]; cbn [step].
  - pose proof (index_outcome lower s p f) as [E1 [E2 _]]. auto.
  - unfold _move_to_hot_layer, take_from_immediate, put_into_hot.
    destruct (dict_lookup p (immediate_cache s)) as [[b|rows]|]; auto.
  - unfold _move_to_complete_layer, take_from_hot.
    destruct (dict_lookup p (hot_cache s)); auto.
Qed.

(** An item of the immediate tier after an index was there before or is
    the entry of the file. *)
Lemma index_immediate_In
    (s : engine) (p : pystr) (f : file_obs) (kv : pystr * cache_value) :
  In kv (immediate_cache (snd (live_progressive_index_file lower s p f))) ->
  In kv (immediate_cache s) \/
  exists content, content <> [] /\ kv = (p, FileEntry (indexed_entry lower p content f)).
Proof.
  pose proof (index_outcome lower s p f) as [_ [_ [_ [_ [_ [_ Hc]]]]]].
  cbv zeta in Hc.
  destruct Hc as [[_ [-> _]] | [content [file_hash [Hne [_ Hm]]]]]; [auto|].
  assert (Hw : In kv (dict_set p (FileEntry (indexed_entry lower p content f))
                        (immediate_cache s)) ->
               In kv (immediate_cache s) \/
               exists content, content <> [] /\
                 kv = (p, FileEntry (indexed_entry lower p content f))).
  { intros H. apply dict_set_In_inv in H as [-> | H]; [right; eauto | now left]. }
  destruct (evict_immediate (max_immediate_cache s)
              (dict_set p (FileEntry (indexed_entry lower p content f))
                 (immediate_cache s))) as [imm|] eqn:Ev.
  - destruct Hm as [-> _]. intros H. apply Hw. eapply evict_immediate_In; eauto.
  - destruct Hm as [_ [-> _]]. exact Hw.
Qed.

(** The entry the hot tier gets for [base_data]. *)
Definition hot_entry (file_path content : pystr) (base_data : entry) (f : file_obs)
  : entry :=
  mkEntry (Some file_path) (file_name base_data) (content_preview base_data)
          (Some (slice_to 10000 content)) (file_type base_data) (size base_data)
          (indexed_time base_data) (Some (lit "hot")) (Some (now f)).

(** An item of the hot tier after a promotion was there before or is the
    entry made from what the immediate tier held for the path, or from
    the rebuilt data. *)
Lemma move_to_hot_In
    (s : engine) (p c : pystr) (f : file_obs) (kv : pystr * entry) :
  In kv (hot_cache (_move_to_hot_layer lower s p c f)) ->
  In kv (hot_cache s) \/
  exists base_data,
    (In (p, FileEntry base_data) (immediate_cache s) \/
     base_data = rebuilt_base_data lower p f) /\
    kv = (p, hot_entry p c base_data f).
Proof.
  unfold _move_to_hot_layer, take_from_immediate.
  destruct (dict_lookup p (immediate_cache s)) as [[b|rows]|] eqn:E;
    unfold put_into_hot; cbn [hot_cache]; try (now left); intros H;
    apply evict_hot_In, dict_set_In_inv in H as [-> | H]; try (now left); right.
  - exists b. split; [left; now apply dict_lookup_In | reflexivity].
  - exists (rebuilt_base_data lower p f). split; [now right | reflexivity].
Qed.

(** The request a promotion to the store makes. *)
Lemma move_to_complete_request (s : engine) (p c h : pystr) (f : file_obs) :
  exists base_data,
    (In (p, base_data) (hot_cache s) \/ base_data = rebuilt_base_data lower p f) /\
    upserts (_move_to_complete_layer lower s p c h f)
    = upserts s ++ [mkUpsert p c base_data h].
Proof.
  unfold _move_to_complete_layer, take_from_hot.
  destruct (dict_lookup p (hot_cache s)) as [b|] eqn:E; unfold hand_to_store;
    cbn [upserts].
  - exists b. split; [left; now apply dict_lookup_In | reflexivity].
  - exists (rebuilt_base_data lower p f). split; [now right | reflexivity].
Qed.

(** What an index leaves in the immediate tier of file entries: the
    clean-up does not raise there. *)
Lemma index_files_only (s : engine) (p : pystr) (f : file_obs) :
  files_only (immediate_cache s) ->
  let s' := snd (live_progressive_index_file lower s p f) in
  files_only (immediate_cache s') /\
  (0 <= max_immediate_cache s ->
   dict_len (immediate_cache s) <= max_immediate_cache s ->
   dict_len (immediate_cache s') <= max_immediate_cache s).
Proof.
  intros Hf. pose proof (index_outcome lower s p f) as [_ [_ [_ [_ [_ [_ Hc]]]]]].
  cbv zeta in *.
  destruct Hc as [[_ [-> _]] | [content [file_hash [_ [_ Hm]]]]]; [auto|].
  pose proof (files_only_set p (indexed_entry lower p content f) _ Hf) as Hw.
  pose proof (evict_immediate_files (max_immediate_cache s) _ Hw) as Hn.
  pose proof (dict_len_set p (FileEntry (indexed_entry lower p content f))
                (immediate_cache s)) as Hl.
  destruct (evict_immediate (max_immediate_cache s)
              (dict_set p (FileEntry (indexed_entry lower p content f))
                 (immediate_cache s))) as [imm|] eqn:Ev; [|congruence].
  destruct Hm as [-> _]. split.
  - eapply files_only_evict; eauto.
  - intros Hm Hc. eapply evict_immediate_bound; [exact Ev | assumption | lia].
Qed.

Lemma step_capacity (s : engine) (o : op) :
  0 <= max_immediate_cache s -> 0 <= max_hot_cache s ->
  files_only (immediate_cache s) ->
  within_capacity s ->
  within_capacity (step lower s o) /\ files_only (immediate_cache (step lower s o)).
Proof.
  intros Hi Hh Hf [Ci Ch]. destruct (step_limits s o) as [L1 L2].
  unfold within_capacity. rewrite L1, L2.
  destruct o as [p f | p c f | p c h f]; cbn [step].
  - pose proof (index_outcome lower s p f) as [_ [_ [E3 _]]].
    destruct (index_files_only s p f Hf) as [F1 F2].
    rewrite E3. auto.
  - pose proof (move_to_hot_phases lower s p c f) as [_ [H2 [H3 [H4 H5]]]].
    rewrite H5, H3. split; [split|].
    + pose proof (dict_len_del p (immediate_cache s)). lia.
    + rewrite H4.
      destruct (fst (take_from_immediate lower s p f)) as [b|]; [|now rewrite H2].
      unfold put_into_hot. cbn [hot_cache].
      assert (M : max_hot_cache (snd (take_from_immediate lower s p f)) = max_hot_cache s).
      { unfold take_from_immediate.
        destruct (dict_lookup p (immediate_cache s)); reflexivity. }
      rewrite M, H2. apply evict_hot_bound; [assumption|].
      match goal with |- dict_len (dict_set ?k ?v ?d) <= _ =>
        pose proof (dict_len_set k v d) end. lia.
    + now apply files_only_del.
  - pose proof (move_to_complete_tiers lower s p c h f) as [E1 E2].
    rewrite E1, E2. split; [split|]; try assumption.
    pose proof (dict_len_del p (hot_cache s)). lia.
Qed.

(** [X9] Capacity of the tiers.  With non-negative limits and an
    immediate tier that holds file entries only, every sequence of index
    and promotion operations that starts within capacity stays within
    capacity: the immediate tier never holds more than
    [max_immediate_cache] entries after an operation, nor the hot tier
    more than [max_hot_cache], and the immediate tier still holds file
    entries only.  (With the rows of a search cached in the immediate
    tier the clean-up raises and the tier outgrows its limit:
    [cached_rows_outgrow_capacity].) *)
Theorem tiers_stay_within_capacity (s : engine) (ops : list op) :
  0 <= max_immediate_cache s -> 0 <= max_hot_cache s ->
  files_only (immediate_cache s) ->
  within_capacity s ->
  within_capacity (run lower s ops) /\ files_only (immediate_cache (run lower s ops)).
Proof.
  revert s. induction ops as [|o ops IH]; intros s Hi Hh Hf Hc; [auto|].
  cbn [run fold_left]. destruct (step_limits s o) as [E1 E2].
  destruct (step_capacity s o Hi Hh Hf Hc) as [C F].
  apply IH; [lia | lia | assumption | assumption].
Qed.

End EngineMore.

(** Four files through an engine with room for two entries per tier. *)
Lemma tiers_stay_within_capacity_witness :
  let s := run Text.sample_lower (mkEngine [] [] 2 2 false false 0 0 [] NoFile [] [])
             [Index (lit "/d/a.txt") (small_file 10);
              Index (lit "/d/b.txt") (small_file 20);
              Index (lit "/d/c.txt") (small_file 30);
              MoveToHot (lit "/d/b.txt") (lit "hello world") (small_file 40);
              Index (lit "/d/e.txt") (small_file 50)] in
  within_capacity s /\ files_only (immediate_cache s).
Proof.
  apply (tiers_stay_within_capacity Text.sample_lower
           (mkEngine [] [] 2 2 false false 0 0 [] NoFile [] [])).
  - cbn. lia.
  - cbn. lia.
  - constructor.
  - split; cbn; lia.
Defined.

(** The same engine with the rows of a search cached under the query:
    the third file is written, the clean-up raises, and the tier holds
    three entries where two are allowed. *)
Example cached_rows_outgrow_capacity :
  let s := run Text.sample_lower
             (mkEngine [(lit "report", SearchResults [])] [] 2 2 false false
                0 0 [] NoFile [] [])
             [Index (lit "/d/a.txt") (small_file 10);
              Index (lit "/d/b.txt") (small_file 20)] in
  dict_len (immediate_cache s) = 3 /\ max_immediate_cache s = 2.
Proof. vm_compute. split; reflexivity. Qed.

(** ** Entries on their way through the tiers *)

Section EntryFacts.

Variable lower : pystr -> pystr.



(** [X11] A promotion carries the entry over.  When [_move_to_hot_layer]
    finds the entry of a file under the path in the immediate tier and
    the hot tier has room left,
    the path leaves the immediate tier and the hot tier holds for it the
    same name, preview, type, size and index time, the first 10,000
    characters of the content, the label ['hot'] and the time of the
    move. *)
Theorem promotion_carries_entry
    (s : engine) (p c : pystr) (f : file_obs) (e : entry) :
  dict_lookup p (immediate_cache s) = Some (FileEntry e) ->
  dict_len (hot_cache s) < max_hot_cache s ->
  let s' := _move_to_hot_layer lower s p c f in
  dict_has p (immediate_cache s') = false /\
  len (slice_to 10000 c) <= 10000 /\
  dict_lookup p (hot_cache s') =
    Some (mkEntry (Some p) (file_name e) (content_preview e)
                  (Some (slice_to 10000 c)) (file_type e) (size e)
                  (indexed_time e) (Some (lit "hot")) (Some (now f))).
Proof.
  intros He Hroom. cbv zeta.
  unfold _move_to_hot_layer, take_from_immediate. rewrite He.
  unfold put_into_hot. cbn [immediate_cache hot_cache max_hot_cache].
  split; [apply dict_has_del_same|]. split; [apply len_slice_to; lia|].
  unfold evict_hot.
  match goal with |- context [dict_set p ?v (hot_cache s)] =>
    pose proof (dict_len_set p v (hot_cache s)) end.
  replace (max_hot_cache s <? _) with false by (symmetry; apply Z.ltb_ge; lia).
  apply dict_lookup_set_same.
Qed.

(** [X12] What a failed index leaves behind.  Whenever
    [live_progressive_index_file] returns [False], the hot tier, the
    counter of indexed files and the requests to the store are as before.
    Either the immediate tier and the pending timers are as before too,
    or the entry of the file had been written when an exception ended
    the call: when the sort of the clean-up raised, the entry is in the
    tier, nothing is evicted and no timer is set; when a timer did not
    start, the tier is as the clean-up left it and at most the timer of
    the move to the hot tier is pending.  The call returns [False] and
    changes nothing at all when indexing is cancelled, when the name
    starts with [._], [.DS_Store] or [Thumbs.db], and when the file does
    not exist. *)
Theorem failed_index_effects (s : engine) (p : pystr) (f : file_obs) :
  let r := live_progressive_index_file lower s p f in
  (fst r = false ->
     hot_cache (snd r) = hot_cache s /\
     indexed_files (snd r) = indexed_files s /\
     upserts (snd r) = upserts s /\
     (immediate_cache (snd r) = immediate_cache s /\ timers (snd r) = timers s \/
      exists content,
        content <> [] /\
        let written :=
          dict_set p (FileEntry (indexed_entry lower p content f)) (immediate_cache s) in
        match evict_immediate (max_immediate_cache s) written with
        | None => immediate_cache (snd r) = written /\ timers (snd r) = timers s
        | Some imm =>
            immediate_cache (snd r) = imm /\
            (started f = 0%nat /\ timers (snd r) = timers s \/
             started f = 1%nat /\
             timers (snd r) = timers s ++ [TimerMoveToHot p content])
        end)) /\
  (indexing_cancelled s = true \/
   starts_with (lit "._") (path_name p) = true \/
   starts_with (lit ".DS_Store") (path_name p) = true \/
   starts_with (lit "Thumbs.db") (path_name p) = true \/
   f_exists f = false ->
   r = (false, s)).
Proof.
  cbv zeta. split.
  - intros Hr.
    pose proof (index_outcome lower s p f) as [_ [_ [E3 [_ [_ [E6 Hc]]]]]].
    cbv zeta in Hc.
    destruct Hc as [[_ [H1 [H2 H3]]] | [content [file_hash [Hc [_ Hm]]]]];
      [repeat (split; [assumption|]); left; split; assumption|].
    destruct (evict_immediate (max_immediate_cache s)
                (dict_set p (FileEntry (indexed_entry lower p content f))
                   (immediate_cache s))) as [imm|] eqn:Ev.
    + destruct Hm as [Hi Hs].
      destruct (started f) as [|[|k]] eqn:St.
      * destruct Hs as [_ [Ht Hn]].
        split; [assumption|]. split; [assumption|]. split; [assumption|].
        right. exists content. split; [assumption|]. rewrite Ev. auto.
      * destruct Hs as [_ [Ht Hn]].
        split; [assumption|]. split; [assumption|]. split; [assumption|].
        right. exists content. split; [assumption|]. rewrite Ev. auto.
      * destruct Hs as [Ht _]. congruence.
    + destruct Hm as [_ [Hi [Ht Hn]]].
      split; [assumption|]. split; [assumption|]. split; [assumption|].
      right. exists content. split; [assumption|]. rewrite Ev. auto.
  - unfold live_progressive_index_file.
    intros [H | [H | [H | [H | H]]]].
    + now rewrite H.
    + destruct (indexing_cancelled s); [reflexivity|]. now rewrite H.
    + destruct (indexing_cancelled s); [reflexivity|].
      destruct (starts_with (lit "._") (path_name p)); [reflexivity|]. now rewrite H.
    + destruct (indexing_cancelled s); [reflexivity|].
      destruct (starts_with (lit "._") (path_name p)); [reflexivity|].
      rewrite H. now rewrite orb_true_r.
    + destruct (indexing_cancelled s); [reflexivity|].
      destruct (starts_with (lit "._") (path_name p)); [reflexivity|].
      destruct (_ || _); [reflexivity|]. now rewrite H.
Qed.

(** Number of pending background saves. *)
Definition pending_saves (ts : list timer) : nat :=
  List.length (filter (fun t => match t with TimerSaveCaches => true | _ => false end) ts).

(** A promotion schedules a save or leaves the timers alone. *)
Lemma move_to_hot_save (s : engine) (p c : pystr) (f : file_obs) :
  let s' := _move_to_hot_layer lower s p c f in
  shutdown_requested s' = shutdown_requested s /\
  ((5000000 <? now f - last_save_time s) && negb (shutdown_requested s) = true /\
   timers s' = timers s ++ [TimerSaveCaches] /\ last_save_time s' = now f \/
   timers s' = timers s /\ last_save_time s' = last_save_time s).
Proof.
  cbv zeta. unfold _move_to_hot_layer, take_from_immediate.
  destruct (dict_lookup p (immediate_cache s)) as [[b|rows]|]; unfold put_into_hot;
    cbn [shutdown_requested timers last_save_time];
    (split; [reflexivity|]); try (right; split; reflexivity);
    destruct ((5000000 <? now f - last_save_time s) && negb (shutdown_requested s));
    auto.
Qed.

(** [X13] Background saves are rate-limited.  A promotion to the hot tier
    schedules a save of the cache only when more than 5 s have passed
    since the last one was scheduled and shutdown has not been requested;
    so two promotions at most 5 s apart schedule at most one save, and
    none is scheduled once shutdown is requested. *)
Theorem background_saves_rate_limited
    (s : engine) (p1 c1 p2 c2 : pystr) (f1 f2 : file_obs) :
  now f2 - now f1 <= 5000000 ->
  let s1 := _move_to_hot_layer lower s p1 c1 f1 in
  let s2 := _move_to_hot_layer lower s1 p2 c2 f2 in
  (pending_saves (timers s2) <= pending_saves (timers s) + 1)%nat /\
  (shutdown_requested s = true -> timers s2 = timers s) /\
  (now f1 - last_save_time s <= 5000000 -> timers s1 = timers s).
Proof.
  intros Hd. cbv zeta.
  pose proof (move_to_hot_save s p1 c1 f1) as [A0 A].
  pose proof (move_to_hot_save (_move_to_hot_layer lower s p1 c1 f1) p2 c2 f2)
    as [B0 B].
  set (s1 := _move_to_hot_layer lower s p1 c1 f1) in *.
  set (s2 := _move_to_hot_layer lower s1 p2 c2 f2) in *.
  assert (Happ : forall ts, pending_saves (ts ++ [TimerSaveCaches]) = S (pending_saves ts)).
  { intros ts. unfold pending_saves. rewrite filter_app, length_app. cbn. lia. }
  split; [|split].
  - destruct A as [[E1 [T1 L1]] | [T1 L1]]; destruct B as [[E2 [T2 L2]] | [T2 L2]].
    + rewrite L1 in E2. apply andb_true_iff in E2 as [E2 _]. apply Z.ltb_lt in E2. lia.
    + rewrite T2, T1, Happ. lia.
    + rewrite T2, T1, Happ. lia.
    + rewrite T2, T1. lia.
  - intros Hs.
    destruct A as [[E1 _] | [T1 _]]; [rewrite Hs, andb_false_r in E1; discriminate|].
    destruct B as [[E2 _] | [T2 _]];
      [rewrite A0, Hs, andb_false_r in E2; discriminate|].
    congruence.
  - intros Hl. destruct A as [[E1 _] | [T1 _]]; [|assumption].
    apply andb_true_iff in E1 as [E1 _]. apply Z.ltb_lt in E1. lia.
Qed.

End EntryFacts.


(** The engine after [a.txt] has been indexed. *)
Definition engine_with_a_txt : engine :=
  snd (live_progressive_index_file Text.sample_lower engine0 a_txt (small_file 7)).

Lemma promotion_carries_entry_witness :
  dict_has a_txt
    (immediate_cache (_move_to_hot_layer Text.sample_lower engine_with_a_txt a_txt
                        (lit "hello world") (small_file 1000007))) = false /\
  dict_lookup a_txt
    (hot_cache (_move_to_hot_layer Text.sample_lower engine_with_a_txt a_txt
                  (lit "hello world") (small_file 1000007))) =
    Some (mkEntry (Some a_txt) (lit "a.txt") (Some (lit "hello world"))
                  (Some (lit "hello world")) (lit ".txt") 11 7
                  (Some (lit "hot")) (Some 1000007)).
Proof.
  pose proof (promotion_carries_entry Text.sample_lower engine_with_a_txt a_txt
                (lit "hello world") (small_file 1000007)
                (mkEntry (Some a_txt) (lit "a.txt") (Some (lit "hello world")) None
                         (lit ".txt") 11 7 (Some (lit "immediate")) None)
                ltac:(vm_compute; reflexivity) ltac:(vm_compute; reflexivity))
    as [H1 [_ H3]].
  split; [exact H1 | exact H3].
Defined.

(** A file whose second timer does not start: the call fails with the
    entry written and the timer of the move to the hot tier pending. *)
Definition half_started_file : file_obs := mkObs true 11 (lit "hello world") 9 1.

Lemma failed_index_effects_witness :
  let r := live_progressive_index_file Text.sample_lower engine_with_a_txt
             (lit "/docs/b.txt") half_started_file in
  hot_cache (snd r) = hot_cache engine_with_a_txt /\
  indexed_files (snd r) = indexed_files engine_with_a_txt /\
  dict_has (lit "/docs/b.txt") (immediate_cache (snd r)) = true.
Proof.
  destruct (proj1 (failed_index_effects Text.sample_lower engine_with_a_txt
                     (lit "/docs/b.txt") half_started_file))
    as [H1 [H2 _]]; [vm_compute; reflexivity|].
  split; [exact H1|]. split; [exact H2|]. vm_compute. reflexivity.
Defined.

(** Two promotions two seconds apart, the first one 6 s after start. *)
Lemma background_saves_rate_limited_witness :
  (pending_saves
     (timers (_move_to_hot_layer Text.sample_lower
               (_move_to_hot_layer Text.sample_lower engine0 a_txt (lit "x")
                  (small_file 6000000))
               big_pdf (lit "y") (small_file 8000000)))
   <= pending_saves (timers engine0) + 1)%nat.
Proof.
  refine (proj1 (background_saves_rate_limited Text.sample_lower engine0
                   a_txt (lit "x") big_pdf (lit "y")
                   (small_file 6000000) (small_file 8000000) _)).
  vm_compute. discriminate.
Defined.

End CacheMore.

(* ================================================================== *)
(** * The durable upsert: invariants, round trips and retries *)
(* ================================================================== *)

Module StoreMore.

Import Store.

(** ** Consistent shards *)

(** The FTS row that belongs to a row of [documents]. *)
Definition fts_of (d : document) : fts_row :=
  mkFts (id d) (file_path d) (file_name d) (content d) (file_type d).

(** A shard as the schema means it to be: [file_path] is UNIQUE, [id] is
    the primary key, every id has been issued by the AUTOINCREMENT
    counter, and [documents_fts] holds one row per document, under the
    document's id and with the document's text columns. *)
Definition consistent (db : shard) : Prop :=
  NoDup (map file_path (documents db)) /\
  NoDup (map id (documents db)) /\
  (forall i, In i (map id (documents db)) -> 0 < i <= last_rowid db) /\
  0 <= last_rowid db /\
  Permutation (map fts_of (documents db)) (documents_fts db).

(** The shard after an attempt that commits: the update branch when the
    path has a row, the insert branch otherwise. *)
Definition committed (db : shard) (a : upsert_args) : shard :=
  match select_id (a_file_path a) (documents db) with
  | Some existing => do_update db a existing
  | None => do_insert db a
  end.

(** A row of another writer turns up during the attempt. *)
Definition races (f : fault) : bool :=
  match f with Integrity _ (Some _) _ _ => true | _ => false end.

(** ** Lists *)

Lemma filter_keep_all {A : Type} (f : A -> bool) (l : list A) :
  (forall x, In x l -> f x = true) -> filter f l = l.
Proof.
  induction l as [|x l IH]; intros H; cbn [filter]; [reflexivity|].
  rewrite (H x (or_introl eq_refl)). f_equal. apply IH. intros y Hy. apply H. now right.
Qed.

Lemma filter_drop_all {A : Type} (f : A -> bool) (l : list A) :
  (forall x, In x l -> f x = false) -> filter f l = [].
Proof.
  induction l as [|x l IH]; intros H; cbn [filter]; [reflexivity|].
  rewrite (H x (or_introl eq_refl)). apply IH. intros y Hy. apply H. now right.
Qed.

Lemma Permutation_filter_rows {A : Type} (f : A -> bool) (l l' : list A) :
  Permutation l l' -> Permutation (filter f l) (filter f l').
Proof.
  induction 1 as [|x l l' _ IH|x y l|l l' l'' _ IH1 _ IH2]; cbn [filter].
  - constructor.
  - destruct (f x); [now constructor | assumption].
  - destruct (f x), (f y); try apply Permutation_refl. apply perm_swap.
  - now transitivity (filter f l').
Qed.

Lemma filter_map_rows {A B : Type} (g : A -> B) (f : B -> bool) (l : list A) :
  filter f (map g l) = map g (filter (fun x => f (g x)) l).
Proof.
  induction l as [|x l IH]; cbn [map filter]; [reflexivity|].
  destruct (f (g x)); cbn [map]; now rewrite IH.
Qed.

Lemma NoDup_map_filter_rows {A B : Type} (g : A -> B) (f : A -> bool) (l : list A) :
  NoDup (map g l) -> NoDup (map g (filter f l)).
Proof.
  induction l as [|x l IH]; cbn [map filter]; intros H; [constructor|].
  inversion H as [|? ? Hn Hd]; subst.
  destruct (f x); [|now apply IH].
  cbn [map]. constructor; [|now apply IH].
  intros Hin. apply Hn. apply in_map_iff in Hin as [y [E Hy]].
  apply filter_In in Hy as [Hy _]. apply in_map_iff. now exists y.
Qed.

(** ** The statements of the upsert *)

Lemma select_id_split (path : pystr) (docs : list document) (e : Z) :
  NoDup (map file_path docs) ->
  select_id path docs = Some e ->
  exists l1 d l2,
    docs = l1 ++ d :: l2 /\ file_path d = path /\ id d = e /\
    (forall x, In x l1 -> file_path x <> path) /\
    (forall x, In x l2 -> file_path x <> path).
Proof.
  induction docs as [|x docs IH]; cbn [select_id map]; intros Hn Hs; [discriminate|].
  inversion Hn as [|? ? Hx Hd]; subst.
  destruct (PyStr.eqb (file_path x) path) eqn:E.
  - apply PyStr.eqb_eq in E. injection Hs as <-.
    exists [], x, docs.
    split; [reflexivity|]. split; [assumption|]. split; [reflexivity|]. split.
    + intros y Hy. destruct Hy.
    + intros y Hy Ey. apply Hx. apply in_map_iff. exists y. split; [congruence | assumption].
  - apply PyStr.eqb_neq in E.
    destruct (IH Hd Hs) as [l1 [d [l2 [-> [Hp [Hi [H1 H2]]]]]]].
    exists (x :: l1), d, l2.
    split; [reflexivity|]. split; [assumption|]. split; [assumption|]. split; [|assumption].
    intros y [<- | Hy]; [assumption | now apply H1].
Qed.

Lemma select_id_absent (path : pystr) (docs : list document) :
  (forall d, In d docs -> file_path d <> path) -> select_id path docs = None.
Proof.
  induction docs as [|x docs IH]; cbn [select_id]; intros H; [reflexivity|].
  replace (PyStr.eqb (file_path x) path) with false
    by (symmetry; apply PyStr.eqb_neq, H; now left).
  apply IH. intros d Hd. apply H. now right.
Qed.

Lemma select_id_first (path : pystr) (l1 l2 : list document) (d : document) :
  (forall x, In x l1 -> file_path x <> path) -> file_path d = path ->
  select_id path (l1 ++ d :: l2) = Some (id d).
Proof.
  intros H1 Hp. induction l1 as [|x l1 IH]; cbn [app select_id].
  - replace (PyStr.eqb (file_path d) path) with true
      by (symmetry; now apply PyStr.eqb_eq).
    reflexivity.
  - replace (PyStr.eqb (file_path x) path) with false
      by (symmetry; apply PyStr.eqb_neq, H1; now left).
    apply IH. intros y Hy. apply H1. now right.
Qed.

Lemma sql_update_other (a : upsert_args) (docs : list document) :
  (forall d, In d docs -> file_path d <> a_file_path a) -> sql_update a docs = docs.
Proof.
  unfold sql_update. induction docs as [|x docs IH]; cbn [map]; intros H; [reflexivity|].
  replace (PyStr.eqb (file_path x) (a_file_path a)) with false
    by (symmetry; apply PyStr.eqb_neq, H; now left).
  f_equal. apply IH. intros d Hd. apply H. now right.
Qed.

Lemma sql_update_split (a : upsert_args) (l1 l2 : list document) (d : document) :
  (forall x, In x l1 -> file_path x <> a_file_path a) ->
  (forall x, In x l2 -> file_path x <> a_file_path a) ->
  file_path d = a_file_path a ->
  sql_update a (l1 ++ d :: l2) = l1 ++ written_row a (id d) :: l2.
Proof.
  intros H1 H2 Hp.
  pose proof (sql_update_other a l1 H1) as E1.
  pose proof (sql_update_other a l2 H2) as E2.
  unfold sql_update in *. rewrite map_app. cbn [map]. rewrite E1, E2.
  replace (PyStr.eqb (file_path d) (a_file_path a)) with true
    by (symmetry; now apply PyStr.eqb_eq).
  reflexivity.
Qed.

Lemma fts_of_written (a : upsert_args) (i : Z) : fts_of (written_row a i) = written_fts a i.
Proof. reflexivity. Qed.

(** ** The invariant *)

Lemma do_update_consistent (db : shard) (a : upsert_args) (e : Z) :
  consistent db -> select_id (a_file_path a) (documents db) = Some e ->
  consistent (do_update db a e).
Proof.
  intros [Hp [Hi [Hr [Hl Hf]]]] Hs.
  destruct (select_id_split _ _ _ Hp Hs) as [l1 [d [l2 [E [Ed [Ee [H1 H2]]]]]]].
  unfold consistent, do_update. cbn [documents documents_fts last_rowid].
  rewrite E in *. rewrite (sql_update_split a l1 l2 d H1 H2 Ed).
  assert (Mp : map file_path (l1 ++ written_row a (id d) :: l2)
               = map file_path (l1 ++ d :: l2)).
  { rewrite !map_app. cbn [map written_row file_path]. now rewrite Ed. }
  assert (Mi : map id (l1 ++ written_row a (id d) :: l2) = map id (l1 ++ d :: l2)).
  { rewrite !map_app. reflexivity. }
  rewrite Mp, Mi. split; [assumption|]. split; [assumption|].
  split; [assumption|]. split; [assumption|].
  subst e.
  eapply perm_trans; [|apply Permutation_app_tail, Permutation_filter_rows, Hf].
  rewrite !map_app in *. cbn [map] in *. rewrite fts_of_written, filter_app.
  cbn [filter fts_of rowid]. rewrite Z.eqb_refl. cbn [negb].
  apply NoDup_remove_2 in Hi.
  rewrite !filter_keep_all.
  - rewrite <- app_assoc. apply Permutation_app_head, Permutation_cons_append.
  - intros r Hin. apply in_map_iff in Hin as [x [<- Hx]]. cbn [fts_of rowid].
    apply negb_true_iff, Z.eqb_neq. intros Ex. apply Hi, in_or_app. right.
    apply in_map_iff. now exists x.
  - intros r Hin. apply in_map_iff in Hin as [x [<- Hx]]. cbn [fts_of rowid].
    apply negb_true_iff, Z.eqb_neq. intros Ex. apply Hi, in_or_app. left.
    apply in_map_iff. now exists x.
Qed.

Lemma do_insert_consistent (db : shard) (a : upsert_args) :
  consistent db -> select_id (a_file_path a) (documents db) = None ->
  consistent (do_insert db a).
Proof.
  intros [Hp [Hi [Hr [Hl Hf]]]] Hs.
  unfold consistent, do_insert. cbn [documents documents_fts last_rowid].
  rewrite !map_app. cbn [map written_row file_path id].
  split; [|split; [|split; [|split]]].
  - eapply Permutation_NoDup; [apply Permutation_cons_append|].
    constructor; [|assumption].
    intros Hin. apply in_map_iff in Hin as [x [Ex Hx]].
    now apply (select_id_none _ _ Hs x Hx).
  - eapply Permutation_NoDup; [apply Permutation_cons_append|].
    constructor; [|assumption].
    intros Hin. specialize (Hr _ Hin). lia.
  - intros i Hin. apply in_app_or in Hin as [Hin | [<- | []]]; [|lia].
    specialize (Hr _ Hin). lia.
  - lia.
  - replace (last_rowid db + 1 =? 0) with false by (symmetry; apply Z.eqb_neq; lia).
    rewrite fts_of_written. now apply Permutation_app_tail.
Qed.

Lemma do_repair_consistent (db : shard) (path : pystr) :
  consistent db -> consistent (do_repair db path).
Proof.
  intros [Hp [Hi [Hr [Hl Hf]]]].
  unfold consistent, do_repair. cbn [documents documents_fts last_rowid].
  split; [now apply NoDup_map_filter_rows|].
  split; [now apply NoDup_map_filter_rows|].
  split; [|split; [assumption|]].
  - intros i Hin. apply Hr. apply in_map_iff in Hin as [x [Ex Hx]].
    apply filter_In in Hx as [Hx _]. apply in_map_iff. now exists x.
  - eapply perm_trans; [|apply Permutation_filter_rows, Hf].
    rewrite filter_map_rows. apply Permutation_refl.
Qed.

Lemma committed_consistent (db : shard) (a : upsert_args) :
  consistent db -> consistent (committed db a).
Proof.
  intros H. unfold committed.
  destruct (select_id (a_file_path a) (documents db)) eqn:E;
    [now apply do_update_consistent | now apply do_insert_consistent].
Qed.

Lemma complete_layer_attempt_consistent
    (db : shard) (a : upsert_args) (n : Z) (flt : fault) :
  consistent db -> races flt = false ->
  consistent (fst (fst (complete_layer_attempt db a n flt))).
Proof.
  intros H Hq. pose proof (committed_consistent db a H) as Hc. unfold committed in Hc.
  unfold complete_layer_attempt.
  destruct flt as [|msg|c racing again r|].
  - destruct (select_id _ _); exact Hc.
  - destruct (_ && _); exact H.
  - destruct racing as [row|]; [discriminate|]. cbn [other_writer].
    destruct (select_id (a_file_path a) (documents db)); [|exact H].
    unfold on_integrity_error. destruct c; [destruct r|]; cbn [fst]; try exact H.
    now apply do_repair_consistent.
  - exact H.
Qed.

Lemma document_attempt_consistent
    (db : shard) (a : upsert_args) (n : Z) (flt : fault) :
  consistent db -> races flt = false ->
  consistent (fst (fst (document_attempt db a n flt))).
Proof.
  intros H Hq. pose proof (committed_consistent db a H) as Hc. unfold committed in Hc.
  unfold document_attempt.
  destruct flt as [|msg|c racing again r|].
  - destruct (select_id _ _); exact Hc.
  - destruct (_ && _); exact H.
  - destruct racing as [row|]; [discriminate|]. cbn [other_writer].
    destruct (select_id (a_file_path a) (documents db)); exact H.
  - exact H.
Qed.

Lemma complete_layer_loop_consistent
    (faults : Z -> fault) (a : upsert_args) (left : nat) (n : Z) (db : shard) :
  consistent db -> (forall m, races (faults m) = false) ->
  consistent (fst (complete_layer_loop faults a n left db)).
Proof.
  intros H Hq. revert n db H.
  induction left as [|left IH]; intros n db H; cbn [complete_layer_loop]; [exact H|].
  pose proof (complete_layer_attempt_consistent db a n (faults n) H (Hq n)) as H1.
  destruct (complete_layer_attempt db a n (faults n)) as [[db1 ev1] nx].
  cbn [fst] in H1. destruct nx; cbn [fst]; try exact H1.
  specialize (IH (n + 1) db1 H1).
  destruct (complete_layer_loop faults a (n + 1) left db1) as [db2 ev2]. exact IH.
Qed.

Lemma document_loop_consistent
    (faults : Z -> fault) (a : upsert_args) (left : nat) (n : Z) (db : shard) :
  consistent db -> (forall m, races (faults m) = false) ->
  consistent (fst (fst (document_loop faults a n left db))).
Proof.
  intros H Hq. revert n db H.
  induction left as [|left IH]; intros n db H; cbn [document_loop]; [exact H|].
  pose proof (document_attempt_consistent db a n (faults n) H (Hq n)) as H1.
  destruct (document_attempt db a n (faults n)) as [[db1 ev1] nx].
  cbn [fst] in H1. destruct nx; cbn [fst]; try exact H1.
  specialize (IH (n + 1) db1 H1).
  destruct (document_loop faults a (n + 1) left db1) as [[db2 ev2] r]. exact IH.
Qed.

(** [X14] The upsert keeps a shard consistent.  Starting from a shard
    with unique paths, unique issued ids and an FTS table that mirrors
    [documents], both [_add_to_complete_layer] and [add_document_to_db]
    end in such a shard, whatever faults the attempts meet (busy or
    locked database, constraint violations and repairs, other
    exceptions), as long as no other writer's row turns up during the
    call. *)
Theorem upsert_keeps_consistency
    (faults : Z -> fault) (db : shard) (a : upsert_args) :
  consistent db ->
  (forall n, races (faults n) = false) ->
  consistent (fst (_add_to_complete_layer faults db a)) /\
  consistent (fst (fst (add_document_to_db faults db a))).
Proof.
  intros H Hq. split.
  - now apply complete_layer_loop_consistent.
  - now apply document_loop_consistent.
Qed.

Lemma empty_shard_consistent : consistent empty_shard.
Proof.
  unfold consistent, empty_shard. cbn.
  repeat split; try constructor; try lia; intros i [].
Qed.

(** A constraint violation with a repair in the first attempt, a busy
    database in the second, success in the third. *)
Definition rough_faults (n : Z) : fault :=
  if n =? 0 then Integrity true None FallbackOk true
  else if n =? 1 then Operational MsgBusy
  else NoFault.

Lemma upsert_keeps_consistency_witness :
  consistent (fst (_add_to_complete_layer rough_faults shard_with_a_txt a_txt_args)) /\
  consistent (fst (fst (add_document_to_db rough_faults shard_with_a_txt a_txt_args))).
Proof.
  apply (upsert_keeps_consistency rough_faults shard_with_a_txt a_txt_args).
  - unfold shard_with_a_txt.
    apply (document_loop_consistent (fun _ => NoFault) a_txt_args 8 0 empty_shard).
    + exact empty_shard_consistent.
    + reflexivity.
  - intros n. unfold rough_faults.
    destruct (n =? 0); [reflexivity|]. destruct (n =? 1); reflexivity.
Defined.

(** ** What a committed upsert stores *)

Lemma no_fault_commits (db : shard) (a : upsert_args) :
  add_document_to_db (fun _ => NoFault) db a = (committed db a, [Attempt 0; Commit], true) /\
  _add_to_complete_layer (fun _ => NoFault) db a = (committed db a, [Attempt 0; Commit]).
Proof.
  unfold add_document_to_db, _add_to_complete_layer, committed.
  change (Z.to_nat max_retries) with 8%nat.
  cbn [document_loop complete_layer_loop document_attempt complete_layer_attempt].
  destruct (select_id (a_file_path a) (documents db)); split; reflexivity.
Qed.

Lemma fts_rowids_issued (db : shard) (r : fts_row) :
  consistent db -> In r (documents_fts db) -> 0 < rowid r <= last_rowid db.
Proof.
  intros [_ [_ [Hr [_ Hf]]]] Hin.
  apply (Permutation_in _ (Permutation_sym Hf)) in Hin.
  apply in_map_iff in Hin as [x [<- Hx]]. cbn [fts_of rowid].
  apply Hr. apply in_map_iff. now exists x.
Qed.

Lemma path_filter_split (path : pystr) (l1 l2 : list document) (d : document) :
  (forall x, In x l1 -> file_path x <> path) ->
  (forall x, In x l2 -> file_path x <> path) ->
  file_path d = path ->
  filter (fun x => PyStr.eqb (file_path x) path) (l1 ++ d :: l2) = [d].
Proof.
  intros H1 H2 Hp. rewrite filter_app. cbn [filter].
  replace (PyStr.eqb (file_path d) path) with true by (symmetry; now apply PyStr.eqb_eq).
  rewrite !filter_drop_all; [reflexivity | |];
    intros x Hx; apply PyStr.eqb_neq; auto.
Qed.

Lemma rowid_filter_update (fts : list fts_row) (w : fts_row) :
  filter (fun r => rowid r =? rowid w)
         (filter (fun r => negb (rowid r =? rowid w)) fts ++ [w]) = [w].
Proof.
  rewrite filter_app. cbn [filter]. rewrite Z.eqb_refl.
  rewrite filter_drop_all; [reflexivity|].
  intros r Hr. apply filter_In in Hr as [_ Hr]. now apply negb_true_iff in Hr.
Qed.

(** [X15] An upsert stores the document and nothing else.  On a
    consistent shard a fault-free upsert succeeds at the first attempt,
    and both implementations leave the same shard.  In it the path has
    exactly one row, the sanitized row of the request, under the id the
    path had before or else under the next id of the counter; the FTS
    table has exactly one row under that id, with the same text; and the
    rows of every other path are as they were. *)
Theorem upserted_document_is_stored (db : shard) (a : upsert_args) :
  consistent db ->
  let r := add_document_to_db (fun _ => NoFault) db a in
  let db' := fst (fst r) in
  snd r = true /\
  fst (_add_to_complete_layer (fun _ => NoFault) db a) = db' /\
  (exists i,
     select_id (a_file_path a) (documents db') = Some i /\
     (forall e, select_id (a_file_path a) (documents db) = Some e -> i = e) /\
     (select_id (a_file_path a) (documents db) = None -> i = last_rowid db + 1) /\
     filter (fun d => PyStr.eqb (file_path d) (a_file_path a)) (documents db')
       = [written_row a i] /\
     filter (fun r => rowid r =? i) (documents_fts db') = [written_fts a i]) /\
  (forall d, file_path d <> a_file_path a ->
             (In d (documents db') <-> In d (documents db))).
Proof.
  intros H. destruct (no_fault_commits db a) as [-> ->]. cbv zeta. cbn [fst snd].
  split; [reflexivity|]. split; [reflexivity|].
  pose proof H as [Hp [Hi [Hr [Hl Hf]]]].
  unfold committed.
  destruct (select_id (a_file_path a) (documents db)) as [e|] eqn:Hs.
  - destruct (select_id_split _ _ _ Hp Hs) as [l1 [d [l2 [E [Ed [Ee [H1 H2]]]]]]].
    unfold do_update. cbn [documents documents_fts].
    rewrite E. rewrite (sql_update_split a l1 l2 d H1 H2 Ed). subst e. split.
    + exists (id d).
      split; [apply (select_id_first _ l1 l2 (written_row a (id d)) H1 eq_refl)|].
      split; [intros e He; congruence|]. split; [discriminate|].
      split; [apply path_filter_split; auto|].
      apply (rowid_filter_update (documents_fts db) (written_fts a (id d))).
    + intros x Hx. rewrite !in_app_iff. cbn [In].
      split; (intros [Hin | [Hin | Hin]]; [now left | | now right; right]);
        exfalso; subst x; apply Hx; [reflexivity | assumption].
  - pose proof (select_id_none _ _ Hs) as Hn.
    unfold do_insert. cbn [documents documents_fts].
    replace (last_rowid db + 1 =? 0) with false by (symmetry; apply Z.eqb_neq; lia).
    split.
    + exists (last_rowid db + 1).
      split; [apply (select_id_first _ (documents db) []
                       (written_row a (last_rowid db + 1)) Hn eq_refl)|].
      split; [discriminate|]. split; [reflexivity|].
      split; [apply path_filter_split; auto; intros x []|].
      rewrite filter_app. cbn [filter written_fts rowid]. rewrite Z.eqb_refl.
      rewrite filter_drop_all; [reflexivity|].
      intros r Hin. pose proof (fts_rowids_issued db r H Hin). apply Z.eqb_neq. lia.
    + intros x Hx. rewrite in_app_iff. cbn [In].
      split; [|now left]. intros [Hin | [Hin | []]]; [assumption|].
      exfalso. subst x. now apply Hx.
Qed.

Lemma shard_with_a_txt_consistent : consistent shard_with_a_txt.
Proof.
  unfold shard_with_a_txt.
  apply (document_loop_consistent (fun _ => NoFault) a_txt_args 8 0 empty_shard).
  - exact empty_shard_consistent.
  - reflexivity.
Qed.

(** A second document for a shard that holds [a.txt]. *)
Definition b_txt_args : upsert_args :=
  mkArgs (lit "/docs/b.txt") (lit "world") (lit "b.txt") (lit ".txt") 5 (lit "7d79") 3.

Lemma upserted_document_is_stored_witness :
  exists i,
    select_id (lit "/docs/b.txt")
      (documents (fst (fst (add_document_to_db (fun _ => NoFault)
                              shard_with_a_txt b_txt_args)))) = Some i /\
    i = 2.
Proof.
  destruct (upserted_document_is_stored shard_with_a_txt b_txt_args
              shard_with_a_txt_consistent) as [_ [_ [[i [H1 [_ [H3 _]]]] _]]].
  exists i. split; [exact H1|]. apply H3. vm_compute. reflexivity.
Defined.

(** [X16] The last write wins.  On a consistent shard, two upserts of
    the same path one after the other leave exactly the shard that the
    second one alone would have left: same id, same counter, no residue
    of the first write in [documents] or in the FTS table.  In particular
    an upsert repeated with the same arguments changes nothing. *)
Theorem last_write_wins (db : shard) (a a' : upsert_args) :
  consistent db ->
  a_file_path a' = a_file_path a ->
  let upsert db a := fst (fst (add_document_to_db (fun _ => NoFault) db a)) in
  upsert (upsert db a) a' = upsert db a'.
Proof.
  intros H Ea. cbv beta zeta.
  destruct (no_fault_commits db a) as [-> _]. cbn [fst].
  destruct (no_fault_commits db a') as [-> _].
  destruct (no_fault_commits (committed db a) a') as [-> _].
  cbn [fst]. pose proof H as [Hp [Hi [Hr [Hl Hf]]]].
  unfold committed at 2 3. rewrite Ea.
  destruct (select_id (a_file_path a) (documents db)) as [e|] eqn:Hs.
  - destruct (select_id_split _ _ _ Hp Hs) as [l1 [d [l2 [E [Ed [Ee [H1 H2]]]]]]].
    subst e. unfold committed, do_update. cbn [documents documents_fts last_rowid].
    rewrite E. rewrite (sql_update_split a l1 l2 d H1 H2 Ed).
    assert (H1' : forall x, In x l1 -> file_path x <> a_file_path a')
      by (intros x Hx; rewrite Ea; auto).
    assert (H2' : forall x, In x l2 -> file_path x <> a_file_path a')
      by (intros x Hx; rewrite Ea; auto).
    rewrite (select_id_first (a_file_path a') l1 l2 (written_row a (id d)) H1'
               (eq_sym Ea)).
    cbn [documents documents_fts last_rowid written_row id].
    rewrite (sql_update_split a' l1 l2 (written_row a (id d)) H1' H2' (eq_sym Ea)).
    rewrite (sql_update_split a' l1 l2 d H1' H2' (eq_trans Ed (eq_sym Ea))).
    cbn [written_row id]. f_equal. f_equal.
    rewrite filter_app. cbn [filter written_fts rowid]. rewrite Z.eqb_refl. cbn [negb].
    rewrite app_nil_r. apply filter_keep_all.
    intros r Hin. now apply filter_In in Hin as [_ Hin].
  - pose proof (select_id_none _ _ Hs) as Hn.
    assert (Hn' : forall x, In x (documents db) -> file_path x <> a_file_path a')
      by (intros x Hx; rewrite Ea; auto).
    unfold committed, do_insert, do_update. cbn [documents documents_fts last_rowid].
    replace (last_rowid db + 1 =? 0) with false by (symmetry; apply Z.eqb_neq; lia).
    rewrite (select_id_first (a_file_path a') (documents db) []
               (written_row a (last_rowid db + 1)) Hn' (eq_sym Ea)).
    cbn [documents documents_fts last_rowid written_row id].
    rewrite (sql_update_split a' (documents db) [] (written_row a (last_rowid db + 1))
               Hn' (fun x (F : In x []) => match F with end) (eq_sym Ea)).
    cbn [written_row id]. f_equal. f_equal.
    rewrite filter_app. cbn [filter written_fts rowid]. rewrite Z.eqb_refl. cbn [negb].
    rewrite app_nil_r. apply filter_keep_all.
    intros r Hin. pose proof (fts_rowids_issued db r H Hin).
    apply negb_true_iff, Z.eqb_neq. lia.
Qed.

(** [a.txt] with new content, written later. *)
Definition a_txt_args_v2 : upsert_args :=
  mkArgs Cache.a_txt (lit "hello again") (lit "a.txt") (lit ".txt") 11 (lit "c5d1") 9.

Lemma last_write_wins_witness :
  fst (fst (add_document_to_db (fun _ => NoFault)
              (fst (fst (add_document_to_db (fun _ => NoFault) empty_shard a_txt_args)))
              a_txt_args_v2))
  = fst (fst (add_document_to_db (fun _ => NoFault) empty_shard a_txt_args_v2)).
Proof.
  apply (last_write_wins empty_shard a_txt_args a_txt_args_v2).
  - exact empty_shard_consistent.
  - reflexivity.
Defined.

(** ** Busy shards *)

(** [database is locked] and [database is busy]: the messages both
    retry loops wait on. *)
Definition busy (f : fault) : bool :=
  match f with
  | Operational MsgLocked | Operational MsgBusy => true
  | _ => false
  end.

(** The trace of [k] attempts from attempt [n] on that each end in a
    sleep; [logged] is what the handler logs before it sleeps. *)
Fixpoint backoff (logged : list event) (n : Z) (k : nat) : list event :=
  match k with
  | O => []
  | S k' => Attempt n :: logged ++ Sleep n :: backoff logged (n + 1) k'
  end.

Lemma document_loop_busy
    (faults : Z -> fault) (a : upsert_args) (db : shard) (k : nat) :
  forall (n : Z) (left : nat),
    0 <= n -> n + Z.of_nat k <= 7 ->
    (forall j, (j < k)%nat -> busy (faults (n + Z.of_nat j)) = true) ->
    document_loop faults a n (k + left) db =
    let '(db', ev, r) := document_loop faults a (n + Z.of_nat k) left db in
    (db', backoff [] n k ++ ev, r).
Proof.
  induction k as [|k IH]; intros n left Hn Hk Hb.
  - cbn [Nat.add backoff app]. replace (n + Z.of_nat 0) with n by lia.
    now destruct (document_loop faults a n left db) as [[db' ev] r].
  - cbn [Nat.add document_loop]. unfold document_attempt.
    pose proof (Hb 0%nat ltac:(lia)) as B0. replace (n + Z.of_nat 0) with n in B0 by lia.
    assert (R : (n <? max_retries - 1) = true) by (apply Z.ltb_lt; unfold max_retries; lia).
    destruct (faults n) as [|[]| |]; try discriminate; rewrite R; cbn [andb];
      (rewrite (IH (n + 1) left); [|lia|lia|]);
      try (intros j Hj; replace (n + 1 + Z.of_nat j) with (n + Z.of_nat (S j)) by lia;
           apply Hb; lia);
      replace (n + 1 + Z.of_nat k) with (n + Z.of_nat (S k)) by lia;
      destruct (document_loop faults a (n + Z.of_nat (S k)) left db) as [[db' ev] r];
      reflexivity.
Qed.

Lemma complete_layer_loop_busy
    (faults : Z -> fault) (a : upsert_args) (db : shard) (k : nat) :
  forall (n : Z) (left : nat),
    0 <= n -> n + Z.of_nat k <= 7 ->
    (forall j, (j < k)%nat -> busy (faults (n + Z.of_nat j)) = true) ->
    complete_layer_loop faults a n (k + left) db =
    let '(db', ev) := complete_layer_loop faults a (n + Z.of_nat k) left db in
    (db', backoff [LogError] n k ++ ev).
Proof.
  induction k as [|k IH]; intros n left Hn Hk Hb.
  - cbn [Nat.add backoff app]. replace (n + Z.of_nat 0) with n by lia.
    now destruct (complete_layer_loop faults a n left db) as [db' ev].
  - cbn [Nat.add complete_layer_loop]. unfold complete_layer_attempt.
    pose proof (Hb 0%nat ltac:(lia)) as B0. replace (n + Z.of_nat 0) with n in B0 by lia.
    assert (R : (n <? max_retries - 1) = true) by (apply Z.ltb_lt; unfold max_retries; lia).
    destruct (faults n) as [|[]| |]; try discriminate; rewrite R; cbn [andb];
      (rewrite (IH (n + 1) left); [|lia|lia|]);
      try (intros j Hj; replace (n + 1 + Z.of_nat j) with (n + Z.of_nat (S j)) by lia;
           apply Hb; lia);
      replace (n + 1 + Z.of_nat k) with (n + Z.of_nat (S k)) by lia;
      destruct (complete_layer_loop faults a (n + Z.of_nat (S k)) left db) as [db' ev];
      reflexivity.
Qed.

(** [X17] A busy shard is waited for.  When the database is locked or
    busy in the first [k < 8] attempts and the next attempt meets no
    fault, both upserts sleep once after each busy attempt, commit in
    attempt [k], and leave the shard that a first-attempt commit would
    have left; [add_document_to_db] returns [True]. *)
Theorem busy_retries_then_commit
    (faults : Z -> fault) (db : shard) (a : upsert_args) (k : nat) :
  (k < 8)%nat ->
  (forall j, (j < k)%nat -> busy (faults (Z.of_nat j)) = true) ->
  faults (Z.of_nat k) = NoFault ->
  add_document_to_db faults db a =
    (fst (fst (add_document_to_db (fun _ => NoFault) db a)),
     backoff [] 0 k ++ [Attempt (Z.of_nat k); Commit], true) /\
  _add_to_complete_layer faults db a =
    (fst (_add_to_complete_layer (fun _ => NoFault) db a),
     backoff [LogError] 0 k ++ [Attempt (Z.of_nat k); Commit]).
Proof.
  intros Hk Hb Hf.
  destruct (no_fault_commits db a) as [-> ->]. cbn [fst].
  unfold add_document_to_db, _add_to_complete_layer.
  change (Z.to_nat max_retries) with 8%nat.
  replace 8%nat with (k + S (7 - k))%nat by lia.
  rewrite (document_loop_busy faults a db k 0 (S (7 - k))); [|lia|lia|exact Hb].
  rewrite (complete_layer_loop_busy faults a db k 0 (S (7 - k))); [|lia|lia|exact Hb].
  cbn [document_loop complete_layer_loop Z.add].
  unfold document_attempt, complete_layer_attempt, committed. rewrite Hf.
  destruct (select_id (a_file_path a) (documents db)); split; reflexivity.
Qed.

(** Locked in the first two attempts, then free. *)
Definition busy_twice (n : Z) : fault :=
  if n <? 2 then Operational MsgLocked else NoFault.

Lemma busy_retries_then_commit_witness :
  add_document_to_db busy_twice empty_shard a_txt_args =
    (shard_with_a_txt,
     [Attempt 0; Sleep 0; Attempt 1; Sleep 1; Attempt 2; Commit], true).
Proof.
  refine (proj1 (busy_retries_then_commit busy_twice empty_shard a_txt_args 2 _ _ _)).
  - lia.
  - intros [|[|j]] Hj; [reflexivity | reflexivity | lia].
  - reflexivity.
Defined.

(** [X18] A shard that stays busy is given up on.  When the database is
    locked or busy in all eight attempts, both upserts sleep after each
    of the first seven, log the eighth and stop: the shard is unchanged
    and the document is not stored; [add_document_to_db] returns
    [False], [_add_to_complete_layer] returns as after a success. *)
Theorem busy_exhausts_retries
    (faults : Z -> fault) (db : shard) (a : upsert_args) :
  (forall j, (j < 8)%nat -> busy (faults (Z.of_nat j)) = true) ->
  add_document_to_db faults db a =
    (db, backoff [] 0 7 ++ [Attempt 7; LogError], false) /\
  _add_to_complete_layer faults db a =
    (db, backoff [LogError] 0 7 ++ [Attempt 7; LogError]).
Proof.
  intros Hb.
  unfold add_document_to_db, _add_to_complete_layer.
  change (Z.to_nat max_retries) with (7 + 1)%nat.
  rewrite (document_loop_busy faults a db 7 0 1);
    [|lia|lia|intros j Hj; apply Hb; lia].
  rewrite (complete_layer_loop_busy faults a db 7 0 1);
    [|lia|lia|intros j Hj; apply Hb; lia].
  cbn [document_loop complete_layer_loop Z.add Z.of_nat Pos.of_succ_nat Pos.succ].
  unfold document_attempt, complete_layer_attempt.
  pose proof (Hb 7%nat ltac:(lia)) as B7. cbn [Z.of_nat Pos.of_succ_nat Pos.succ] in B7.
  destruct (faults 7) as [|[]| |]; try discriminate; split; reflexivity.
Qed.

Lemma busy_exhausts_retries_witness :
  add_document_to_db (fun _ => Operational MsgBusy) shard_with_a_txt a_txt_args_v2 =
    (shard_with_a_txt, backoff [] 0 7 ++ [Attempt 7; LogError], false).
Proof.
  refine (proj1 (busy_exhausts_retries (fun _ => Operational MsgBusy)
                   shard_with_a_txt a_txt_args_v2 _)).
  intros j Hj. reflexivity.
Defined.

(** ** Faults the schema allows *)

Lemma select_id_sql_update (path : pystr) (a : upsert_args) (docs : list document) :
  select_id path (sql_update a docs) = select_id path docs.
Proof.
  unfold sql_update. induction docs as [|x docs IH]; cbn [map select_id]; [reflexivity|].
  rewrite IH. destruct (PyStr.eqb (file_path x) (a_file_path a)) eqn:E; [|reflexivity].
  apply PyStr.eqb_eq in E. cbn [written_row file_path id]. now rewrite E.
Qed.

Lemma select_id_app_some (path : pystr) (docs more : list document) (e : Z) :
  select_id path docs = Some e -> select_id path (docs ++ more) = Some e.
Proof.
  induction docs as [|x docs IH]; cbn [app select_id]; [discriminate|].
  destruct (PyStr.eqb (file_path x) path); auto.
Qed.

Lemma sql_update_keeps (a : upsert_args) (docs : list document) (d : document) :
  In d docs -> file_path d <> a_file_path a -> In d (sql_update a docs).
Proof.
  intros Hin Hp. unfold sql_update. apply in_map_iff. exists d. split; [|assumption].
  now replace (PyStr.eqb (file_path d) (a_file_path a)) with false
    by (symmetry; now apply PyStr.eqb_neq).
Qed.

(** What a shard keeps through an upsert. *)
Definition keeps (path : pystr) (db db' : shard) : Prop :=
  (forall d, In d (documents db) -> file_path d <> path -> In d (documents db')) /\
  (forall e, select_id path (documents db) = Some e ->
             select_id path (documents db') = Some e) /\
  (forall r, In r (documents_fts db) ->
             select_id path (documents db') <> Some (rowid r) ->
             In r (documents_fts db')).

Lemma keeps_refl (path : pystr) (db : shard) : keeps path db db.
Proof. unfold keeps. auto. Qed.

Lemma keeps_trans (path : pystr) (db db1 db2 : shard) :
  keeps path db db1 -> keeps path db1 db2 -> keeps path db db2.
Proof.
  intros [A1 [B1 C1]] [A2 [B2 C2]]. split; [auto|]. split; [auto|].
  intros r Hr Hn. apply C2; [|assumption]. apply C1; [assumption|].
  intros E. apply Hn. now apply B2.
Qed.

Lemma do_update_keeps (db : shard) (a : upsert_args) (e : Z) :
  select_id (a_file_path a) (documents db) = Some e ->
  keeps (a_file_path a) db (do_update db a e).
Proof.
  intros Hs. unfold keeps. cbn [do_update documents documents_fts].
  rewrite select_id_sql_update. split; [|split].
  - intros d Hd Hp. now apply sql_update_keeps.
  - auto.
  - intros r Hr Hn. apply in_or_app. left. apply filter_In. split; [assumption|].
    apply negb_true_iff, Z.eqb_neq. congruence.
Qed.

Lemma do_insert_keeps (db : shard) (a : upsert_args) :
  keeps (a_file_path a) db (do_insert db a).
Proof.
  unfold keeps. cbn [do_insert documents documents_fts]. split; [|split].
  - intros d Hd _. apply in_or_app. now left.
  - intros e. apply select_id_app_some.
  - intros r Hr _. apply in_or_app. now left.
Qed.

Lemma other_writer_keeps (path : pystr) (db : shard) (racing : option document) :
  keeps path db (other_writer db racing).
Proof.
  destruct racing as [row|]; [|apply keeps_refl].
  unfold keeps. cbn [other_writer documents documents_fts]. split; [|split].
  - intros d Hd _. apply in_or_app. now left.
  - intros e. apply select_id_app_some.
  - auto.
Qed.

Lemma realizable_attempt_keeps
    (db : shard) (a : upsert_args) (n : Z) (flt : fault) :
  realizable db a flt = true ->
  keeps (a_file_path a) db (fst (fst (complete_layer_attempt db a n flt))).
Proof.
  destruct flt as [|msg|c racing again r|]; intros H.
  - cbn [complete_layer_attempt].
    destruct (select_id (a_file_path a) (documents db)) as [e|] eqn:E; cbn [fst].
    + now apply do_update_keeps.
    + apply do_insert_keeps.
  - cbn [complete_layer_attempt]. destruct (_ && _); apply keeps_refl.
  - apply realizable_integrity in H as [Hs [Ha [row [-> Hp]]]].
    destruct (collision_attempt db a n c r row Hs Hp) as [E1 E2].
    destruct again as [| |msg]; [| congruence |].
    + rewrite E1. cbn [fst].
      eapply keeps_trans; [apply (other_writer_keeps _ db (Some row))|].
      apply do_update_keeps. now apply select_id_other_writer.
    + rewrite E2. cbv zeta. cbn [fst]. apply other_writer_keeps.
  - apply keeps_refl.
Qed.

Lemma realizable_loop_keeps
    (faults : Z -> fault) (a : upsert_args) (left : nat) (n : Z) (db : shard) :
  realizable_from faults a n left db = true ->
  keeps (a_file_path a) db (fst (complete_layer_loop faults a n left db)).
Proof.
  revert n db. induction left as [|left IH]; intros n db;
    cbn [complete_layer_loop realizable_from]; [intros _; apply keeps_refl|].
  intros H. apply andb_true_iff in H as [H1 H2].
  pose proof (realizable_attempt_keeps db a n (faults n) H1) as Hk.
  destruct (complete_layer_attempt db a n (faults n)) as [[db1 ev1] nx].
  cbn [fst] in Hk. destruct nx; cbn [fst]; try exact Hk.
  specialize (IH (n + 1) db1 H2).
  destruct (complete_layer_loop faults a (n + 1) left db1) as [db2 ev2].
  cbn [fst] in *. eapply keeps_trans; eauto.
Qed.

(** [X19] The upsert deletes nothing.  Under the faults a shard can raise
    against it (operational errors and other exceptions at any attempt;
    an integrity violation only as the collision of an INSERT with a row
    of the path that another writer has committed), a call of
    [_add_to_complete_layer] runs no repair and loses no stored document:
    the rows of other paths stay as they are, a path that had a row keeps
    a row under the same id, and the FTS rows of all other ids stay. *)
Theorem realizable_faults_delete_nothing
    (faults : Z -> fault) (db : shard) (a : upsert_args) :
  realizable_run faults db a = true ->
  let r := _add_to_complete_layer faults db a in
  repairs (snd r) = 0%nat /\
  (forall d, In d (documents db) -> file_path d <> a_file_path a ->
             In d (documents (fst r))) /\
  (forall e, select_id (a_file_path a) (documents db) = Some e ->
             select_id (a_file_path a) (documents (fst r)) = Some e) /\
  (forall row, In row (documents_fts db) ->
               select_id (a_file_path a) (documents (fst r)) <> Some (rowid row) ->
               In row (documents_fts (fst r))).
Proof.
  intros H. cbv zeta. split.
  - now apply realizable_loop_no_repair.
  - now apply realizable_loop_keeps.
Qed.

(** A shard that holds [b.txt]. *)
Definition shard_with_b_txt : shard :=
  fst (fst (add_document_to_db (fun _ => NoFault) empty_shard b_txt_args)).

(** [a.txt] is written into it while another writer commits a row of
    [a.txt] under id 2 and then keeps the database locked for a while. *)
Definition collision_under_lock (n : Z) : fault :=
  if n =? 0 then
    Integrity true
      (Some (mkDoc 2 Cache.a_txt (lit "a.txt") (lit "old") (lit ".txt") 3 0 0 (lit "0cc1")))
      (FallbackOperational MsgLocked) true
  else if n =? 1 then Operational MsgLocked
  else NoFault.

Lemma realizable_faults_delete_nothing_witness :
  let r := _add_to_complete_layer collision_under_lock shard_with_b_txt a_txt_args in
  repairs (snd r) = 0%nat /\
  In (written_row b_txt_args 1) (documents (fst r)).
Proof.
  destruct (realizable_faults_delete_nothing collision_under_lock shard_with_b_txt
              a_txt_args ltac:(vm_compute; reflexivity)) as [H1 [H2 _]].
  split; [exact H1|]. apply H2.
  - vm_compute. now left.
  - vm_compute. discriminate.
Defined.

(** The same call, evaluated: the write is made in the third attempt,
    under the id of the other writer's row. *)
Example collision_under_lock_run :
  _add_to_complete_layer collision_under_lock shard_with_b_txt a_txt_args
  = (mkShard [written_row b_txt_args 1; written_row a_txt_args 2]
             [written_fts b_txt_args 1; written_fts a_txt_args 2] 2,
     [Attempt 0; Rollback; LogError; LogError; Sleep 0;
      Attempt 1; LogError; Sleep 1; Attempt 2; Commit]).
Proof. vm_compute. reflexivity. Qed.

End StoreMore.
(* ================================================================== *)
(** * From the hot tier into the shards *)
(* ================================================================== *)

Module Pipeline.

Import Store StoreMore.

(** ** The shard files *)

(** [complete_db_paths]: one shard per index below [db_count]. *)
Definition store := list shard.

Definition db_count (st : store) : Z := Z.of_nat (List.length st).

(** Writing shard [n] back. *)
Fixpoint set_nth (n : nat) (db : shard) (st : store) : store :=
  match st, n with
  | [], _ => []
  | _ :: st', O => db :: st'
  | x :: st', S n' => x :: set_nth n' db st'
  end.

(** [_add_to_complete_layer] from its first line: the router picks the
    shard, the retry loop writes it.  When routing raises (a path without
    UTF-8 encoding, no shard) the caller logs the exception and nothing
    is written. *)
Definition add_to_store (faults : Z -> fault) (st : store) (a : upsert_args) : store :=
  match Router.get_db_index_for_file (db_count st) (a_file_path a) with
  | Some db_index =>
      match nth_error st (Z.to_nat db_index) with
      | Some db =>
          set_nth (Z.to_nat db_index) (fst (_add_to_complete_layer faults db a)) st
      | None => st
      end
  | None => st
  end.

(** The arguments [_add_to_complete_layer] takes from a request of
    [_move_to_complete_layer]: [file_name], [file_type] and [size] are
    read from [base_data]; [t] is the clock at the write. *)
Definition request_args (u : Cache.upsert_request) (t : Z) : upsert_args :=
  mkArgs (Cache.u_file_path u) (Cache.u_content u)
         (Cache.file_name (Cache.u_base_data u))
         (Cache.file_type (Cache.u_base_data u))
         (Cache.size (Cache.u_base_data u))
         (Cache.u_file_hash u) t.

(** Every document lies in the shard the router gives for its path. *)
Definition routed (st : store) : Prop :=
  forall j db d,
    nth_error st j = Some db -> In d (documents db) ->
    Router.get_db_index_for_file (db_count st) (file_path d) = Some (Z.of_nat j).

(** ** Shard lists *)

Lemma set_nth_length (n : nat) (db : shard) (st : store) :
  List.length (set_nth n db st) = List.length st.
Proof.
  revert n. induction st as [|x st IH]; intros [|n]; cbn [set_nth List.length]; auto.
Qed.

Lemma nth_error_set_nth_same (n : nat) (db old : shard) (st : store) :
  nth_error st n = Some old -> nth_error (set_nth n db st) n = Some db.
Proof.
  revert n. induction st as [|x st IH]; intros [|n]; cbn [set_nth nth_error];
    try discriminate; auto.
Qed.

Lemma nth_error_set_nth_other (n m : nat) (db : shard) (st : store) :
  n <> m -> nth_error (set_nth n db st) m = nth_error st m.
Proof.
  revert n m. induction st as [|x st IH]; intros [|n] [|m] H; cbn [set_nth nth_error];
    try reflexivity; try congruence.
  apply IH. congruence.
Qed.

Lemma set_nth_unchanged (n : nat) (db : shard) (st : store) :
  nth_error st n = Some db -> set_nth n db st = st.
Proof.
  revert n. induction st as [|x st IH]; intros [|n]; cbn [set_nth nth_error];
    try discriminate.
  - now intros [= ->].
  - intros H. f_equal. now apply IH.
Qed.

Lemma db_index_range (N : Z) (p : pystr) (i : Z) :
  Router.get_db_index_for_file N p = Some i -> 0 <= N -> 0 <= i < N.
Proof.
  unfold Router.get_db_index_for_file. intros H HN.
  destruct (Router.utf8 p); [|discriminate].
  destruct (Router.int16 _); [|discriminate].
  destruct (N =? 0) eqn:E; [discriminate|]. apply Z.eqb_neq in E.
  injection H as <-. apply Z.mod_pos_bound. lia.
Qed.

(** ** Rows an upsert can leave *)

Lemma complete_layer_attempt_rows
    (db : shard) (a : upsert_args) (n : Z) (flt : fault) (d : document) :
  races flt = false ->
  In d (documents (fst (fst (complete_layer_attempt db a n flt)))) ->
  In d (documents db) \/ file_path d = a_file_path a.
Proof.
  intros Hq.
  assert (Hu : forall e, In d (documents (do_update db a e)) ->
                         In d (documents db) \/ file_path d = a_file_path a).
  { intros e Hin. cbn [do_update documents] in Hin. unfold sql_update in Hin.
    apply in_map_iff in Hin as [x [Ex Hx]].
    destruct (PyStr.eqb (file_path x) (a_file_path a)); subst d; [now right | now left]. }
  assert (Hi : In d (documents (do_insert db a)) ->
               In d (documents db) \/ file_path d = a_file_path a).
  { cbn [do_insert documents]. intros Hin.
    apply in_app_or in Hin as [Hin | [<- | []]]; [now left | now right]. }
  unfold complete_layer_attempt.
  destruct flt as [|msg|c racing again r|].
  - destruct (select_id _ _); cbn [fst]; [apply Hu | apply Hi].
  - destruct (_ && _); cbn [fst]; now left.
  - destruct racing as [row|]; [discriminate|]. cbn [other_writer].
    destruct (select_id (a_file_path a) (documents db)); [|cbn [fst]; now left].
    unfold on_integrity_error. destruct c; [destruct r|]; cbn [fst]; try (now left).
    cbn [do_repair documents]. intros Hin. apply filter_In in Hin as [Hin _]. now left.
  - cbn [fst]. now left.
Qed.

Lemma complete_layer_loop_rows
    (faults : Z -> fault) (a : upsert_args) (left : nat) (d : document) :
  (forall m, races (faults m) = false) ->
  forall (n : Z) (db : shard),
    In d (documents (fst (complete_layer_loop faults a n left db))) ->
    In d (documents db) \/ file_path d = a_file_path a.
Proof.
  intros Hq. induction left as [|left IH]; intros n db; cbn [complete_layer_loop];
    [auto|].
  pose proof (complete_layer_attempt_rows db a n (faults n) d (Hq n)) as H1.
  destruct (complete_layer_attempt db a n (faults n)) as [[db1 ev1] nx].
  cbn [fst] in H1. destruct nx; cbn [fst]; try exact H1.
  specialize (IH (n + 1) db1).
  destruct (complete_layer_loop faults a (n + 1) left db1) as [db2 ev2].
  cbn [fst] in *. intros Hin. destruct (IH Hin) as [H | H]; auto.
Qed.

Lemma add_to_store_count (faults : Z -> fault) (st : store) (a : upsert_args) :
  db_count (add_to_store faults st a) = db_count st.
Proof.
  unfold add_to_store, db_count.
  destruct (Router.get_db_index_for_file _ _); [|reflexivity].
  destruct (nth_error st _); [|reflexivity]. now rewrite set_nth_length.
Qed.

Lemma add_to_store_routed (faults : Z -> fault) (st : store) (a : upsert_args) :
  (forall m, races (faults m) = false) ->
  routed st -> routed (add_to_store faults st a).
Proof.
  intros Hq Hr j db d Hj Hd. rewrite add_to_store_count.
  unfold add_to_store in Hj.
  destruct (Router.get_db_index_for_file (db_count st) (a_file_path a)) as [i|] eqn:Ei;
    [|now apply (Hr j db d)].
  destruct (nth_error st (Z.to_nat i)) as [old|] eqn:En; [|now apply (Hr j db d)].
  pose proof (db_index_range _ _ _ Ei ltac:(unfold db_count; lia)) as Hi.
  destruct (Nat.eq_dec (Z.to_nat i) j) as [<- | Hne].
  - rewrite (nth_error_set_nth_same _ _ old) in Hj by assumption.
    injection Hj as <-.
    destruct (complete_layer_loop_rows faults a 8 d Hq 0 old Hd) as [H | H].
    + now apply (Hr _ old d).
    + rewrite H, Ei. f_equal. lia.
  - rewrite nth_error_set_nth_other in Hj by assumption. now apply (Hr j db d).
Qed.

(** [X20] Documents stay in their shard.  If every stored document lies
    in the shard that the router gives for its path, this is still so
    after any sequence of durable upserts through
    [_add_to_complete_layer], whatever faults they meet (no other writer
    interfering); the number of shards is unchanged, and so no path is
    ever stored in two shards. *)
Theorem documents_stay_in_their_shard
    (reqs : list ((Z -> fault) * upsert_args)) (st : store) :
  routed st ->
  (forall fa n, In fa reqs -> races (fst fa n) = false) ->
  let st' := fold_left (fun st fa => add_to_store (fst fa) st (snd fa)) reqs st in
  routed st' /\
  db_count st' = db_count st /\
  (forall j k db db' d d',
     nth_error st' j = Some db -> nth_error st' k = Some db' ->
     In d (documents db) -> In d' (documents db') ->
     file_path d = file_path d' -> j = k).
Proof.
  intros Hr Hq. cbv zeta.
  assert (H : routed (fold_left (fun st fa => add_to_store (fst fa) st (snd fa)) reqs st)
              /\ db_count (fold_left (fun st fa => add_to_store (fst fa) st (snd fa)) reqs st)
                 = db_count st).
  { revert st Hr. induction reqs as [|fa reqs IH]; intros st Hr; cbn [fold_left];
      [now split|].
    destruct (IH (fun fa' n Hin => Hq fa' n (or_intror Hin))
                 (add_to_store (fst fa) st (snd fa))) as [H1 H2].
    - apply add_to_store_routed; [|assumption]. intros m. apply Hq. now left.
    - split; [assumption|]. now rewrite H2, add_to_store_count. }
  destruct H as [H1 H2]. split; [assumption|]. split; [assumption|].
  intros j k db db' d d' Hj Hk Hd Hd' E.
  pose proof (H1 j db d Hj Hd) as Rj. pose proof (H1 k db' d' Hk Hd') as Rk.
  rewrite E in Rj. rewrite Rj in Rk. injection Rk as Rk. lia.
Qed.

(** Four empty shards. *)
Definition four_shards : store := repeat empty_shard 4.

Lemma documents_stay_in_their_shard_witness :
  routed (fold_left (fun st fa => add_to_store (fst fa) st (snd fa))
            [(rough_faults, a_txt_args); (busy_twice, b_txt_args);
             (fun _ => NoFault, a_txt_args_v2)]
            four_shards).
Proof.
  refine (proj1 (documents_stay_in_their_shard
                   [(rough_faults, a_txt_args); (busy_twice, b_txt_args);
                    (fun _ => NoFault, a_txt_args_v2)] four_shards _ _)).
  - intros [|[|[|[|j]]]] db d Hj Hd; cbn in Hj; try (destruct j; discriminate);
      injection Hj as <-; destruct Hd.
  - intros fa n [<- | [<- | [<- | []]]]; cbn [fst].
    + unfold rough_faults. destruct (n =? 0); [reflexivity|].
      destruct (n =? 1); reflexivity.
    + unfold busy_twice. destruct (n <? 2); reflexivity.
    + reflexivity.
Defined.

(** ** Promotion into the shards *)

Section Promotion.

Variable lower : pystr -> pystr.

(** What [_move_to_complete_layer] does when the hot tier holds the path. *)
Lemma promotion_request
    (s : Cache.engine) (p c h : pystr) (f : Cache.file_obs) (e : Cache.entry) :
  Cache.dict_lookup p (Cache.hot_cache s) = Some e ->
  let s' := Cache._move_to_complete_layer lower s p c h f in
  Cache.upserts s' = Cache.upserts s ++ [Cache.mkUpsert p c e h] /\
  Cache.dict_has p (Cache.hot_cache s') = false /\
  Cache.immediate_cache s' = Cache.immediate_cache s /\
  Cache.timers s' = Cache.timers s.
Proof.
  intros He. cbv zeta. unfold Cache._move_to_complete_layer, Cache.take_from_hot.
  rewrite He. unfold Cache.hand_to_store.
  cbn [Cache.upserts Cache.hot_cache Cache.immediate_cache Cache.timers].
  split; [reflexivity|]. split; [apply Cache.dict_has_del_same|]. split; reflexivity.
Qed.

Lemma committed_has_row (db : shard) (a : upsert_args) :
  exists k, In (written_row a k) (documents (committed db a)).
Proof.
  pose proof (committed_rows db a 0) as [_ H]. cbn [complete_layer_attempt] in H.
  unfold committed. destruct (select_id (a_file_path a) (documents db)); exact H.
Qed.

Lemma routed_shard_exists (st : store) (p : pystr) (i : Z) :
  Router.get_db_index_for_file (db_count st) p = Some i ->
  exists db, nth_error st (Z.to_nat i) = Some db.
Proof.
  intros Hi. apply db_index_range in Hi; [|unfold db_count; lia].
  destruct (nth_error st (Z.to_nat i)) as [db|] eqn:E; [now exists db|].
  apply nth_error_None in E. unfold db_count in Hi. lia.
Qed.

(** [X21] A promotion stores the document in its shard.  When the hot
    tier holds the path and the router gives shard [i] for it, a
    fault-free [_move_to_complete_layer] takes the path out of the hot
    tier and leaves in shard [i] a row for the path with the name, type
    and size of the hot entry and with the first 2,000,000 characters of
    the content handed to the promotion (not the 10,000 the hot entry
    kept), NUL characters removed; the other shards are untouched. *)
Theorem promotion_stores_document
    (s : Cache.engine) (p c h : pystr) (f : Cache.file_obs) (e : Cache.entry)
    (st : store) (t i : Z) :
  Cache.dict_lookup p (Cache.hot_cache s) = Some e ->
  Router.get_db_index_for_file (db_count st) p = Some i ->
  let s' := Cache._move_to_complete_layer lower s p c h f in
  exists u db' k,
    Cache.upserts s' = Cache.upserts s ++ [u] /\
    Cache.dict_has p (Cache.hot_cache s') = false /\
    nth_error (add_to_store (fun _ => NoFault) st (request_args u t)) (Z.to_nat i)
      = Some db' /\
    In (mkDoc k p (safe_file_name p (Cache.file_name e)) (safe_content c)
              (safe_file_type (Cache.file_type e)) (Cache.size e) t t h)
       (documents db') /\
    len (safe_content c) <= 2000000 /\
    (forall j, j <> Z.to_nat i ->
       nth_error (add_to_store (fun _ => NoFault) st (request_args u t)) j
       = nth_error st j).
Proof.
  intros He Hi. cbv zeta.
  destruct (promotion_request s p c h f e He) as [Hu [Hh _]].
  destruct (routed_shard_exists st p i Hi) as [db Hdb].
  set (u := Cache.mkUpsert p c e h) in *.
  destruct (committed_has_row db (request_args u t)) as [k Hk].
  exists u, (committed db (request_args u t)), k.
  split; [assumption|]. split; [assumption|].
  unfold add_to_store. cbn [request_args u Cache.u_file_path a_file_path].
  rewrite Hi, Hdb.
  destruct (no_fault_commits db (request_args u t)) as [_ ->]. cbn [fst].
  split; [now apply (nth_error_set_nth_same _ _ db)|].
  split; [exact Hk|]. split; [apply safe_content_ok|].
  intros j Hj. apply nth_error_set_nth_other. congruence.
Qed.

(** [X22] A busy shard drops a promoted document.  When the hot tier
    holds the path and the shard is locked or busy in all eight attempts
    of the write, [_move_to_complete_layer] has taken the path out of the
    hot tier and the shards are as before: nothing is put back into a
    tier and no timer is scheduled, so a document that was not stored
    before is now in no tier and in no shard. *)
Theorem busy_store_drops_promoted_document
    (s : Cache.engine) (p c h : pystr) (f : Cache.file_obs) (e : Cache.entry)
    (faults : Z -> fault) (st : store) (t : Z) :
  Cache.dict_lookup p (Cache.hot_cache s) = Some e ->
  (forall j, (j < 8)%nat -> busy (faults (Z.of_nat j)) = true) ->
  let s' := Cache._move_to_complete_layer lower s p c h f in
  exists u,
    Cache.upserts s' = Cache.upserts s ++ [u] /\
    Cache.dict_has p (Cache.hot_cache s') = false /\
    Cache.dict_has p (Cache.immediate_cache s') = Cache.dict_has p (Cache.immediate_cache s) /\
    Cache.timers s' = Cache.timers s /\
    add_to_store faults st (request_args u t) = st.
Proof.
  intros He Hb. cbv zeta.
  destruct (promotion_request s p c h f e He) as [Hu [Hh [Hi Ht]]].
  exists (Cache.mkUpsert p c e h).
  split; [assumption|]. split; [assumption|]. split; [now rewrite Hi|].
  split; [assumption|].
  unfold add_to_store.
  destruct (Router.get_db_index_for_file _ _) as [i|]; [|reflexivity].
  destruct (nth_error st (Z.to_nat i)) as [db|] eqn:E; [|reflexivity].
  unfold _add_to_complete_layer. change (Z.to_nat max_retries) with (7 + 1)%nat.
  rewrite (complete_layer_loop_busy faults _ db 7 0 1);
    [|lia|lia|intros j Hj; apply Hb; lia].
  cbn [complete_layer_loop Z.add Z.of_nat Pos.of_succ_nat Pos.succ].
  unfold complete_layer_attempt.
  pose proof (Hb 7%nat ltac:(lia)) as B7. cbn [Z.of_nat Pos.of_succ_nat Pos.succ] in B7.
  destruct (faults 7) as [|[]| |]; try discriminate; cbn [fst andb Z.ltb];
    now apply set_nth_unchanged.
Qed.

End Promotion.

(** The engine with [a.txt] in its hot tier. *)
Definition engine_with_hot_a_txt : Cache.engine :=
  Cache._move_to_hot_layer Text.sample_lower CacheMore.engine_with_a_txt Cache.a_txt
    (lit "hello world") (Cache.small_file 1000007).

Definition hot_a_txt : Cache.entry :=
  Cache.mkEntry (Some Cache.a_txt) (lit "a.txt") (Some (lit "hello world"))
                (Some (lit "hello world")) (lit ".txt") 11 7
                (Some (lit "hot")) (Some 1000007).

(** With four shards [a.txt] goes to shard 1. *)
Lemma promotion_stores_document_witness :
  exists u db' k,
    Cache.upserts (Cache._move_to_complete_layer Text.sample_lower engine_with_hot_a_txt
                     Cache.a_txt (lit "hello world") (lit "5eb6")
                     (Cache.small_file 5000007)) = [u] /\
    nth_error (add_to_store (fun _ => NoFault) four_shards (request_args u 5000008)) 1
      = Some db' /\
    In (mkDoc k Cache.a_txt (lit "a.txt") (lit "hello world") (lit ".txt") 11
              5000008 5000008 (lit "5eb6"))
       (documents db').
Proof.
  destruct (promotion_stores_document Text.sample_lower engine_with_hot_a_txt
              Cache.a_txt (lit "hello world") (lit "5eb6") (Cache.small_file 5000007)
              hot_a_txt four_shards 5000008 1
              ltac:(vm_compute; reflexivity) ltac:(vm_compute; reflexivity))
    as [u [db' [k [H1 [_ [H3 [H4 _]]]]]]].
  exists u, db', k. split; [exact H1|]. split; [exact H3 | exact H4].
Defined.

Lemma busy_store_drops_promoted_document_witness :
  exists u,
    Cache.dict_has Cache.a_txt
      (Cache.hot_cache (Cache._move_to_complete_layer Text.sample_lower
                          engine_with_hot_a_txt Cache.a_txt (lit "hello world")
                          (lit "5eb6") (Cache.small_file 5000007))) = false /\
    add_to_store (fun _ => Operational MsgLocked) four_shards (request_args u 5000008)
      = four_shards.
Proof.
  destruct (busy_store_drops_promoted_document Text.sample_lower engine_with_hot_a_txt
              Cache.a_txt (lit "hello world") (lit "5eb6") (Cache.small_file 5000007)
              hot_a_txt (fun _ => Operational MsgLocked) four_shards 5000008
              ltac:(vm_compute; reflexivity) ltac:(intros j Hj; reflexivity))
    as [u [_ [H2 [_ [_ H5]]]]].
  exists u. split; [exact H2 | exact H5].
Defined.

End Pipeline.

(* ================================================================== *)
(** * Searching the immediate and the hot tier *)
(* ================================================================== *)

Module TierSearch.

Import Text Cache.

(** The dict under a key of the immediate tier; [None] for the rows of a
    cached search, a list, on which [data.get] raises [AttributeError]. *)
Definition file_entry (v : cache_value) : option entry :=
  match v with
  | FileEntry data => Some data
  | SearchResults _ => None
  end.

(** [d.get(k, '')] *)
Definition get_or_empty (o : option pystr) : pystr :=
  match o with Some x => x | None => [] end.

Definition space : pystr := lit " ".

(** [sorted(results, key=lambda x: x['relevance_score'], reverse=True)] *)
Definition sort_by_score (results : list hit) : list hit :=
  PySort.sort_desc
    (fun x y => match (hit_relevance_score x ?= hit_relevance_score y)%Q with
                | Lt => true
                | _ => false
                end) results.

(** [[cache_items[i:i + chunk_size] for i in range(0, len(cache_items),
    chunk_size)]] *)
Fixpoint chunks_of {A : Type} (fuel chunk_size : nat) (cache_items : list A)
  : list (list A) :=
  match fuel with
  | O => []
  | S fuel' =>
      match cache_items with
      | [] => []
      | _ => firstn chunk_size cache_items
             :: chunks_of fuel' chunk_size (skipn chunk_size cache_items)
      end
  end.

(** The loop over [as_completed]: the chunks come in in the order
    [completion]; a chunk whose scan raised is logged and skipped. *)
Definition gather (chunk_results : list (option (list hit))) (completion : list nat)
  : list hit :=
  flat_map (fun i => match nth_error chunk_results i with
                     | Some (Some chunk_hits) => chunk_hits
                     | _ => []
                     end) completion.

Section Search.

Variable nfkc : pystr -> pystr.
Variable lower : pystr -> pystr.

(** [self.optimal_threads] *)
Variable optimal_threads : Z.

(** [_calculate_advanced_relevance_score(query, file_path, file_name,
    content, base_score)] *)
Variable _calculate_advanced_relevance_score : pystr -> pystr -> pystr -> pystr -> Q -> Q.

(** One scan loop over the items of a tier.  [entry_of] reads a value as
    a dict, [text_of] builds [content_text], [preview_of] the
    [content_preview] of a row and [score_of] its [relevance_score];
    [None] is the exception that ends the loop: the [AttributeError] of
    [data.get] on a value that is no dict, the [KeyError] of a subscript
    on a missing key. *)
Fixpoint scan {V : Type} (entry_of : V -> option entry)
    (text_of : entry -> pystr) (preview_of : entry -> option pystr)
    (score_of : pystr -> entry -> Q) (layer_name : pystr)
    (query_patterns : list pystr) (items : list (pystr * V)) : option (list hit) :=
  match items with
  | [] => Some []
  | (_, v) :: items' =>
      match entry_of v with
      | Some data =>
          if enhanced_search_match nfkc lower (text_of data) query_patterns then
            match file_path data, preview_of data with
            | Some p, Some preview =>
                option_map
                  (cons (mkHit p (file_name data) preview layer_name (score_of p data)))
                  (scan entry_of text_of preview_of score_of layer_name
                        query_patterns items')
            | _, _ => None
            end
          else scan entry_of text_of preview_of score_of layer_name query_patterns items'
      | None => None
      end
  end.

(** The branch for large tiers: chunks of at least [min_chunk] items are
    scanned by a thread pool.  [None]: [ZeroDivisionError] in the chunk
    size, [ValueError] for a pool without workers. *)
Definition parallel_scan {A : Type} (min_chunk : Z)
    (search_cache_chunk : list A -> option (list hit))
    (completion : list nat) (cache_items : list A) : option (list hit) :=
  if optimal_threads * 2 =? 0 then None
  else
    let chunk_size :=
      Z.max min_chunk (Z.of_nat (List.length cache_items) / (optimal_threads * 2)) in
    let chunks := chunks_of (List.length cache_items) (Z.to_nat chunk_size) cache_items in
    if Z.min optimal_threads 8 <=? 0 then None
    else Some (gather (map search_cache_chunk chunks) completion).

(** [data.get('content', '') + ' ' + data.get('file_name', '')] *)
Definition content_and_name (data : entry) : pystr :=
  get_or_empty (content data) ++ space ++ file_name data.

(** [data.get('content_preview', data.get('content', '')) + ' ' +
    data.get('file_name', '')] *)
Definition preview_and_name (data : entry) : pystr :=
  match content_preview data with
  | Some preview => preview
  | None => get_or_empty (content data)
  end ++ space ++ file_name data.

(** [data['content'][:200]] *)
Definition content_head (data : entry) : option pystr :=
  option_map (slice_to 200) (content data).

Definition advanced_score (query : pystr) (base_score : Q) (p : pystr) (data : entry) : Q :=
  _calculate_advanced_relevance_score query p (file_name data)
    (get_or_empty (content data)) base_score.

(** [_search_immediate_layer] of [file_search_app.py]; [pc] is
    [self._pattern_cache].  Above 1000 entries the chunks are scanned on
    [content] and each row gets the score 1.0; otherwise the loop scans
    the preview and scores each row. *)
Definition _search_immediate_layer
    (pc : TextMore.pattern_cache) (max_size : Z) (completion : list nat)
    (s : engine) (query : pystr) : option (list hit) * TextMore.pattern_cache :=
  let '(cached, pc) := TextMore._get_search_patterns nfkc lower pc max_size query in
  let query_patterns := snd cached in
  let cache_items := immediate_cache s in
  (option_map sort_by_score
     (if 1000 <? dict_len cache_items then
        parallel_scan 200
          (scan file_entry content_and_name content_head (fun _ _ => 1%Q)
                (lit "immediate") query_patterns)
          completion cache_items
      else
        scan file_entry preview_and_name
             (fun data => Some (slice_to 200 (preview_and_name data)))
             (advanced_score query 1) (lit "immediate") query_patterns cache_items),
   pc).

(** [_search_hot_layer] of [file_search_app.py]: the same loop body in
    both branches, the parallel one above 5000 entries. *)
Definition _search_hot_layer
    (pc : TextMore.pattern_cache) (max_size : Z) (completion : list nat)
    (s : engine) (query : pystr) : option (list hit) * TextMore.pattern_cache :=
  let '(cached, pc) := TextMore._get_search_patterns nfkc lower pc max_size query in
  let query_patterns := snd cached in
  let cache_items := hot_cache s in
  let search_cache_chunk :=
    scan Some content_and_name content_head (advanced_score query (8 # 10)) (lit "hot")
         query_patterns in
  (option_map sort_by_score
     (if 5000 <? dict_len cache_items then
        parallel_scan 500 search_cache_chunk completion cache_items
      else search_cache_chunk cache_items),
   pc).

(** ** Entries without [content] *)

(** The entries of the immediate tier as indexing writes them: they have
    a [content_preview] and no [content]. *)
Definition no_content (d : tier) : Prop :=
  Forall (fun kv => forall data, snd kv = FileEntry data -> content data = None) d.

Lemma step_no_content (s : engine) (o : op) :
  no_content (immediate_cache s) -> no_content (immediate_cache (step lower s o)).
Proof.
  unfold no_content. rewrite !Forall_forall.
  intros H kv Hin. destruct o as [p f | p c f | p c h f]; cbn [step] in Hin.
  - apply CacheMore.index_immediate_In in Hin as [Hin | [c [_ ->]]]; [now apply H|].
    cbn [snd]. now intros data [= <-].
  - destruct (move_to_hot_tiers lower s p c f p) as [E _]. rewrite E in Hin.
    apply CacheMore.dict_del_In in Hin. now apply H.
  - destruct (move_to_complete_tiers lower s p c h f) as [E _]. rewrite E in Hin.
    now apply H.
Qed.

Lemma run_no_content (s : engine) (ops : list op) :
  no_content (immediate_cache s) -> no_content (immediate_cache (run lower s ops)).
Proof.
  revert s. induction ops as [|o ops IH]; intros s H; [exact H|].
  cbn [run fold_left]. apply IH. now apply step_no_content.
Qed.

(** A chunk of entries without [content] yields no row: it has no match,
    or its scan raises. *)
Lemma scan_no_content
    (text_of : entry -> pystr) (score_of : pystr -> entry -> Q)
    (layer_name : pystr) (query_patterns : list pystr) (items : tier) :
  no_content items ->
  scan file_entry text_of content_head score_of layer_name query_patterns items
    = Some [] \/
  scan file_entry text_of content_head score_of layer_name query_patterns items = None.
Proof.
  induction 1 as [|[k v] items Hd _ IH]; cbn [scan]; [now left|].
  destruct v as [data|rows]; cbn [file_entry]; [|now right].
  destruct (enhanced_search_match nfkc lower (text_of data) query_patterns); [|exact IH].
  right. unfold content_head. cbn [snd] in Hd. rewrite (Hd data eq_refl).
  cbn [option_map]. now destruct (file_path data).
Qed.

Lemma no_content_firstn (n : nat) (d : tier) : no_content d -> no_content (firstn n d).
Proof.
  unfold no_content. intros H. rewrite <- (firstn_skipn n d) in H.
  now apply Forall_app in H as [H _].
Qed.

Lemma no_content_skipn (n : nat) (d : tier) : no_content d -> no_content (skipn n d).
Proof.
  unfold no_content. intros H. rewrite <- (firstn_skipn n d) in H.
  now apply Forall_app in H as [_ H].
Qed.

Lemma chunks_no_content (fuel size : nat) (d : tier) :
  no_content d -> Forall no_content (chunks_of fuel size d).
Proof.
  revert d. induction fuel as [|fuel IH]; intros d H; cbn [chunks_of]; [constructor|].
  destruct d as [|kv d]; [constructor|].
  constructor; [now apply no_content_firstn | apply IH; now apply no_content_skipn].
Qed.

Lemma gather_nothing (chunk_results : list (option (list hit))) (completion : list nat) :
  Forall (fun r => r = Some [] \/ r = None) chunk_results ->
  gather chunk_results completion = [].
Proof.
  intros H. unfold gather. induction completion as [|i completion IH]; [reflexivity|].
  cbn [flat_map]. rewrite IH, app_nil_r.
  destruct (nth_error chunk_results i) as [r|] eqn:E; [|reflexivity].
  apply nth_error_In in E. rewrite Forall_forall in H.
  destruct (H r E) as [-> | ->]; reflexivity.
Qed.

(** [X23] A large immediate tier is not searched.  Along any run of
    index and promotion operations the entries of the immediate tier
    have no [content] key.  Once the tier holds more than 1000 keys
    [_search_immediate_layer] takes its parallel branch, which scans
    [content] and reads [data['content']] for every match: each chunk
    either has no match or raises [KeyError] and is skipped, so the
    search returns the empty list for every query, whatever the order in
    which the chunks complete. *)
Theorem large_immediate_tier_finds_nothing
    (s0 : engine) (ops : list op) (pc : TextMore.pattern_cache) (max_size : Z)
    (completion : list nat) (query : pystr) :
  no_content (immediate_cache s0) ->
  1000 < dict_len (immediate_cache (run lower s0 ops)) ->
  0 < optimal_threads ->
  fst (_search_immediate_layer pc max_size completion (run lower s0 ops) query) = Some [].
Proof.
  intros H0 Hl Ht. pose proof (run_no_content s0 ops H0) as Hn.
  unfold _search_immediate_layer.
  destruct (TextMore._get_search_patterns nfkc lower pc max_size query) as [cached pc'].
  cbn [fst]. replace (1000 <? _) with true by (symmetry; now apply Z.ltb_lt).
  unfold parallel_scan.
  replace (optimal_threads * 2 =? 0) with false by (symmetry; apply Z.eqb_neq; lia).
  replace (Z.min optimal_threads 8 <=? 0) with false by (symmetry; apply Z.leb_gt; lia).
  cbn [option_map]. rewrite gather_nothing; [reflexivity|].
  apply Forall_map.
  eapply Forall_impl; [|apply chunks_no_content, Hn].
  intros chunk Hc. now apply scan_no_content.
Qed.

(** ** Finding an entry *)

Lemma starts_with_app (q a b : pystr) :
  starts_with q a = true -> starts_with q (a ++ b) = true.
Proof.
  revert a. induction q as [|x q IH]; intros [|y a]; cbn [starts_with app];
    try reflexivity; try discriminate.
  intros H. apply andb_true_iff in H as [H1 H2]. rewrite H1. cbn [andb]. now apply IH.
Qed.

Lemma contains_app_l (q a b : pystr) :
  contains q a = true -> contains q (a ++ b) = true.
Proof.
  induction a as [|y a IH]; cbn [contains app].
  - rewrite orb_false_r. intros H. destruct q; [|discriminate].
    destruct b; reflexivity.
  - intros H. apply orb_true_iff in H as [H | H]; apply orb_true_iff.
    + left. now apply (starts_with_app q (y :: a) b).
    + right. now apply IH.
Qed.

Lemma contains_app_r (q a b : pystr) :
  contains q b = true -> contains q (a ++ b) = true.
Proof.
  intros H. induction a as [|y a IH]; [exact H|].
  cbn [contains app]. apply orb_true_iff. now right.
Qed.

(** Items on which a scan does not raise: dicts with a [file_path] and
    with what the preview is read from. *)
Definition readable {V : Type} (entry_of : V -> option entry)
    (preview_of : entry -> option pystr) (d : list (pystr * V)) : Prop :=
  Forall (fun kv => exists data, entry_of (snd kv) = Some data /\
                                 file_path data <> None /\ preview_of data <> None) d.

Lemma readable_set {V : Type} (entry_of : V -> option entry)
    (preview_of : entry -> option pystr) (k : pystr) (v : V) (data : entry)
    (d : list (pystr * V)) :
  entry_of v = Some data -> file_path data <> None -> preview_of data <> None ->
  readable entry_of preview_of d -> readable entry_of preview_of (dict_set k v d).
Proof.
  intros H0 H1 H2. unfold readable.
  induction d as [|[k' v'] d IH]; cbn [dict_set]; intros H.
  - constructor; [now exists data | constructor].
  - inversion H as [|? ? Hx Hd]; subst.
    destruct (PyStr.eqb k k'); constructor; auto. now exists data.
Qed.

Lemma scan_finds {V : Type} (entry_of : V -> option entry)
    (text_of : entry -> pystr) (preview_of : entry -> option pystr)
    (score_of : pystr -> entry -> Q) (layer_name : pystr)
    (query_patterns : list pystr) (items : list (pystr * V))
    (k : pystr) (v : V) (data : entry) :
  readable entry_of preview_of items ->
  In (k, v) items ->
  entry_of v = Some data ->
  enhanced_search_match nfkc lower (text_of data) query_patterns = true ->
  exists hits p preview,
    scan entry_of text_of preview_of score_of layer_name query_patterns items
      = Some hits /\
    file_path data = Some p /\ preview_of data = Some preview /\
    In (mkHit p (file_name data) preview layer_name (score_of p data)) hits.
Proof.
  intros Hr Hin Hv Hm.
  assert (Ht : forall items, readable entry_of preview_of items ->
            exists hits, scan entry_of text_of preview_of score_of layer_name
                           query_patterns items = Some hits).
  { clear. induction 1 as [|[k v] items [data [H0 [H1 H2]]] _ [hits IH]];
      cbn [scan]; [eauto|].
    cbn [snd] in H0. rewrite H0.
    destruct (enhanced_search_match nfkc lower (text_of data) query_patterns); [|eauto].
    destruct (file_path data); [|congruence]. destruct (preview_of data); [|congruence].
    rewrite IH. cbn [option_map]. eauto. }
  induction Hr as [|[k' v'] items [data' [H0 [H1 H2]]] Hr IH]; [destruct Hin|].
  cbn [snd] in H0. cbn [scan]. rewrite H0. destruct (Ht items Hr) as [rest Hrest].
  destruct Hin as [E | Hin].
  - injection E as -> ->. rewrite Hv in H0. injection H0 as <-. rewrite Hm.
    destruct (file_path data) as [p|]; [|congruence].
    destruct (preview_of data) as [preview|]; [|congruence].
    rewrite Hrest. cbn [option_map].
    exists (mkHit p (file_name data) preview layer_name (score_of p data) :: rest), p, preview.
    repeat split. now left.
  - destruct (IH Hin) as [hits [p [preview [E1 [E2 [E3 E4]]]]]].
    rewrite E1 in Hrest. injection Hrest as <-.
    destruct (enhanced_search_match nfkc lower (text_of data') query_patterns).
    + destruct (file_path data') as [p'|]; [|congruence].
      destruct (preview_of data') as [preview'|]; [|congruence].
      rewrite E1. cbn [option_map]. eexists; exists p, preview.
      split; [reflexivity|]. split; [assumption|]. split; [assumption|]. now right.
    + exists hits, p, preview. auto.
Qed.

Lemma sort_by_score_In (h : hit) (results : list hit) :
  In h results -> In h (sort_by_score results).
Proof.
  intros H. unfold sort_by_score.
  eapply Permutation_in; [apply Permutation_sym, PySort.sort_desc_perm | exact H].
Qed.

Lemma cached_patterns (pc : TextMore.pattern_cache) (max_size : Z) (q : pystr) :
  TextMore.coherent nfkc lower pc -> q <> [] ->
  exists rest,
    snd (fst (TextMore._get_search_patterns nfkc lower pc max_size q)) = q :: rest.
Proof.
  intros Hc Hq.
  destruct (TextMore.get_search_patterns_ok nfkc lower pc max_size q Hc) as [-> _].
  apply (TextMore.patterns_head nfkc lower q Hq).
Qed.

(** [X24] A file just indexed is found by its name.  After a successful
    [live_progressive_index_file] into an immediate tier with room left
    and fewer than 1000 keys, all of them entries of files with a
    [file_path], a query
    of two or more characters without surrounding white space that
    occurs in the file's base name makes [_search_immediate_layer]
    return a row for the file: its path and name, the label
    ['immediate'], and as preview the first 200 characters of the text
    that was matched. *)
Theorem indexed_file_found_by_name
    (s : engine) (p : pystr) (f : file_obs) (pc : TextMore.pattern_cache)
    (max_size : Z) (completion : list nat) (q : pystr) :
  fst (live_progressive_index_file lower s p f) = true ->
  dict_len (immediate_cache s) < max_immediate_cache s ->
  dict_len (immediate_cache s) < 1000 ->
  Forall (fun kv => exists data, snd kv = FileEntry data /\ file_path data <> None)
         (immediate_cache s) ->
  TextMore.coherent nfkc lower pc ->
  strip q = q -> 2 <= len q -> contains q (path_name p) = true ->
  let s' := snd (live_progressive_index_file lower s p f) in
  exists hits h,
    fst (_search_immediate_layer pc max_size completion s' q) = Some hits /\
    In h hits /\
    hit_file_path h = p /\ hit_file_name h = path_name p /\
    hit_layer h = lit "immediate" /\
    len (hit_content_preview h) <= 200.
Proof.
  intros Hr Hroom Hsmall Hp Hc Hs Hl Hq. cbv zeta.
  pose proof (index_outcome lower s p f) as [_ [_ [_ [_ [_ [_ Ho]]]]]].
  cbv zeta in Ho.
  destruct Ho as [[Hf _] | [c [file_hash [_ [_ Hm]]]]]; [congruence|].
  pose proof (CacheMore.dict_len_set p (FileEntry (indexed_entry lower p c f))
                (immediate_cache s)) as Hlen.
  rewrite evict_immediate_room in Hm by lia. destruct Hm as [Hi _].
  assert (Hne : q <> []) by (intros ->; cbn in Hl; lia).
  destruct (cached_patterns pc max_size q Hc Hne) as [rest Hpat].
  unfold _search_immediate_layer.
  destruct (TextMore._get_search_patterns nfkc lower pc max_size q) as [cached pc'].
  cbn [fst snd] in *. rewrite Hpat, Hi.
  replace (1000 <? _) with false by (symmetry; apply Z.ltb_ge; lia).
  set (data := indexed_entry lower p c f).
  destruct (scan_finds file_entry preview_and_name
              (fun data => Some (slice_to 200 (preview_and_name data)))
              (advanced_score q 1) (lit "immediate") (q :: rest)
              (dict_set p (FileEntry data) (immediate_cache s)) p (FileEntry data) data)
    as [hits [p' [preview [E1 [E2 [E3 E4]]]]]].
  - apply (readable_set _ _ _ _ data); [reflexivity | discriminate | discriminate|].
    unfold readable. eapply Forall_impl; [|exact Hp].
    intros kv [d [E H]]. exists d. rewrite E. split; [reflexivity|].
    split; [assumption | discriminate].
  - apply CacheMore.dict_set_In.
  - reflexivity.
  - apply (TextMore.occurrence_matches nfkc lower _ q (preview_and_name data) rest);
      try assumption.
    + unfold preview_and_name, data. cbn [indexed_entry content_preview].
      intros E. apply app_eq_nil in E as [_ E]. discriminate.
    + now left.
    + unfold preview_and_name, data. cbn [indexed_entry content_preview file_name].
      now apply contains_app_r, contains_app_r.
  - rewrite E1. cbn [option_map]. injection E2 as <-. injection E3 as <-.
    eexists. eexists. split; [reflexivity|].
    split; [apply sort_by_score_In, E4|].
    cbn [hit_file_path hit_file_name hit_layer hit_content_preview].
    repeat split. apply len_slice_to. lia.
Qed.

(** [X25] A promoted file is found by its content.  After
    [_move_to_hot_layer] has moved an entry into a hot tier with room
    left and fewer than 5000 entries, all of them with [file_path] and
    [content], a query of two or more characters without surrounding
    white space that occurs in the first 10,000 characters of the
    content makes [_search_hot_layer] return a row for the file, with
    the label ['hot'] and the first 200 characters of the content as
    preview. *)
Theorem promoted_file_found_by_content
    (s : engine) (p c : pystr) (f : file_obs) (e : entry)
    (pc : TextMore.pattern_cache) (max_size : Z) (completion : list nat) (q : pystr) :
  dict_lookup p (immediate_cache s) = Some (FileEntry e) ->
  dict_len (hot_cache s) < max_hot_cache s ->
  dict_len (hot_cache s) < 5000 ->
  Forall (fun kv => file_path (snd kv) <> None /\ content (snd kv) <> None) (hot_cache s) ->
  TextMore.coherent nfkc lower pc ->
  strip q = q -> 2 <= len q -> contains q (slice_to 10000 c) = true ->
  let s' := _move_to_hot_layer lower s p c f in
  exists hits h,
    fst (_search_hot_layer pc max_size completion s' q) = Some hits /\
    In h hits /\
    hit_file_path h = p /\ hit_file_name h = file_name e /\
    hit_layer h = lit "hot" /\
    hit_content_preview h = slice_to 200 (slice_to 10000 c).
Proof.
  intros He Hroom Hsmall Hp Hc Hs Hl Hq. cbv zeta.
  assert (Hne : q <> []) by (intros ->; cbn in Hl; lia).
  destruct (cached_patterns pc max_size q Hc Hne) as [rest Hpat].
  unfold _search_hot_layer.
  destruct (TextMore._get_search_patterns nfkc lower pc max_size q) as [cached pc'].
  cbn [fst snd] in *. rewrite Hpat.
  unfold _move_to_hot_layer, take_from_immediate. rewrite He.
  unfold put_into_hot. cbn [hot_cache max_hot_cache].
  match goal with |- context [dict_set p ?v (hot_cache s)] => set (data := v) end.
  pose proof (CacheMore.dict_len_set p data (hot_cache s)) as Hlen.
  unfold evict_hot.
  replace (max_hot_cache s <? _) with false by (symmetry; apply Z.ltb_ge; lia).
  replace (5000 <? _) with false by (symmetry; apply Z.ltb_ge; lia).
  destruct (scan_finds Some content_and_name content_head (advanced_score q (8 # 10))
              (lit "hot") (q :: rest) (dict_set p data (hot_cache s)) p data data)
    as [hits [p' [preview [E1 [E2 [E3 E4]]]]]].
  - apply (readable_set _ _ _ _ data); [reflexivity | discriminate | discriminate|].
    unfold readable. eapply Forall_impl; [|exact Hp].
    intros kv [H1 H2]. exists (snd kv). split; [reflexivity|]. split; [assumption|].
    unfold content_head. destruct (content (snd kv)); [discriminate | congruence].
  - apply CacheMore.dict_set_In.
  - reflexivity.
  - apply (TextMore.occurrence_matches nfkc lower _ q (content_and_name data) rest);
      try assumption.
    + unfold content_and_name, data. cbn [content file_name get_or_empty].
      intros E. apply app_eq_nil in E as [_ E]. discriminate.
    + now left.
    + unfold content_and_name, data. cbn [content get_or_empty].
      now apply contains_app_l.
  - rewrite E1. cbn [option_map]. injection E2 as <-. injection E3 as <-.
    eexists. eexists. split; [reflexivity|].
    split; [apply sort_by_score_In, E4|].
    cbn [hit_file_path hit_file_name hit_layer hit_content_preview].
    repeat split.
Qed.

End Search.

(** ** Runs of the tier searches *)

(** A score oracle that leaves the base score as it is. *)
Definition base_score_only (query p name content : pystr) (base_score : Q) : Q :=
  base_score.

(** Entry number [n] of a crowded immediate tier; every preview is
    [file]. *)
Definition crowd_key (n : nat) : pystr :=
  lit "/docs/" ++ [19968 + Z.of_nat n] ++ lit ".txt".

Definition crowd_entry (n : nat) : entry :=
  mkEntry (Some (crowd_key n)) ([19968 + Z.of_nat n] ++ lit ".txt")
          (Some (lit "file")) None (lit ".txt") 4 (Z.of_nat n)
          (Some (lit "immediate")) None.

(** An engine whose immediate tier holds [n] entries. *)
Definition crowded (n : nat) : engine :=
  mkEngine (map (fun i => (crowd_key i, FileEntry (crowd_entry i))) (seq 0 n)) []
           150000 1500000 false false (Z.of_nat n) 0 [] NoFile [] [].

Lemma large_immediate_tier_finds_nothing_witness :
  fst (_search_immediate_layer Text.sample_nfkc Text.sample_lower 4 base_score_only
         [] 1000 [2; 0; 1; 3; 4; 5]%nat (run Text.sample_lower (crowded 1001) []) (lit "file"))
  = Some [].
Proof.
  apply (large_immediate_tier_finds_nothing Text.sample_nfkc Text.sample_lower 4
           base_score_only (crowded 1001) [] [] 1000 [2; 0; 1; 3; 4; 5]%nat (lit "file")).
  - unfold no_content, crowded. cbn [immediate_cache].
    apply Forall_forall. intros kv H. apply in_map_iff in H as [n [<- _]].
    cbn [snd]. now intros data [= <-].
  - vm_compute. reflexivity.
  - lia.
Defined.

(** With one entry less the sequential branch is taken, and the same
    query finds every entry. *)
Example small_immediate_tier_finds_all :
  option_map (@List.length hit)
    (fst (_search_immediate_layer Text.sample_nfkc Text.sample_lower 4 base_score_only
            [] 1000 [] (crowded 1000) (lit "file")))
  = Some 1000%nat.
Proof. vm_compute. reflexivity. Qed.

Lemma indexed_file_found_by_name_witness :
  exists hits h,
    fst (_search_immediate_layer Text.sample_nfkc Text.sample_lower 4 base_score_only
           [] 1000 [] CacheMore.engine_with_a_txt (lit "a.txt")) = Some hits /\
    In h hits /\
    hit_file_path h = a_txt /\ hit_file_name h = path_name a_txt /\
    hit_layer h = lit "immediate" /\
    len (hit_content_preview h) <= 200.
Proof.
  apply (indexed_file_found_by_name Text.sample_nfkc Text.sample_lower 4 base_score_only
           engine0 a_txt (small_file 7) [] 1000 [] (lit "a.txt")).
  - vm_compute. reflexivity.
  - vm_compute. reflexivity.
  - vm_compute. reflexivity.
  - constructor.
  - intros k v H. destruct H.
  - vm_compute. reflexivity.
  - vm_compute. discriminate.
  - vm_compute. reflexivity.
Defined.

Lemma promoted_file_found_by_content_witness :
  exists hits h,
    fst (_search_hot_layer Text.sample_nfkc Text.sample_lower 4 base_score_only
           [] 1000 []
           (_move_to_hot_layer Text.sample_lower CacheMore.engine_with_a_txt a_txt
              (lit "hello world") (small_file 1000007))
           (lit "world")) = Some hits /\
    In h hits /\
    hit_file_path h = a_txt /\ hit_file_name h = lit "a.txt" /\
    hit_layer h = lit "hot" /\
    hit_content_preview h = lit "hello world".
Proof.
  apply (promoted_file_found_by_content Text.sample_nfkc Text.sample_lower 4
           base_score_only CacheMore.engine_with_a_txt a_txt (lit "hello world")
           (small_file 1000007)
           (mkEntry (Some a_txt) (lit "a.txt") (Some (lit "hello world")) None
                    (lit ".txt") 11 7 (Some (lit "immediate")) None)
           [] 1000 [] (lit "world")).
  - vm_compute. reflexivity.
  - vm_compute. reflexivity.
  - vm_compute. reflexivity.
  - constructor.
  - intros k v H. destruct H.
  - vm_compute. reflexivity.
  - vm_compute. discriminate.
  - vm_compute. reflexivity.
Defined.

End TierSearch.

(* ================================================================== *)
(** * Size classes, shutdown and what survives it *)
(* ================================================================== *)

Module Lifecycle.

Import Cache.

Section App.

Variable lower : pystr -> pystr.

(** [X26] Size classes of indexing.  [live_progressive_index_file] calls
    the extractor at most once, and only for the file being indexed; a
    file of 3 MiB or more never reaches the extractor, and when such a
    file is indexed the content handed on to the promotions is its base
    name; a file of more than 500 MiB is rejected and nothing changes. *)
Theorem large_files_skip_extractor (s : engine) (p : pystr) (f : file_obs) :
  let r := live_progressive_index_file lower s p f in
  (extract_calls (snd r) = extract_calls s \/
   extract_calls (snd r) = extract_calls s ++ [p] /\ st_size f < name_only_limit) /\
  (name_only_limit <= st_size f -> fst r = true ->
     exists file_hash,
       timers (snd r) = timers s ++ [TimerMoveToHot p (path_name p);
                                     TimerMoveToComplete p (path_name p) file_hash]) /\
  (reject_limit < st_size f -> r = (false, s)).
Proof.
  cbv zeta. split; [|split].
  - unfold live_progressive_index_file.
    destruct (indexing_cancelled s); [now left|].
    destruct (starts_with (lit "._") (path_name p)); [now left|].
    destruct (starts_with (lit ".DS_Store") (path_name p)
              || starts_with (lit "Thumbs.db") (path_name p)); [now left|].
    destruct (negb (f_exists f)); [now left|].
    destruct (reject_limit <? st_size f); [now left|].
    destruct (name_only_limit <=? st_size f) eqn:E.
    + destruct (is_empty (path_name p)); [now left|].
      destruct (evict_immediate _ _); [destruct (started f) as [|[|k]]|]; now left.
    + apply Z.leb_gt in E. destruct (is_empty (extracted f)); [right; now split|].
      destruct (evict_immediate _ _); [destruct (started f) as [|[|k]]|];
        right; now split.
  - intros Hs Hr.
    pose proof (index_outcome lower s p f) as [_ [_ [_ [_ [_ [_ Ho]]]]]].
    cbv zeta in Ho.
    destruct Ho as [[Hf _] | [c [h [_ [[[-> _] | [_ Hlt]] Hm]]]]]; [congruence | | lia].
    destruct (evict_immediate _ _) as [imm|]; [|destruct Hm; congruence].
    destruct Hm as [_ Hm].
    destruct (started f) as [|[|k]]; [destruct Hm; congruence | destruct Hm; congruence|].
    destruct Hm as [_ [Ht _]]. eauto.
  - apply index_rejects_above_limit.
Qed.

Lemma move_to_hot_entry (s : engine) (p c : pystr) (f : file_obs) (e : entry) :
  dict_lookup p (immediate_cache s) = Some (FileEntry e) ->
  dict_len (hot_cache s) < max_hot_cache s ->
  dict_lookup p (hot_cache (_move_to_hot_layer lower s p c f)) =
    Some (mkEntry (Some p) (file_name e) (content_preview e)
                  (Some (slice_to 10000 c)) (file_type e) (size e)
                  (indexed_time e) (Some (lit "hot")) (Some (now f))).
Proof.
  intros He Hroom. unfold _move_to_hot_layer, take_from_immediate. rewrite He.
  unfold put_into_hot. cbn [hot_cache max_hot_cache]. unfold evict_hot.
  match goal with |- context [dict_set p ?v (hot_cache s)] =>
    pose proof (CacheMore.dict_len_set p v (hot_cache s)) end.
  replace (max_hot_cache s <? _) with false by (symmetry; apply Z.ltb_ge; lia).
  apply CacheMore.dict_lookup_set_same.
Qed.

(** [X27] A promoted entry survives the shutdown of the application.
    When [_move_to_hot_layer] has moved an entry into a hot tier with
    room left and [shutdown] follows and the write succeeds,
    [hot_cache.json] holds the whole hot tier, and in it the entry of
    the path with the first 10,000 characters of its content. *)
Theorem promoted_entry_survives_shutdown
    (s : engine) (p c : pystr) (f : file_obs) (e : entry) :
  dict_lookup p (immediate_cache s) = Some (FileEntry e) ->
  dict_len (hot_cache s) < max_hot_cache s ->
  let s' := shutdown (_move_to_hot_layer lower s p c f) IoOk in
  exists saved,
    hot_cache_json s' = Saved saved /\
    saved = hot_cache (_move_to_hot_layer lower s p c f) /\
    option_map content (dict_lookup p saved) = Some (Some (slice_to 10000 c)) /\
    option_map file_name (dict_lookup p saved) = Some (file_name e) /\
    shutdown_requested s' = true.
Proof.
  intros He Hroom. cbv zeta.
  pose proof (move_to_hot_entry s p c f e He Hroom) as Hl.
  destruct (shutdown_saves_hot_tier (_move_to_hot_layer lower s p c f)) as [H1 [_ H3]].
  - intros E. rewrite E in Hl. discriminate.
  - exists (hot_cache (_move_to_hot_layer lower s p c f)).
    split; [assumption|]. split; [reflexivity|]. rewrite Hl. cbn [option_map content file_name].
    auto.
Qed.

End App.

Lemma large_files_skip_extractor_witness :
  extract_calls (snd (live_progressive_index_file Text.sample_lower engine0 big_pdf
                        (mkObs true 3145728 (lit "body") 0 2))) = [] /\
  extract_calls (snd (live_progressive_index_file Text.sample_lower engine0 big_pdf
                        (mkObs true 3145727 (lit "body") 0 2))) = [big_pdf].
Proof.
  split.
  - destruct (proj1 (large_files_skip_extractor Text.sample_lower engine0 big_pdf
                       (mkObs true 3145728 (lit "body") 0 2))) as [H | [_ H]];
      [exact H | vm_compute in H; discriminate].
  - vm_compute. reflexivity.
Defined.

Lemma promoted_entry_survives_shutdown_witness :
  exists saved,
    hot_cache_json (shutdown (_move_to_hot_layer Text.sample_lower
                                CacheMore.engine_with_a_txt a_txt (lit "hello world")
                                (small_file 1000007)) IoOk) = Saved saved /\
    option_map content (dict_lookup a_txt saved) = Some (Some (lit "hello world")).
Proof.
  destruct (promoted_entry_survives_shutdown Text.sample_lower
              CacheMore.engine_with_a_txt a_txt (lit "hello world") (small_file 1000007)
              (mkEntry (Some a_txt) (lit "a.txt") (Some (lit "hello world")) None
                       (lit ".txt") 11 7 (Some (lit "immediate")) None)
              ltac:(vm_compute; reflexivity) ltac:(vm_compute; reflexivity))
    as [saved [H1 [_ [H3 _]]]].
  exists saved. split; [exact H1 | exact H3].
Defined.

(** ** [CacheManager] after [shutdown] *)

Section Manager.

Variable lower : pystr -> pystr.

(** Calls that can reach a [CacheManager]: indexing, the timer of a
    promotion, a save, a shutdown. *)
Inductive manager_op :=
| Add (file_path content : pystr) (fd : CacheManager.file_data) (t : Z)
      (timer_started : bool)
| Move (file_path content : pystr) (f : file_obs)
| Save (w : io)
| Shutdown (w : io).

Definition manager_step (m : CacheManager.manager) (o : manager_op) : CacheManager.manager :=
  match o with
  | Add p c fd t started => CacheManager.add_to_immediate_cache m p c fd t started
  | Move p c f => CacheManager._move_to_hot_layer lower m p c f
  | Save w => CacheManager.save_caches m w
  | Shutdown w => CacheManager.shutdown m w
  end.

Lemma manager_step_frozen (m : CacheManager.manager) (o : manager_op) :
  CacheManager.cm_shutdown_requested m = true ->
  let m' := manager_step m o in
  CacheManager.cm_shutdown_requested m' = true /\
  CacheManager.cm_hot_cache m' = CacheManager.cm_hot_cache m /\
  CacheManager.cm_hot_cache_json m' = CacheManager.cm_hot_cache_json m.
Proof.
  intros H. destruct o as [p c fd t started | p c f | w | w]; cbn [manager_step].
  - unfold CacheManager.add_to_immediate_cache.
    destruct (evict_immediate _ _); [destruct started|]; cbn; auto.
  - unfold CacheManager._move_to_hot_layer. rewrite H. auto.
  - unfold CacheManager.save_caches. rewrite H. auto.
  - unfold CacheManager.shutdown, CacheManager.save_caches. cbn. auto.
Qed.

(** [X28] A [CacheManager] is frozen by [shutdown].  After [shutdown],
    whatever is called next (indexing, pending promotions, saves,
    another shutdown), the hot tier and [hot_cache.json] stay as they
    were when [shutdown] was called: pending promotions return at once,
    every save is skipped, and the file is never written. *)
Theorem manager_frozen_after_shutdown
    (m : CacheManager.manager) (w : io) (ops : list manager_op) :
  let m' := fold_left manager_step ops (CacheManager.shutdown m w) in
  CacheManager.cm_hot_cache m' = CacheManager.cm_hot_cache m /\
  CacheManager.cm_hot_cache_json m' = CacheManager.cm_hot_cache_json m /\
  CacheManager.cm_shutdown_requested m' = true.
Proof.
  cbv zeta.
  assert (G : forall ops m0, CacheManager.cm_shutdown_requested m0 = true ->
            CacheManager.cm_hot_cache (fold_left manager_step ops m0)
              = CacheManager.cm_hot_cache m0 /\
            CacheManager.cm_hot_cache_json (fold_left manager_step ops m0)
              = CacheManager.cm_hot_cache_json m0 /\
            CacheManager.cm_shutdown_requested (fold_left manager_step ops m0) = true).
  { clear. induction ops as [|o ops IH]; intros m0 H; cbn [fold_left]; [auto|].
    destruct (manager_step_frozen m0 o H) as [H1 [H2 H3]].
    destruct (IH _ H1) as [I1 [I2 I3]]. rewrite I1, I2, H2, H3. auto. }
  destruct (G ops (CacheManager.shutdown m w)) as [G1 [G2 G3]].
  - unfold CacheManager.shutdown, CacheManager.save_caches. reflexivity.
  - rewrite G1, G2. split; [|split; [|assumption]];
      unfold CacheManager.shutdown, CacheManager.save_caches; reflexivity.
Qed.

End Manager.

End Lifecycle.

(* ================================================================== *)
(** * [normalize_extracted_text] *)
(* ================================================================== *)

Module Extracted.

(** ** The function *)

(** The character class [[ \t]]. *)
Definition is_blank (c : Z) : bool := (c =? 32) || (c =? 9).

(** [re.sub(r'[ \t]+', ' ', s)]; [in_run]: the character before was a
    blank. *)
Fixpoint collapse_blanks (in_run : bool) (s : pystr) : pystr :=
  match s with
  | [] => []
  | c :: s' =>
      if is_blank c then
        if in_run then collapse_blanks true s' else 32 :: collapse_blanks true s'
      else c :: collapse_blanks false s'
  end.

(** [re.sub(r'\n{3,}', '\n\n', s)]; [run] counts the newlines just
    before: the first two of a run are kept. *)
Fixpoint limit_newlines (run : nat) (s : pystr) : pystr :=
  match s with
  | [] => []
  | c :: s' =>
      if c =? 10 then
        if (2 <=? run)%nat then limit_newlines (S run) s'
        else 10 :: limit_newlines (S run) s'
      else c :: limit_newlines 0 s'
  end.

(** [s.split('\n')] *)
Fixpoint split_lines (s : pystr) : list pystr :=
  match s with
  | [] => [[]]
  | c :: s' =>
      if c =? 10 then [] :: split_lines s'
      else match split_lines s' with
           | line :: lines => (c :: line) :: lines
           | [] => [[c]]
           end
  end.

(** ['\n'.join(lines)] *)
Fixpoint join_lines (lines : list pystr) : pystr :=
  match lines with
  | [] => []
  | line :: lines' =>
      match lines' with
      | [] => line
      | _ => line ++ 10 :: join_lines lines'
      end
  end.

Section Normalize.

(** [str.isprintable] on one character, from the Unicode tables. *)
Variable isprintable : Z -> bool.

(** [char.isprintable() or char in '\t\n\r '] *)
Definition kept (c : Z) : bool :=
  isprintable c || (c =? 9) || (c =? 10) || (c =? 13) || (c =? 32).

(** [normalize_extracted_text] *)
Definition normalize_extracted_text (text : pystr) (max_length : Z) : pystr :=
  if is_empty text then []
  else
    let cleaned := filter kept text in
    let cleaned := collapse_blanks false cleaned in
    let cleaned := limit_newlines 0 cleaned in
    let lines := map strip (split_lines cleaned) in
    let cleaned := join_lines (filter (fun line => negb (is_empty line)) lines) in
    let cleaned := strip cleaned in
    if max_length <? len cleaned then TextMore.safe_truncate_utf8 cleaned max_length
    else cleaned.

(** ** Runs of a character *)

Definition head_is (c : Z) (s : pystr) : bool :=
  match s with
  | y :: _ => y =? c
  | [] => false
  end.

(** [c] occurs twice in a row in [s]. *)
Fixpoint has_pair (c : Z) (s : pystr) : bool :=
  match s with
  | [] => false
  | x :: s' => ((x =? c) && head_is c s') || has_pair c s'
  end.

(** [m] is a contiguous part of [s]. *)
Definition part (m s : pystr) : Prop := exists l r, s = l ++ m ++ r.

Lemma has_pair_app (c : Z) (l m : pystr) :
  has_pair c (l ++ m) = false -> has_pair c l = false /\ has_pair c m = false.
Proof.
  induction l as [|x l IH]; cbn [app has_pair]; [auto|].
  intros H. apply orb_false_iff in H as [H1 H2]. destruct (IH H2) as [I1 I2].
  split; [|assumption]. rewrite I1, orb_false_r.
  destruct l as [|y l]; [now rewrite andb_false_r | exact H1].
Qed.

Lemma has_pair_part (c : Z) (m s : pystr) :
  part m s -> has_pair c s = false -> has_pair c m = false.
Proof.
  intros [l [r ->]] H. apply has_pair_app in H as [_ H]. now apply has_pair_app in H.
Qed.

Lemma Forall_part (Q : Z -> Prop) (m s : pystr) :
  part m s -> Forall Q s -> Forall Q m.
Proof.
  intros [l [r ->]] H. apply Forall_app in H as [_ H]. now apply Forall_app in H.
Qed.

Lemma part_refl (s : pystr) : part s s.
Proof. exists [], []. now rewrite app_nil_r. Qed.

Lemma part_cons (c : Z) (m s : pystr) : part m s -> part m (c :: s).
Proof. intros [l [r ->]]. now exists (c :: l), r. Qed.

Lemma lstrip_suffix (s : pystr) : exists l, s = l ++ lstrip s.
Proof.
  induction s as [|c s [l IH]]; cbn [lstrip]; [now exists []|].
  destruct (is_space c); [|now exists []].
  exists (c :: l). cbn [app]. now f_equal.
Qed.

Lemma strip_part (s : pystr) : part (strip s) s.
Proof.
  unfold strip. destruct (lstrip_suffix s) as [l Hl].
  destruct (lstrip_suffix (rev (lstrip s))) as [l' Hl'].
  exists l, (rev l'). rewrite Hl at 1. f_equal.
  rewrite <- (rev_involutive (lstrip s)) at 1. rewrite Hl' at 1. now rewrite rev_app_distr.
Qed.

Lemma firstn_part (n : nat) (s : pystr) : part (firstn n s) s.
Proof. exists [], (skipn n s). cbn [app]. symmetry. apply firstn_skipn. Qed.

Lemma no_char_no_pair (c : Z) (s : pystr) : ~ In c s -> has_pair c s = false.
Proof.
  induction s as [|x s IH]; cbn [has_pair In]; [reflexivity|].
  intros H. rewrite IH by tauto.
  replace (x =? c) with false by (symmetry; apply Z.eqb_neq; tauto). reflexivity.
Qed.

Lemma has_pair_sep (c d : Z) (l m : pystr) :
  d <> c -> has_pair c l = false -> has_pair c m = false ->
  has_pair c (l ++ d :: m) = false.
Proof.
  intros Hd Hl Hm. induction l as [|x l IH]; cbn [app has_pair head_is].
  - replace (d =? c) with false by (symmetry; now apply Z.eqb_neq). now rewrite Hm.
  - cbn [has_pair] in Hl. apply orb_false_iff in Hl as [H1 H2]. rewrite (IH H2), orb_false_r.
    destruct l as [|y l]; [|exact H1]. cbn [app head_is].
    replace (d =? c) with false by (symmetry; now apply Z.eqb_neq). apply andb_false_r.
Qed.

(** ** The stages *)

Lemma collapse_blanks_ok (Q : Z -> Prop) (b : bool) (s : pystr) :
  Q 32 -> Forall (fun c => is_blank c = false -> Q c) s ->
  Forall Q (collapse_blanks b s) /\
  has_pair 32 (collapse_blanks b s) = false /\
  (b = true -> head_is 32 (collapse_blanks b s) = false).
Proof.
  intros Q32 H. revert b. induction H as [|c s Hc _ IH]; intros b; cbn [collapse_blanks].
  - split; [constructor|]. split; [reflexivity|]. intros _. reflexivity.
  - destruct (is_blank c) eqn:E.
    + destruct (IH true) as [I1 [I2 I3]]. destruct b; [auto|].
      split; [now constructor|]. split; [|discriminate].
      cbn [has_pair]. rewrite (I3 eq_refl), I2. reflexivity.
    + destruct (IH false) as [I1 [I2 _]].
      assert (N : (c =? 32) = false).
      { unfold is_blank in E. now apply orb_false_iff in E as [E _]. }
      split; [constructor; auto|]. split; [|intros _; exact N].
      cbn [has_pair]. now rewrite N, I2.
Qed.

Lemma limit_newlines_Forall (Q : Z -> Prop) (run : nat) (s : pystr) :
  Forall Q s -> Forall Q (limit_newlines run s).
Proof.
  intros H. revert run. induction H as [|c s Hc _ IH]; intros run; cbn [limit_newlines];
    [constructor|].
  destruct (c =? 10) eqn:E.
  - apply Z.eqb_eq in E. subst c. destruct (2 <=? run)%nat; [apply IH|].
    constructor; [assumption | apply IH].
  - constructor; [assumption | apply IH].
Qed.

Lemma limit_newlines_head (s : pystr) :
  head_is 32 (limit_newlines 0 s) = true -> head_is 32 s = true.
Proof.
  destruct s as [|c s]; cbn [limit_newlines]; [trivial|].
  destruct (c =? 10) eqn:E; [|trivial].
  cbn [Nat.leb head_is]. discriminate.
Qed.

Lemma limit_newlines_pairs (s : pystr) :
  forall run, has_pair 32 s = false -> has_pair 32 (limit_newlines run s) = false.
Proof.
  induction s as [|c s IH]; intros run H; cbn [limit_newlines]; [reflexivity|].
  cbn [has_pair] in H. apply orb_false_iff in H as [H1 H2].
  destruct (c =? 10) eqn:E.
  - destruct (2 <=? run)%nat; [now apply IH|].
    cbn [has_pair]. rewrite (IH (S run) H2). reflexivity.
  - cbn [has_pair]. rewrite (IH 0%nat H2), orb_false_r.
    destruct (c =? 32) eqn:F; [|reflexivity]. cbn [andb] in *.
    destruct (head_is 32 (limit_newlines 0 s)) eqn:G; [|reflexivity].
    rewrite (limit_newlines_head s G) in H1. discriminate.
Qed.

Lemma split_lines_parts (s : pystr) :
  exists line lines,
    split_lines s = line :: lines /\
    (exists r, s = line ++ r) /\ ~ In 10 line /\
    (forall l, In l lines -> ~ In 10 l /\ part l s).
Proof.
  induction s as [|c s [line [lines [E [[r Hr] [Hn Hl]]]]]]; cbn [split_lines].
  - exists [], []. split; [reflexivity|]. split; [now exists []|]. split; [tauto|].
    intros l [].
  - destruct (c =? 10) eqn:F.
    + exists [], (split_lines s). split; [reflexivity|].
      split; [now exists (c :: s)|]. split; [tauto|].
      rewrite E. intros l [<- | Hin].
      * split; [assumption|]. apply part_cons. exists [], r. exact Hr.
      * destruct (Hl l Hin) as [H1 H2]. split; [assumption | now apply part_cons].
    + rewrite E. apply Z.eqb_neq in F.
      exists (c :: line), lines. split; [reflexivity|].
      split; [exists r; cbn [app]; now f_equal|].
      split; [intros [H | H]; [congruence | contradiction]|].
      intros l Hin. destruct (Hl l Hin) as [H1 H2]. split; [assumption | now apply part_cons].
Qed.

Lemma split_lines_all (s l : pystr) :
  In l (split_lines s) -> ~ In 10 l /\ part l s.
Proof.
  destruct (split_lines_parts s) as [line [lines [E [[r Hr] [Hn Hl]]]]].
  rewrite E. intros [<- | Hin]; [|now apply Hl].
  split; [assumption|]. exists [], r. exact Hr.
Qed.

Lemma join_lines_ok (Q : Z -> Prop) (lines : list pystr) :
  Q 10 ->
  Forall (fun l => l <> [] /\ ~ In 10 l /\ Forall Q l /\ has_pair 32 l = false) lines ->
  Forall Q (join_lines lines) /\
  has_pair 32 (join_lines lines) = false /\
  has_pair 10 (join_lines lines) = false /\
  head_is 10 (join_lines lines) = false.
Proof.
  intros Q10. induction 1 as [|l lines [Hne [Hn [Hq Hp]]] Hl IH]; cbn [join_lines].
  - repeat split. constructor.
  - assert (Hh : head_is 10 l = false).
    { destruct l as [|x l]; [reflexivity|]. cbn [head_is]. apply Z.eqb_neq.
      intros ->. apply Hn. now left. }
    destruct lines as [|l2 lines].
    + repeat split; try assumption. now apply no_char_no_pair.
    + destruct IH as [I1 [I2 [I3 I4]]].
      split; [apply Forall_app; split; [assumption | now constructor]|].
      split; [apply has_pair_sep; [discriminate | assumption | assumption]|].
      split.
      * clear Hh Hq Hp. induction l as [|x l IHl]; [congruence|].
        assert (Hx : (x =? 10) = false)
          by (apply Z.eqb_neq; intros ->; apply Hn; now left).
        cbn [app has_pair]. rewrite Hx. cbn [andb orb].
        destruct l as [|y l].
        -- cbn [app has_pair head_is]. rewrite I4, I3. reflexivity.
        -- apply IHl; [discriminate|]. intros H. apply Hn. now right.
      * destruct l as [|x l]; [congruence | exact Hh].
Qed.

Lemma truncated_prefix (text : pystr) (max_length : Z) :
  0 <= max_length -> max_length < len text ->
  let r := TextMore.safe_truncate_utf8 text max_length in
  len r <= max_length /\ part r text.
Proof.
  intros Hm H. unfold TextMore.safe_truncate_utf8, CacheManager._safe_truncate_utf8.
  assert (Hne : is_empty text = false) by (destruct text; [cbn in H; lia | reflexivity]).
  rewrite Hne. replace (len text <=? max_length) with false
    by (symmetry; apply Z.leb_gt; lia).
  cbn [orb].
  destruct (Router.utf8 (slice_to max_length text)).
  - split; [apply len_slice_to; lia | apply firstn_part].
  - pose proof (TextMore.shorter_prefix_spec text max_length 1
                  (Z.to_nat (Z.min 4 max_length))) as [-> | [j [Hj [-> _]]]].
    + split; [cbn; lia | now exists [], text].
    + split; [|apply firstn_part].
      pose proof (len_slice_to (max_length - j) text ltac:(lia)). lia.
Qed.

(** [X29] Extracted text is tidy.  For every text and every
    [max_length >= 0] the result of [normalize_extracted_text] has at
    most [max_length] characters; it holds no tab, and every character
    of it is printable, a line feed, a carriage return or a space; no
    two spaces and no two line feeds follow each other, so it has no
    empty line. *)
Theorem normalized_text_is_tidy (text : pystr) (max_length : Z) :
  0 <= max_length ->
  let r := normalize_extracted_text text max_length in
  len r <= max_length /\
  (forall c, In c r ->
     c <> 9 /\ (isprintable c = true \/ c = 10 \/ c = 13 \/ c = 32)) /\
  has_pair 32 r = false /\
  has_pair 10 r = false.
Proof.
  intros Hm. cbv zeta. unfold normalize_extracted_text.
  destruct (is_empty text).
  { repeat split; try (cbn; lia); destruct H. }
  set (Q := fun c : Z => kept c = true /\ c <> 9).
  assert (Q32 : Q 32) by (split; [unfold kept; apply orb_true_r | discriminate]).
  assert (Q10 : Q 10).
  { split; [|discriminate]. unfold kept. cbn. now rewrite !orb_true_r. }
  destruct (collapse_blanks_ok Q false (filter kept text) Q32) as [A1 [A2 _]].
  { apply Forall_forall. intros c Hc Hb. apply filter_In in Hc as [_ Hc].
    split; [assumption|]. intros ->. discriminate. }
  set (a := collapse_blanks false (filter kept text)) in *.
  pose proof (limit_newlines_Forall Q 0 a A1) as B1.
  pose proof (limit_newlines_pairs a 0%nat A2) as B2.
  set (b := limit_newlines 0 a) in *.
  destruct (join_lines_ok Q
              (filter (fun line => negb (is_empty line)) (map strip (split_lines b))) Q10)
    as [C1 [C2 [C3 _]]].
  { apply Forall_forall. intros l Hl. apply filter_In in Hl as [Hl Hne].
    apply in_map_iff in Hl as [l0 [<- Hl0]].
    destruct (split_lines_all b l0 Hl0) as [Hn Hp].
    pose proof (strip_part l0) as Hs.
    split; [intros E; rewrite E in Hne; discriminate|].
    split.
    - intros Hin. apply Hn. destruct Hs as [x [y ->]].
      apply in_or_app. right. apply in_or_app. now left.
    - split.
      + apply (Forall_part Q _ l0 Hs). now apply (Forall_part Q _ b Hp).
      + apply (has_pair_part 32 _ l0 Hs). now apply (has_pair_part 32 _ b Hp). }
  set (j := join_lines
              (filter (fun line => negb (is_empty line)) (map strip (split_lines b)))) in *.
  pose proof (strip_part j) as Hs.
  assert (G : forall r, part r (strip j) -> 
            (forall c, In c r ->
               c <> 9 /\ (isprintable c = true \/ c = 10 \/ c = 13 \/ c = 32)) /\
            has_pair 32 r = false /\ has_pair 10 r = false).
  { intros r Hr. split; [|split].
    - pose proof (Forall_part Q _ _ Hr (Forall_part Q _ _ Hs C1)) as F.
      rewrite Forall_forall in F. intros c Hc. destruct (F c Hc) as [Hk H9].
      split; [assumption|]. unfold kept in Hk.
      repeat (apply orb_true_iff in Hk as [Hk | Hk]);
        try (apply Z.eqb_eq in Hk); try contradiction; auto.
    - apply (has_pair_part 32 _ _ Hr). now apply (has_pair_part 32 _ j Hs).
    - apply (has_pair_part 10 _ _ Hr). now apply (has_pair_part 10 _ j Hs). }
  destruct (max_length <? len (strip j)) eqn:E.
  - apply Z.ltb_lt in E.
    destruct (truncated_prefix (strip j) max_length Hm E) as [T1 T2].
    split; [assumption | now apply G].
  - apply Z.ltb_ge in E. split; [assumption | apply G, part_refl].
Qed.

End Normalize.

(** Printable characters of the sample: the visible ASCII range and
    everything from U+00A1 on. *)
Definition sample_isprintable (c : Z) : bool :=
  ((32 <=? c) && (c <=? 126)) || (161 <=? c).

(** Tabs, runs of blanks, blank lines and a control character. *)
Example normalize_sample :
  normalize_extracted_text sample_isprintable
    (lit "  Annual" ++ [9; 9] ++ lit "report  " ++ [10; 10; 10; 32; 10; 7]
     ++ lit "2024 " ++ [13; 10]) 100
  = lit "Annual report" ++ [10] ++ lit "2024".
Proof. vm_compute. reflexivity. Qed.

Lemma normalized_text_is_tidy_witness :
  len (normalize_extracted_text sample_isprintable
         (lit "a" ++ [9] ++ lit "b" ++ [10; 10; 10] ++ lit "c  d") 5) <= 5.
Proof.
  apply (normalized_text_is_tidy sample_isprintable
           (lit "a" ++ [9] ++ lit "b" ++ [10; 10; 10] ++ lit "c  d") 5).
  lia.
Defined.

End Extracted.

(* ================================================================== *)
(** * Search results cached in the immediate tier *)
(* ================================================================== *)

Module ResultCache.

Import Text Cache TierSearch.

(** ** The immediate tier with cached results *)

(** [_cache_search_results]: the rows go into the immediate tier under
    the query, next to the entries of the files.  With a full tier the
    first key is deleted before; [next(iter(...))] on an empty tier
    raises [StopIteration], which the handler logs. *)
Definition _cache_search_results
    (s : engine) (query : pystr) (results : list hit) : engine :=
  let imm := immediate_cache s in
  let imm :=
    if dict_len imm <? max_immediate_cache s
    then dict_set query (SearchResults results) imm
    else
      match imm with
      | [] => imm
      | (oldest_key, _) :: _ =>
          dict_set query (SearchResults results) (dict_del oldest_key imm)
      end in
  mkEngine imm (hot_cache s) (max_immediate_cache s) (max_hot_cache s)
    (indexing_cancelled s) (shutdown_requested s) (indexed_files s)
    (last_save_time s) (timers s) (hot_cache_json s) (extract_calls s) (upserts s).

(** The items the call leaves in the tier were there before or are the
    cached rows. *)
Lemma cache_search_results_In_inv
    (s : engine) (query : pystr) (results : list hit) (kv : pystr * cache_value) :
  In kv (immediate_cache (_cache_search_results s query results)) ->
  kv = (query, SearchResults results) \/ In kv (immediate_cache s).
Proof.
  unfold _cache_search_results. cbn [immediate_cache].
  destruct (dict_len (immediate_cache s) <? max_immediate_cache s).
  - apply CacheMore.dict_set_In_inv.
  - destruct (immediate_cache s) as [|[k v] imm] eqn:E; [auto|].
    intros H. apply CacheMore.dict_set_In_inv in H as [H | H]; [now left|].
    right. now apply CacheMore.dict_del_In in H.
Qed.

Section Search.

Variable nfkc : pystr -> pystr.
Variable lower : pystr -> pystr.
Variable optimal_threads : Z.
Variable _calculate_advanced_relevance_score : pystr -> pystr -> pystr -> pystr -> Q -> Q.

(** ** Cached rows end the scan *)

Lemma cache_search_results_In (s : engine) (query : pystr) (results : list hit) :
  0 < max_immediate_cache s ->
  In (query, SearchResults results)
     (immediate_cache (_cache_search_results s query results)).
Proof.
  intros Hm. unfold _cache_search_results. cbn [immediate_cache].
  destruct (dict_len (immediate_cache s) <? max_immediate_cache s) eqn:E;
    [apply CacheMore.dict_set_In|].
  destruct (immediate_cache s) as [|[k v] imm]; [|apply CacheMore.dict_set_In].
  apply Z.ltb_ge in E. cbn in E. lia.
Qed.

Lemma scan_raises
    (text_of : entry -> pystr) (preview_of : entry -> option pystr)
    (score_of : pystr -> entry -> Q) (layer_name : pystr)
    (query_patterns : list pystr) (items : tier) (k : pystr) (results : list hit) :
  In (k, SearchResults results) items ->
  scan nfkc lower file_entry text_of preview_of score_of layer_name query_patterns items
  = None.
Proof.
  induction items as [|[k' v] items IH]; intros H; [destruct H|].
  cbn [scan]. destruct v as [data|rs]; cbn [file_entry]; [|reflexivity].
  destruct H as [H | H]; [discriminate|]. rewrite (IH H).
  destruct (enhanced_search_match nfkc lower (text_of data) query_patterns); [|reflexivity].
  destruct (file_path data); [|reflexivity]. now destruct (preview_of data).
Qed.

(** [X30] Cached search results break the search.  Once
    [_cache_search_results] has stored the rows of a search in the
    immediate tier (the timer that [ultra_fast_search] starts after an
    answer from the hot tier or from the shards), and the tier holds at
    most 1000 keys, the scan of [_search_immediate_layer] raises on the
    stored list for every query: [ultra_fast_search] then returns the
    empty list for every query with text, counts an error, and asks
    neither the hot tier nor the shards. *)
Theorem cached_results_break_search
    (s : engine) (q0 : pystr) (results : list hit)
    (pc : TextMore.pattern_cache) (max_size : Z) (completion : list nat)
    (hot_search : pystr -> option (list hit))
    (complete_search : pystr -> Z -> option (list hit))
    (st : Planner.stats) (q : pystr) (max_results : Z) :
  0 < max_immediate_cache s ->
  dict_len (immediate_cache (_cache_search_results s q0 results)) <= 1000 ->
  strip q <> [] ->
  Planner.ultra_fast_search hit
    (fun query =>
       fst (_search_immediate_layer nfkc lower optimal_threads
              _calculate_advanced_relevance_score pc max_size completion
              (_cache_search_results s q0 results) query))
    hot_search complete_search st q max_results
  = ([], Planner.count_error (Planner.count_search st),
     [Planner.AskImmediate (strip q)]).
Proof.
  intros Hm Hl Hq. unfold Planner.ultra_fast_search.
  assert (Hne : is_empty q = false).
  { destruct q; [|reflexivity]. exfalso. apply Hq. reflexivity. }
  assert (Hns : is_empty (strip q) = false) by (destruct (strip q); [congruence | reflexivity]).
  rewrite Hne, Hns. cbn [orb].
  unfold _search_immediate_layer.
  destruct (TextMore._get_search_patterns nfkc lower pc max_size (strip q)) as [cached pc'].
  cbn [fst].
  replace (1000 <? _) with false by (symmetry; apply Z.ltb_ge; exact Hl).
  rewrite (scan_raises _ _ _ _ _ _ q0 results (cache_search_results_In s q0 results Hm)).
  reflexivity.
Qed.

End Search.

(** A row of the hot tier for [a.txt]. *)
Definition hot_row : hit :=
  mkHit a_txt (lit "a.txt") (lit "hello world") (lit "hot") (8 # 10).

(** The immediate tier holds [a.txt]; the rows of a search for [world]
    are cached; a search for [a.txt] then fails, although the immediate
    tier holds the file. *)
Lemma cached_results_break_search_witness :
  Planner.ultra_fast_search hit
    (fun query =>
       fst (_search_immediate_layer Text.sample_nfkc Text.sample_lower 4 base_score_only
              [] 1000 []
              (_cache_search_results CacheMore.engine_with_a_txt (lit "world") [hot_row])
              query))
    (fun _ => Some []) (fun _ _ => Some [])
    (Planner.mkStats 1 0 1 0 0) (lit "a.txt") 5500
  = ([], Planner.mkStats 2 0 1 0 1, [Planner.AskImmediate (lit "a.txt")]).
Proof.
  apply (cached_results_break_search Text.sample_nfkc Text.sample_lower 4 base_score_only
           CacheMore.engine_with_a_txt (lit "world") [hot_row] [] 1000 []
           (fun _ => Some []) (fun _ _ => Some [])
           (Planner.mkStats 1 0 1 0 0) (lit "a.txt") 5500).
  - vm_compute. reflexivity.
  - vm_compute. discriminate.
  - vm_compute. discriminate.
Defined.

(** Before the rows are cached the same search finds the file. *)
Example search_before_caching :
  option_map (map hit_file_path)
    (fst (_search_immediate_layer Text.sample_nfkc Text.sample_lower 4 base_score_only
            [] 1000 [] CacheMore.engine_with_a_txt (lit "a.txt")))
  = Some [a_txt].
Proof. vm_compute. reflexivity. Qed.

(** With the rows cached and the tier at its limit, the next file that is
    indexed is written but not counted, no timer is set for it, and
    nothing is evicted. *)
Example cached_rows_fail_index :
  let full := mkEngine [] [] 1 1 false false 0 0 [] NoFile [] [] in
  let s := _cache_search_results full (lit "world") [hot_row] in
  let r := live_progressive_index_file Text.sample_lower s a_txt (small_file 7) in
  fst r = false /\
  map fst (immediate_cache (snd r)) = [lit "world"; a_txt] /\
  timers (snd r) = [] /\ indexed_files (snd r) = 0.
Proof. vm_compute. repeat split. Qed.

End ResultCache.
(* ================================================================== *)
(** * The rows the application stores *)
(* ================================================================== *)

Module StoredRows.

Import Cache Store.

(** ** Sanitized rows *)

(** A row of [documents] within the limits of the upsert. *)
Definition sanitized (d : document) : Prop :=
  len (content d) <= 2000000 /\ ~ In NUL (content d) /\
  len (Store.file_name d) <= 500 /\ ~ In NUL (Store.file_name d) /\
  len (Store.file_type d) <= 100.

(** Every shard holds sanitized rows only. *)
Definition all_sanitized (st : Pipeline.store) : Prop :=
  forall db d, In db st -> In d (documents db) -> sanitized d.

(** The rows other writers commit during the attempts are sanitized. *)
Definition racing_sanitized (faults : Z -> fault) : Prop :=
  forall n c row again ok, faults n = Integrity c (Some row) again ok -> sanitized row.

(** The row the upsert writes is within the limits when the request
    carries a file name, and when the base name of its path is short. *)
Lemma written_row_within_limits (a : upsert_args) (i : Z) :
  a_file_name a <> [] \/ len (path_name (a_file_path a)) <= 500 ->
  sanitized (written_row a i).
Proof.
  intros H. pose proof (written_row_sanitized a i) as [H1 [H2 [H3 [H4 H5]]]].
  cbv zeta in *. unfold sanitized.
  split; [assumption|]. split; [assumption|]. split; [|split; assumption].
  destruct (a_file_name a) as [|c n] eqn:E; [|apply H5; discriminate].
  destruct H as [H | H]; [congruence|].
  cbn [written_row Store.file_name]. rewrite E.
  destruct (safe_file_name_ok (a_file_path a) []) as [_ [_ Hf]].
  rewrite (Hf eq_refl).
  pose proof (len_remove_char NUL (path_name (a_file_path a))). lia.
Qed.

(** A request whose file name is the base name of its path. *)
Lemma written_row_named (a : upsert_args) (i : Z) :
  a_file_name a = path_name (a_file_path a) -> sanitized (written_row a i).
Proof.
  intros E. apply written_row_within_limits.
  destruct (a_file_name a) as [|c n] eqn:En; [right | left; discriminate].
  rewrite <- E. cbn. lia.
Qed.

(** ** Rows of a shard after an upsert *)

Section Rows.

Variable P : document -> Prop.

Lemma attempt_rows
    (db : shard) (a : upsert_args) (n : Z) (flt : fault) :
  (forall d, In d (documents db) -> P d) ->
  (forall i, P (written_row a i)) ->
  (forall c row again ok, flt = Integrity c (Some row) again ok -> P row) ->
  forall d, In d (documents (fst (fst (complete_layer_attempt db a n flt)))) -> P d.
Proof.
  intros Hdb Hw Hr.
  assert (Hu : forall db0 e, (forall d, In d (documents db0) -> P d) ->
                             forall d, In d (documents (do_update db0 a e)) -> P d).
  { intros db0 e H0 d Hin. cbn [do_update documents] in Hin. unfold sql_update in Hin.
    apply in_map_iff in Hin as [x [Ex Hx]].
    destruct (PyStr.eqb (Store.file_path x) (a_file_path a)); subst d; auto. }
  assert (Hi : forall d, In d (documents (do_insert db a)) -> P d).
  { cbn [do_insert documents]. intros d Hin.
    apply in_app_or in Hin as [Hin | [<- | []]]; auto. }
  assert (Ho : forall racing,
            (forall row, racing = Some row -> P row) ->
            forall d, In d (documents (other_writer db racing)) -> P d).
  { intros [row|] H0 d Hin; cbn [other_writer documents] in Hin; [|auto].
    apply in_app_or in Hin as [Hin | [<- | []]]; auto. }
  assert (He : forall db0 c ok, (forall d, In d (documents db0) -> P d) ->
            forall d, In d (documents (fst (fst (on_integrity_error db0 a n c ok)))) ->
                      P d).
  { intros db0 c ok H0 d. unfold on_integrity_error.
    destruct c; [destruct ok|]; cbn [fst]; auto.
    cbn [do_repair documents]. intros Hin. apply filter_In in Hin as [Hin _]. auto. }
  unfold complete_layer_attempt.
  destruct flt as [|msg|c racing again ok|].
  - destruct (select_id _ _); cbn [fst]; [now apply Hu | exact Hi].
  - destruct (_ && _); cbn [fst]; exact Hdb.
  - assert (Hrow : forall row, racing = Some row -> P row)
      by (intros row ->; eapply Hr; reflexivity).
    specialize (Ho racing Hrow).
    destruct (select_id (a_file_path a) (documents db)).
    + specialize (He db c ok Hdb).
      destruct (on_integrity_error db a n c ok) as [[db1 ev1] nx1]. exact He.
    + destruct (select_id (a_file_path a) (documents (other_writer db racing)));
        [|exact Ho].
      destruct again as [| |msg].
      * cbn [fst]. now apply Hu.
      * specialize (He (other_writer db racing) c ok Ho).
        destruct (on_integrity_error (other_writer db racing) a n c ok)
          as [[db1 ev1] nx1]. exact He.
      * destruct (_ && _); exact Ho.
  - exact Hdb.
Qed.

Lemma loop_rows
    (faults : Z -> fault) (a : upsert_args) (left : nat) :
  (forall i, P (written_row a i)) ->
  (forall n c row again ok, faults n = Integrity c (Some row) again ok -> P row) ->
  forall (n : Z) (db : shard),
    (forall d, In d (documents db) -> P d) ->
    forall d, In d (documents (fst (complete_layer_loop faults a n left db))) -> P d.
Proof.
  intros Hw Hr. induction left as [|left IH]; intros n db Hdb;
    cbn [complete_layer_loop]; [exact Hdb|].
  pose proof (attempt_rows db a n (faults n) Hdb Hw (Hr n)) as H1.
  destruct (complete_layer_attempt db a n (faults n)) as [[db1 ev1] nx].
  cbn [fst] in H1. destruct nx; cbn [fst]; try exact H1.
  specialize (IH (n + 1) db1 H1).
  destruct (complete_layer_loop faults a (n + 1) left db1) as [db2 ev2]. exact IH.
Qed.

End Rows.

Lemma set_nth_In (n : nat) (db x : shard) (st : Pipeline.store) :
  In x (Pipeline.set_nth n db st) -> x = db \/ In x st.
Proof.
  revert n. induction st as [|y st IH]; intros [|n]; cbn [Pipeline.set_nth In].
  - intros [].
  - intros [].
  - intros [<- | H]; [now left | right; now right].
  - intros [<- | H]; [right; now left|]. destruct (IH n H); auto.
Qed.

Lemma add_to_store_sanitized
    (faults : Z -> fault) (st : Pipeline.store) (a : upsert_args) :
  (forall i, sanitized (written_row a i)) ->
  racing_sanitized faults ->
  all_sanitized st -> all_sanitized (Pipeline.add_to_store faults st a).
Proof.
  intros Hw Hr Hs. unfold Pipeline.add_to_store.
  destruct (Router.get_db_index_for_file _ _) as [i|]; [|exact Hs].
  destruct (nth_error st (Z.to_nat i)) as [old|] eqn:En; [|exact Hs].
  intros db d Hdb Hd. apply set_nth_In in Hdb as [-> | Hdb]; [|now apply (Hs db)].
  apply nth_error_In in En.
  apply (loop_rows sanitized faults a 8 Hw Hr 0 old); [|exact Hd].
  intros x Hx. now apply (Hs old).
Qed.

(** ** Requests of the application *)

Section Requests.

Variable lower : pystr -> pystr.

(** What touches the tiers: indexing and the two promotions, and the
    caching of the rows of a search. *)
Inductive app_op :=
| Engine (o : op)
| CacheResults (query : pystr) (results : list hit).

Definition app_step (s : engine) (o : app_op) : engine :=
  match o with
  | Engine o => step lower s o
  | CacheResults query results => ResultCache._cache_search_results s query results
  end.

Definition app_run (s : engine) (ops : list app_op) : engine :=
  fold_left app_step ops s.

(** Every entry of a file in the tiers, and every request made to the
    store, carries the base name of its path as file name.  So it is in
    the engine as [__init__] leaves it, and in a hot tier restored from a
    saved one. *)
Definition named_by_path (s : engine) : Prop :=
  (forall p e, In (p, FileEntry e) (immediate_cache s) ->
               Cache.file_name e = path_name p) /\
  (forall p e, In (p, e) (hot_cache s) -> Cache.file_name e = path_name p) /\
  (forall u, In u (upserts s) ->
             Cache.file_name (u_base_data u) = path_name (u_file_path u)).

Lemma move_to_hot_upserts (s : engine) (p c : pystr) (f : file_obs) :
  upserts (_move_to_hot_layer lower s p c f) = upserts s.
Proof.
  unfold _move_to_hot_layer, take_from_immediate, put_into_hot.
  destruct (dict_lookup p (immediate_cache s)) as [[b|rows]|]; reflexivity.
Qed.

Lemma app_step_named (s : engine) (o : app_op) :
  named_by_path s -> named_by_path (app_step s o).
Proof.
  intros [Hi [Hh Hu]]. destruct o as [[p f | p c f | p c h f] | q results];
    cbn [app_step step].
  - pose proof (index_outcome lower s p f) as [_ [_ [E3 [_ [_ [E6 _]]]]]].
    cbv zeta in *. unfold named_by_path. rewrite E3, E6.
    split; [|split; assumption].
    intros k e Hin. apply CacheMore.index_immediate_In in Hin as [Hin | [c [_ E]]];
      [now apply Hi|].
    injection E as -> ->. reflexivity.
  - destruct (move_to_hot_tiers lower s p c f p) as [E1 _].
    unfold named_by_path. rewrite E1, move_to_hot_upserts.
    split; [|split; [|assumption]].
    + intros k e Hin. apply CacheMore.dict_del_In in Hin. now apply Hi.
    + intros k e Hin. apply CacheMore.move_to_hot_In in Hin as [Hin | [b [Hb E]]];
        [now apply Hh|].
      injection E as -> ->. cbn [CacheMore.hot_entry Cache.file_name].
      destruct Hb as [Hb | ->]; [now apply Hi | reflexivity].
  - destruct (move_to_complete_tiers lower s p c h f) as [E1 E2].
    destruct (CacheMore.move_to_complete_request lower s p c h f) as [b [Hb E3]].
    unfold named_by_path. rewrite E1, E2, E3.
    split; [assumption|]. split.
    + intros k e Hin. apply CacheMore.dict_del_In in Hin. now apply Hh.
    + intros u Hin. apply in_app_or in Hin as [Hin | [<- | []]]; [now apply Hu|].
      cbn [u_base_data u_file_path].
      destruct Hb as [Hb | ->]; [now apply Hh | reflexivity].
  - unfold named_by_path.
    split; [|split; assumption].
    intros k e Hin. apply ResultCache.cache_search_results_In_inv in Hin as [E | Hin];
      [discriminate | now apply Hi].
Qed.

Lemma app_run_named (s : engine) (ops : list app_op) :
  named_by_path s -> named_by_path (app_run s ops).
Proof.
  revert s. induction ops as [|o ops IH]; intros s H; [exact H|].
  cbn [app_run fold_left]. apply IH. now apply app_step_named.
Qed.

(** [C10] Sanitized rows.  The row the durable upsert writes has a
    content of at most 2,000,000 characters without NUL, a file name
    without NUL and a file type of at most 100 characters, and a file
    name of at most 500 characters whenever the request carries a file
    name or the base name of its path is that short; the insert branch
    and the update branch write this same row.  Every request that
    [_move_to_complete_layer] hands to [_add_to_complete_layer], along
    any sequence of index, promotion and result-caching calls, carries
    the base name of its own path as file name; so every row it makes
    the upsert write is within all five limits, and a store of sanitized
    rows holds sanitized rows only after the call, whatever faults the
    attempts meet. *)
Theorem stored_rows_sanitized
    (s : engine) (ops : list app_op) (u : upsert_request) (t : Z) :
  named_by_path s ->
  In u (upserts (app_run s ops)) ->
  let a := Pipeline.request_args u t in
  (forall a' i, a_file_name a' <> [] \/ len (path_name (a_file_path a')) <= 500 ->
                sanitized (written_row a' i)) /\
  (forall i, sanitized (written_row a i)) /\
  (forall db, documents (do_insert db a)
              = documents db ++ [written_row a (last_rowid db + 1)]) /\
  (forall db existing d,
     In d (documents (do_update db a existing)) ->
     In d (documents db) \/ d = written_row a (id d)) /\
  (forall faults st,
     racing_sanitized faults -> all_sanitized st ->
     all_sanitized (Pipeline.add_to_store faults st a)).
Proof.
  intros Hn Hu. cbv zeta.
  assert (Hw : forall i, sanitized (written_row (Pipeline.request_args u t) i)).
  { intros i. apply written_row_named.
    destruct (app_run_named s ops Hn) as [_ [_ H]].
    cbn [Pipeline.request_args a_file_name a_file_path]. now apply H. }
  split; [intros a' i; apply written_row_within_limits|].
  split; [exact Hw|]. split; [reflexivity|]. split.
  - intros db existing d Hin. cbn [do_update documents] in Hin. unfold sql_update in Hin.
    apply in_map_iff in Hin as [x [Ex Hx]].
    destruct (PyStr.eqb (Store.file_path x) (a_file_path (Pipeline.request_args u t)));
      subst d; [right; reflexivity | now left].
  - intros faults st Hr Hs. now apply add_to_store_sanitized.
Qed.

End Requests.

Lemma engine0_named : named_by_path engine0.
Proof. unfold named_by_path, engine0. cbn. repeat split; intros; contradiction. Qed.

(** [a.txt] on its way into the store, with the rows of a search cached
    in between. *)
Definition a_txt_journey : list app_op :=
  [Engine (Index a_txt (small_file 7));
   CacheResults (lit "world") [ResultCache.hot_row];
   Engine (MoveToHot a_txt (lit "hello world") (small_file 1000007));
   Engine (MoveToComplete a_txt (lit "hello world") (lit "5eb6") (small_file 5000007))].

Definition a_txt_request : upsert_request :=
  mkUpsert a_txt (lit "hello world")
    (mkEntry (Some a_txt) (lit "a.txt") (Some (lit "hello world"))
             (Some (lit "hello world")) (lit ".txt") 11 7
             (Some (lit "hot")) (Some 1000007))
    (lit "5eb6").

Lemma stored_rows_sanitized_witness :
  upserts (app_run Text.sample_lower engine0 a_txt_journey) = [a_txt_request] /\
  sanitized (written_row (Pipeline.request_args a_txt_request 5000008) 1) /\
  all_sanitized
    (Pipeline.add_to_store (fun _ => NoFault) Pipeline.four_shards
       (Pipeline.request_args a_txt_request 5000008)).
Proof.
  assert (E : upserts (app_run Text.sample_lower engine0 a_txt_journey) = [a_txt_request])
    by (vm_compute; reflexivity).
  destruct (stored_rows_sanitized Text.sample_lower engine0 a_txt_journey
              a_txt_request 5000008 engine0_named)
    as [_ [H2 [_ [_ H5]]]].
  - rewrite E. now left.
  - split; [exact E|]. split; [apply H2|]. apply H5.
    + intros n c row again ok H. discriminate.
    + intros db d Hdb Hd. unfold Pipeline.four_shards in Hdb.
      apply repeat_spec in Hdb. subst db. destruct Hd.
Defined.

End StoredRows.
